(** * GCRBot WebExtractor: a shallow embedding of the crawl engine

    This development embeds [src/gcrbot/WebExtractor.py] (class
    [WebExtractor] and the function [_deduplicate_content]) and proves
    properties of its content scorer, link scorer, crawl controller, PDF
    fallback pipeline, text cleaning and result formatter.

    Conventions of the embedding:
    - a Python [str] is the list of its Unicode code points ([list N]);
      [len] is the length of that list;
    - a Python [int] is a [Z];
    - a Python [float] is an IEEE-754 binary64 value, computed with the
      executable specification of the Standard Library ([SpecFloat]);
    - mutable attributes of the extractor ([visited_urls], [pdf_links]), the
      temporary files on disk and the log of library calls are threaded as
      an explicit state;
    - the libraries the extractor calls (requests, BeautifulSoup, urllib,
      pdfminer, tempfile) are a record of oracles, [World];
    - an exception raised by a library call is an oracle answering [None];
      an exception that leaves a function of the extractor is a value of
      type [exn];
    - [str.lower] is modelled on Latin-1 (see [lower_char]); what is
      printed on the standard output is left out. *)

From Stdlib Require Import ZArith NArith List Bool Lia String Ascii.
From Stdlib Require Import Floats.SpecFloat Sorting.Sorted.
From stdpp Require Import base decidable countable gmap list.

Local Open Scope Z_scope.

(* ===================================================================== *)
(** * Python strings *)
(* ===================================================================== *)

Module Py.

(** A character is a code point. *)
Definition pystr := list N.

(** A string literal of printable ASCII characters. *)
Definition lit (s : string) : pystr := map N_of_ascii (list_ascii_of_string s).
Arguments lit s%_string.

Definition NL : N := 10%N.
Definition SPACE : N := 32%N.

(** [len] of a string or of a list. *)
Definition len {A} (s : list A) : Z := Z.of_nat (length s).

(** Truth value of a string: [not s] is [is_empty s]. *)
Definition is_empty {A} (s : list A) : bool :=
  match s with [] => true | _ => false end.

(** [str.isspace] on one character (the white space of Unicode). *)
Definition is_space (c : N) : bool :=
  ((9 <=? c) && (c <=? 13) || (28 <=? c) && (c <=? 32)
   || (c =? 133) || (c =? 160) || (c =? 5760)
   || (8192 <=? c) && (c <=? 8202) || (c =? 8232) || (c =? 8233)
   || (c =? 8239) || (c =? 8287) || (c =? 12288))%N.

(** [str.lower] on one character: ASCII and Latin-1 capitals are mapped to
    their small letters; code points above U+00FF are left unchanged. This
    is [str.lower] on the strings of code points below U+0100; above,
    [str.lower] lowers other alphabets too and can lengthen the string
    (U+0130), so the properties that read a lowered text are stated for
    Latin-1 input. *)
Definition lower_char (c : N) : N :=
  (if (65 <=? c) && (c <=? 90) then c + 32
   else if (192 <=? c) && (c <=? 222) && negb (c =? 215) then c + 32
   else c)%N.

Definition lower (s : pystr) : pystr := map lower_char s.

Fixpoint lstrip (s : pystr) : pystr :=
  match s with
  | c :: r => if is_space c then lstrip r else s
  | [] => []
  end.

(** [s.strip()] *)
Definition strip (s : pystr) : pystr := rev (lstrip (rev (lstrip s))).

(** [s.split()]: the maximal runs of characters that are not white space. *)
Fixpoint split_ws_aux (cur : pystr) (s : pystr) : list pystr :=
  match s with
  | [] => if is_empty cur then [] else [rev cur]
  | c :: r =>
      if is_space c
      then (if is_empty cur then split_ws_aux [] r
            else rev cur :: split_ws_aux [] r)
      else split_ws_aux (c :: cur) r
  end.

Definition split_ws (s : pystr) : list pystr := split_ws_aux [] s.

(** [s.split(sep)] for a separator of one character: never empty. *)
Fixpoint split_on_aux (sep : N) (cur : pystr) (s : pystr) : list pystr :=
  match s with
  | [] => [rev cur]
  | c :: r =>
      if (c =? sep)%N then rev cur :: split_on_aux sep [] r
      else split_on_aux sep (c :: cur) r
  end.

Definition split_on (sep : N) (s : pystr) : list pystr := split_on_aux sep [] s.

(** [s.startswith(p)] *)
Fixpoint startswith (p s : pystr) : bool :=
  match p, s with
  | [], _ => true
  | _ :: _, [] => false
  | a :: p', b :: s' => (a =? b)%N && startswith p' s'
  end.

(** [s.endswith(p)] *)
Definition endswith (p s : pystr) : bool := startswith (rev p) (rev s).

(** [w in s]: [w] occurs in [s] as a substring. *)
Fixpoint contains (w s : pystr) : bool :=
  startswith w s ||
  match s with
  | [] => false
  | _ :: r => contains w r
  end.

(** [s.count(w)]: the number of occurrences of [w] in [s] that do not
    overlap, scanning from the left; [len(s) + 1] for the empty [w]. *)
Fixpoint count_aux (w : pystr) (skip : nat) (s : pystr) : nat :=
  match s with
  | [] => 0
  | _ :: r =>
      match skip with
      | S k => count_aux w k r
      | O => if startswith w s
             then S (count_aux w (length w - 1) r)
             else count_aux w 0 r
      end
  end.

Definition count (w s : pystr) : Z :=
  if is_empty w then len s + 1 else Z.of_nat (count_aux w 0 s).

(** [sep.join(l)] *)
Fixpoint join (sep : pystr) (l : list pystr) : pystr :=
  match l with
  | [] => []
  | [x] => x
  | x :: r => x ++ sep ++ join sep r
  end.

(** [l[:n]] for any integer [n]. *)
Definition slice_to {A} (n : Z) (l : list A) : list A :=
  if 0 <=? n then firstn (Z.to_nat n) l
  else firstn (length l - Z.to_nat (- n)) l.

(** [l[-1]] of a list that is not empty. *)
Definition last_item (l : list pystr) : pystr := List.last l [].

(** [s.split(sep)] for a separator [sep] that is not empty: the occurrences
    taken are those that [count] counts; the result is never empty. *)
Fixpoint split_str_aux (sep : pystr) (skip : nat) (cur : pystr) (s : pystr)
    : list pystr :=
  match s with
  | [] => [rev cur]
  | c :: r =>
      match skip with
      | S k => split_str_aux sep k cur r
      | O => if startswith sep s
             then rev cur :: split_str_aux sep (length sep - 1) [] r
             else split_str_aux sep 0 (c :: cur) r
      end
  end.

Definition split_str (sep s : pystr) : list pystr := split_str_aux sep 0 [] s.

(** [s.replace(a, b)] for a pattern [a] that is not empty: the occurrences
    taken are those that [count] counts. *)
Fixpoint replace_aux (a b : pystr) (skip : nat) (s : pystr) : pystr :=
  match s with
  | [] => []
  | c :: r =>
      match skip with
      | S k => replace_aux a b k r
      | O => if startswith a s
             then b ++ replace_aux a b (length a - 1) r
             else c :: replace_aux a b 0 r
      end
  end.

Definition replace (a b s : pystr) : pystr := replace_aux a b 0 s.

(** [c * n] *)
Definition repeat_char (c : N) (n : nat) : pystr := List.repeat c n.

(** [str(n)] for a natural number: its decimal digits. *)
Fixpoint digits_aux (fuel : nat) (n : N) (acc : pystr) : pystr :=
  match fuel with
  | O => acc
  | S f =>
      let acc' := (48 + n mod 10)%N :: acc in
      if (n <? 10)%N then acc' else digits_aux f (n / 10)%N acc'
  end.

Definition str_of_nat (n : nat) : pystr :=
  digits_aux (S n) (N.of_nat n) [].

(** [os.path.basename(p)]: what follows the last [/]. *)
Definition basename (p : pystr) : pystr := last_item (split_on 47%N p).

(** [list(dict.fromkeys(l))]: first occurrences, in order. *)
Fixpoint dedup_keep_first (seen : list pystr) (l : list pystr) : list pystr :=
  match l with
  | [] => []
  | x :: r =>
      if bool_decide (x ∈ seen) then dedup_keep_first seen r
      else x :: dedup_keep_first (x :: seen) r
  end.

End Py.

Import Py.

(* ===================================================================== *)
(** * Blocks of a text *)
(* ===================================================================== *)

(** The loop of [_deduplicate_content]: [seen] holds the stripped blocks
    met so far. *)
Fixpoint unique_blocks (seen : gset pystr) (blocks : list pystr)
    : list pystr :=
  match blocks with
  | [] => []
  | block :: rest =>
      let key := strip block in
      if negb (is_empty key) && negb (bool_decide (key ∈ seen))
      then block :: unique_blocks ({[key]} ∪ seen) rest
      else unique_blocks seen rest
  end.

Definition _deduplicate_content (content : pystr) : pystr :=
  let blocks := split_str [NL; NL] content in
  join [NL; NL] (unique_blocks ∅ blocks).

(* ===================================================================== *)
(** * Python floats (binary64) *)
(* ===================================================================== *)

Module PyFloat.

Definition prec : Z := 53.
Definition emax : Z := 1024.

(** The exceptions of the float operations used by the scorer. *)
Inductive float_error := ZeroDivisionError | OverflowError | ValueError.

(** [a / b] on integers: the quotient rounded once to the nearest binary64
    (ties to even), whatever the size of [a] and [b]. *)
Definition truediv (a b : Z) : float_error + spec_float :=
  match b with
  | 0 => inl ZeroDivisionError
  | _ =>
      match a with
      | 0 => inr (S754_zero (b <? 0))
      | _ =>
          let '(q, e, l) := SFdiv_core_binary prec emax (Z.abs a) 0 (Z.abs b) 0 in
          match binary_round_aux prec emax (xorb (a <? 0) (b <? 0)) q e l with
          | S754_infinity _ => inl OverflowError
          | r => inr r
          end
      end
  end.

(** [float(n)] for an integer inside the binary64 range. *)
Definition of_int (n : Z) : spec_float := binary_normalize prec emax n 0 false.

(** [x * y] *)
Definition mul (x y : spec_float) : spec_float := SFmul prec emax x y.

(** [int(x)]: truncation toward zero. *)
Definition to_int (x : spec_float) : float_error + Z :=
  match x with
  | S754_zero _ => inr 0
  | S754_finite s m e => inr (cond_Zopp s (Z.shiftl (Zpos m) e))
  | S754_infinity _ => inl OverflowError
  | S754_nan => inl ValueError
  end.

End PyFloat.

(* ===================================================================== *)
(** * ContentScorer: [_semantic_match_score] *)
(* ===================================================================== *)

(** The words of the lowered query that are longer than two characters. *)
Definition score_query_words (query_lower : pystr) : list pystr :=
  map strip (List.filter (fun w => 2 <? len (strip w)) (split_ws query_lower)).

(** One turn of the loop over the query words; the accumulator is
    [(score, matched_words)]. *)
Definition score_word (content_lower : pystr) (acc : Z * Z) (word : pystr) : Z * Z :=
  let cnt := count word content_lower in
  if 0 <? cnt then (fst acc + Z.min (cnt * 8) 25, snd acc + 1) else acc.

(** [int(match_ratio * 30)] with [match_ratio = matched_words / len(query_words)]. *)
Definition ratio_bonus (matched_words n_words : Z) : PyFloat.float_error + Z :=
  match PyFloat.truediv matched_words n_words with
  | inl e => inl e
  | inr match_ratio => PyFloat.to_int (PyFloat.mul match_ratio (PyFloat.of_int 30))
  end.

Definition richness_bonus (content : pystr) : Z :=
  if 500 <=? len content then 10
  else if 200 <=? len content then 5
  else 0.

Definition _semantic_match_score (content query : pystr) : PyFloat.float_error + Z :=
  if is_empty content || is_empty query then
    inr (if negb (is_empty content) && (200 <? len content) then 20 else 0)
  else
    let content_lower := lower content in
    let query_lower := lower query in
    let query_words := score_query_words query_lower in
    if is_empty query_words then
      inr (if 200 <? len content then 20 else 0)
    else
      let '(score, matched_words) :=
        fold_left (score_word content_lower) query_words (0, 0) in
      match ratio_bonus matched_words (len query_words) with
      | inl e => inl e
      | inr bonus =>
          let score := score + bonus in
          let score := score + richness_bonus content in
          inr (Z.min score 100)
      end.

(* ===================================================================== *)
(** * The libraries, as oracles *)
(* ===================================================================== *)

(** What the extractor reads from a parsed HTML document
    ([BeautifulSoup(resp.text, "html.parser")]). *)
Record Soup := {
  (** [_extract_text(soup)]: the visible text of the content elements *)
  soup_text : pystr;
  (** [link["href"]] for each link of [soup.find_all("a", href=True)] when
      [_extract_file_links] runs, that is once [_extract_text] has removed
      the script, style, noscript, footer, nav and aside elements *)
  soup_hrefs : list pystr;
  (** what [_extract_file_links(soup, base_url)] returns when it returns:
      it ends with [list(set(...))], so the order is the library's *)
  soup_file_links : list pystr;
  (** [tag.get('href') or tag.get('src') or tag.get('data')] for each tag of
      [soup.find_all(['a', 'embed', 'iframe', 'object'])], when the page
      extractor looks for them; empty when the tag has none *)
  soup_refs : list pystr;
  (** [(link["href"], link.get_text())] for each link of
      [soup.find_all("a", href=True)] in a document parsed afresh, as link
      discovery does *)
  soup_anchors : list (pystr * pystr)
}.

(** A response whose status is not an error. *)
Record Response := {
  (** [resp.headers.get("Content-Type", "")] *)
  resp_content_type : pystr;
  resp_soup : Soup;
  (** [resp.content] *)
  resp_content : pystr
}.

Record World := {
  (** [session.get(url, ...)] followed by [raise_for_status()], for the
      n-th request of the session; [None] when either raises *)
  http_get : nat -> pystr -> option Response;
  (** [urllib.parse.urljoin]; [None] when it raises [ValueError], as it
      does on a malformed URL (an IPv6 host without its closing bracket) *)
  urljoin : pystr -> pystr -> option pystr;
  (** [urlparse(u).netloc]; [None] when [urlparse] raises [ValueError] *)
  netloc : pystr -> option pystr;
  (** the name [tempfile.NamedTemporaryFile] gives the n-th temporary file *)
  mktemp : nat -> pystr;
  (** pdfminer's [extract_pages] with the layout parameters of strategy 1,
      followed by the grouping of the text boxes of each page into rows by
      their vertical position (top to bottom) and the ordering of each row
      from left to right: for each page, its rows, each row the stripped,
      non-empty texts of its boxes. A page without text box has no row.
      [None] when pdfminer raises. *)
  pdf_rows : pystr -> option (list (list (list pystr)));
  (** pdfminer's [extract_text]; [None] when it raises *)
  pdf_plain_text : pystr -> option pystr;
  (** pdfminer's [extract_pages] with the layout parameters of strategy 3:
      for each page, the concatenation of its [LTChar] and [LTAnno] texts;
      [None] when pdfminer raises *)
  pdf_chars : pystr -> option (list pystr)
}.

(* ===================================================================== *)
(** * State of the extractor *)
(* ===================================================================== *)

(** Who asks for a URL. *)
Inductive origin :=
  | PageFetch        (* _extract_single_page *)
  | LinkDiscovery    (* _get_scored_internal_links *)
  | PdfDownload.     (* _extract_pdf_from_url_advanced *)

(** The calls the extractor makes to the outside, oldest first. *)
Inductive event :=
  | EGet (o : origin) (url : pystr)
  | ETmpWrite (path : pystr)
  | EStrategy (n : nat) (path : pystr)
  | ERemove (path : pystr).

Global Instance origin_eq_dec : EqDecision origin.
Proof. solve_decision. Defined.
Global Instance event_eq_dec : EqDecision event.
Proof. solve_decision. Defined.

Record State := {
  visited_urls : gset pystr;
  pdf_links : list pystr;
  (** the temporary files on disk: path and content *)
  disk : gmap pystr pystr;
  log : list event
}.

Definition is_get (e : event) : bool :=
  match e with EGet _ _ => true | _ => false end.
Definition is_tmp_write (e : event) : bool :=
  match e with ETmpWrite _ => true | _ => false end.

Definition request_count (l : list event) : nat := length (List.filter is_get l).
Definition tmp_count (l : list event) : nat := length (List.filter is_tmp_write l).

Definition emit (e : event) (st : State) : State :=
  {| visited_urls := visited_urls st; pdf_links := pdf_links st;
     disk := disk st; log := log st ++ [e] |}.

Definition set_visited (v : gset pystr) (st : State) : State :=
  {| visited_urls := v; pdf_links := pdf_links st;
     disk := disk st; log := log st |}.

Definition set_pdf_links (l : list pystr) (st : State) : State :=
  {| visited_urls := visited_urls st; pdf_links := l;
     disk := disk st; log := log st |}.

Definition set_disk (d : gmap pystr pystr) (st : State) : State :=
  {| visited_urls := visited_urls st; pdf_links := pdf_links st;
     disk := d; log := log st |}.

(** Exceptions that leave a method of the extractor. *)
Inductive exn :=
  | IndexError
  | ValueError
  | FloatError (e : PyFloat.float_error).

(** A [for] loop whose body may raise: the first exception ends it. *)
Fixpoint for_each {A B : Type} (body : A -> B -> exn + A) (l : list B) (acc : A)
    : exn + A :=
  match l with
  | [] => inr acc
  | x :: rest =>
      match body acc x with
      | inl e => inl e
      | inr acc => for_each body rest acc
      end
  end.

(* ===================================================================== *)
(** * Text cleaning shared by the PDF strategies *)
(* ===================================================================== *)

(** [re.sub] of a pattern [[class]+] or [c{n,}]: every maximal run of
    characters of the class, of length [n], is replaced by [f n]. *)
Fixpoint collapse_runs (p : N -> bool) (f : nat -> pystr) (run : nat)
    (s : pystr) : pystr :=
  match s with
  | [] => match run with O => [] | _ => f run end
  | c :: r =>
      if p c then collapse_runs p f (S run) r
      else match run with O => [] | _ => f run end
           ++ c :: collapse_runs p f 0 r
  end.

(** The class [[\x00-\x08\x0b\x0c\x0e-\x1f\x7f]]. *)
Definition is_control (c : N) : bool :=
  ((c <=? 8) || (c =? 11) || (c =? 12) || (14 <=? c) && (c <=? 31)
   || (c =? 127))%N.

Definition is_blank (c : N) : bool := ((c =? 32) || (c =? 9))%N.

Definition _clean_pdf_text (text : pystr) : pystr :=
  let text := List.filter (fun c => negb (is_control c)) text in
  let text := collapse_runs is_blank (fun _ => [SPACE]) 0 text in
  let text :=
    collapse_runs (N.eqb NL)
      (fun n => if (3 <=? n)%nat then [NL; NL] else repeat_char NL n) 0 text in
  let lines := map strip (split_on NL text) in
  let text := join [NL] lines in
  strip text.

(** The class [[\s|_\-=]]. *)
Definition is_separator (c : N) : bool :=
  (is_space c || (c =? 124) || (c =? 95) || (c =? 45) || (c =? 61))%N.

Definition _clean_schedule_row (row : pystr) : pystr :=
  let row := strip (collapse_runs is_space (fun _ => [SPACE]) 0 row) in
  if negb (is_empty row) && forallb is_separator row then []
  else if len row <? 3 then []
  else row.

(* ===================================================================== *)
(** * PdfExtractor: the three strategies *)
(* ===================================================================== *)

Definition rule60 : pystr := repeat_char 61%N 60.

(** [f"{'='*60}\n📄 PAGE {page_num}\n{'='*60}\n"] *)
Definition page_header (page_num : nat) : pystr :=
  rule60 ++ [NL] ++ [128196%N] ++ lit " PAGE " ++ str_of_nat page_num
  ++ [NL] ++ rule60 ++ [NL].

(** [f"{'='*60}\n📄 PAGE {page_num}\n{'='*60}\n⚠️ [Page vide ou image]\n"] *)
Definition empty_page_block (page_num : nat) : pystr :=
  page_header page_num ++ [9888%N; 65039%N] ++ lit " [Page vide ou image]" ++ [NL].

Definition page_block (page_num : nat) (page_text : pystr) : pystr :=
  page_header page_num ++ page_text ++ [NL].

Definition jours : list pystr :=
  [lit "lundi"; lit "mardi"; lit "mercredi"; lit "jeudi"; lit "vendredi";
   lit "samedi"; lit "dimanche"; lit "monday"; lit "tuesday"; lit "wednesday";
   lit "thursday"; lit "friday"; lit "saturday"; lit "sunday"].

(** [str.upper] on one character, for ASCII and Latin-1 small letters that
    have a capital below U+0100. *)
Definition upper_char (c : N) : N :=
  (if (97 <=? c) && (c <=? 122) then c - 32
   else if (224 <=? c) && (c <=? 254) && negb (c =? 247) then c - 32
   else c)%N.

Definition upper (s : pystr) : pystr := map upper_char s.

(** [s.capitalize()] *)
Definition capitalize (s : pystr) : pystr :=
  match s with
  | [] => []
  | c :: r => upper_char c :: lower r
  end.

(** The first day name found in the row, capitalized. *)
Definition detect_day (row_lower : pystr) : option pystr :=
  match List.find (fun jour => contains jour row_lower) jours with
  | Some jour => Some (capitalize jour)
  | None => None
  end.

(** One turn of the loop over the rows of a page; the accumulator is
    [(formatted_content, current_day)]. *)
Definition format_row (acc : list pystr * option pystr) (row : list pystr)
    : list pystr * option pystr :=
  let '(formatted_content, current_day) := acc in
  let row_texts := map (fun t => strip (replace [NL] [SPACE] t)) row in
  let row_text := join (lit " | ") row_texts in
  let row_lower := lower row_text in
  let detected_day := detect_day row_lower in
  let '(formatted_content, current_day) :=
    match detected_day with
    | Some d =>
        if bool_decide (detected_day = current_day)
        then (formatted_content, current_day)
        else (formatted_content
                ++ [[NL; 128197%N; SPACE] ++ upper d; repeat_char 45%N 40],
              detected_day)
    | None => (formatted_content, current_day)
    end in
  let clean_row := _clean_schedule_row row_text in
  if is_empty clean_row then (formatted_content, current_day)
  else (formatted_content ++ [clean_row], current_day).

(** The text reconstructed for one page from its rows. *)
Definition strategy1_page_text (rows : list (list pystr)) : pystr :=
  join [NL] (fst (fold_left format_row rows ([], None))).

(** The block strategy 1 appends to [pages_content] for one page. *)
Definition strategy1_page (page_num : nat) (rows : list (list pystr)) : pystr :=
  if is_empty rows then empty_page_block page_num
  else
    let page_text := strategy1_page_text rows in
    if 10 <? len (strip page_text) then page_block page_num page_text
    else empty_page_block page_num.

(** [enumerate(l, start)] *)
Fixpoint enumerate {A} (start : nat) (l : list A) : list (nat * A) :=
  match l with
  | [] => []
  | x :: r => (start, x) :: enumerate (S start) r
  end.

Definition strategy1_pages (pages : list (list (list pystr))) : list pystr :=
  map (fun '(page_num, rows) => strategy1_page page_num rows) (enumerate 1 pages).

(** [[l[i:i+n] for i in range(0, len(l), n)]] for [n > 0]. *)
Fixpoint chunks {A} (fuel : nat) (n : nat) (l : list A) : list (list A) :=
  match fuel, l with
  | _, [] => []
  | O, _ => []
  | S f, _ => firstn n l :: chunks f n (skipn n l)
  end.

Definition strategy2_pages (full_text : pystr) : list pystr :=
  if is_empty full_text || (len (strip full_text) <? 20) then []
  else
    let clean_text := _clean_pdf_text full_text in
    let pages := split_on 12%N clean_text in
    let pages :=
      if len pages =? 1 then
        let lines := split_on NL clean_text in
        let chunk_size := Z.max 50 (len lines / 3) in
        map (join [NL]) (chunks (length lines) (Z.to_nat chunk_size) lines)
      else pages in
    flat_map (fun '(i, page) =>
                if is_empty (strip page) then []
                else [page_block i (strip page)])
             (enumerate 1 pages).

Definition strategy3_pages (pages : list pystr) : list pystr :=
  flat_map (fun '(page_num, page_text) =>
              if 10 <? len (strip page_text)
              then [page_block page_num (_clean_pdf_text page_text)]
              else [])
           (enumerate 1 pages).

(* ===================================================================== *)
(** * The methods of [WebExtractor] *)
(* ===================================================================== *)

Section Extractor.

Variable W : World.

(** [self.session.get(url, ...)] and [resp.raise_for_status()]. *)
Definition session_get (o : origin) (url : pystr) (st : State)
    : option Response * State :=
  (http_get W (request_count (log st)) url, emit (EGet o url) st).

(** ** PDF extraction *)

(** The three strategies read the temporary file; each call is logged.
    [None] stands for an exception. Strategy 2 catches its own. *)
Definition _extract_pdf_strategy1 (tmp_path : pystr) (st : State)
    : option (list pystr) * State :=
  let st := emit (EStrategy 1 tmp_path) st in
  match disk st !! tmp_path with
  | None => (None, st)
  | Some data =>
      match pdf_rows W data with
      | None => (None, st)
      | Some pages => (Some (strategy1_pages pages), st)
      end
  end.

Definition _extract_pdf_strategy2 (tmp_path : pystr) (st : State)
    : list pystr * State :=
  let st := emit (EStrategy 2 tmp_path) st in
  match disk st !! tmp_path with
  | None => ([], st)
  | Some data =>
      match pdf_plain_text W data with
      | None => ([], st)
      | Some full_text => (strategy2_pages full_text, st)
      end
  end.

Definition _extract_pdf_strategy3 (tmp_path : pystr) (st : State)
    : option (list pystr) * State :=
  let st := emit (EStrategy 3 tmp_path) st in
  match disk st !! tmp_path with
  | None => (None, st)
  | Some data =>
      match pdf_chars W data with
      | None => (None, st)
      | Some pages => (Some (strategy3_pages pages), st)
      end
  end.

(** [sum(len(p) for p in pages_content)] *)
Definition total_chars (pages_content : list pystr) : Z :=
  fold_right (fun p acc => len p + acc) 0 pages_content.

(** The message of the [except Exception] handler. *)
Definition pdf_failed_message (url : pystr) : pystr :=
  [10060%N] ++ lit " [PDF d" ++ [233%N] ++ lit "tect" ++ [233%N]
  ++ lit " mais extraction impossible : " ++ basename url ++ lit "]"
  ++ [NL; 128206%N] ++ lit " Lien direct: " ++ url.

Definition not_a_pdf_message (content_type : pystr) : pystr :=
  [10060%N] ++ lit " [Le lien ne pointe pas vers un PDF: " ++ content_type
  ++ lit "]".

Definition pdf_unextractable_message (url : pystr) : pystr :=
  [10060%N] ++ lit " [PDF d" ++ [233%N] ++ lit "tect" ++ [233%N]
  ++ lit " mais contenu non extractible (peut-" ++ [234%N] ++ lit "tre scann"
  ++ [233%N] ++ lit "/image) : " ++ basename url ++ lit "]"
  ++ [NL; 128206%N] ++ lit " Lien direct: " ++ url.

Definition pdf_document (url : pystr) (pages_content : list pystr) : pystr :=
  let total_pages := str_of_nat (length pages_content) in
  [128214%N] ++ lit " DOCUMENT PDF : " ++ basename url ++ [NL]
  ++ [128202%N] ++ lit " Nombre de pages : " ++ total_pages ++ [NL]
  ++ [128206%N] ++ lit " Lien direct: " ++ url ++ [NL; NL]
  ++ join [NL; NL] pages_content
  ++ [NL; NL] ++ rule60 ++ [NL]
  ++ [9989%N] ++ lit " FIN DU DOCUMENT (" ++ total_pages ++ lit " pages)" ++ [NL]
  ++ rule60 ++ [NL].

Definition _extract_pdf_from_url_advanced (url : pystr) (st : State)
    : pystr * State :=
  let '(resp, st) := session_get PdfDownload url st in
  match resp with
  | None => (pdf_failed_message url, st)
  | Some resp =>
      let content_type := lower (resp_content_type resp) in
      if negb (contains (lit "pdf") content_type)
         && negb (endswith (lit ".pdf") (lower url))
      then (not_a_pdf_message content_type, st)
      else
        (* NamedTemporaryFile(delete=False, suffix=".pdf") *)
        let tmp_path := mktemp W (tmp_count (log st)) in
        let st := emit (ETmpWrite tmp_path)
                    (set_disk (<[tmp_path := resp_content resp]> (disk st)) st) in
        let '(r1, st) := _extract_pdf_strategy1 tmp_path st in
        match r1 with
        | None => (pdf_failed_message url, st)
        | Some pages_content =>
            let '(pages_content, st) :=
              if total_chars pages_content <? 200
              then _extract_pdf_strategy2 tmp_path st
              else (pages_content, st) in
            let '(r3, st) :=
              if total_chars pages_content <? 200
              then _extract_pdf_strategy3 tmp_path st
              else (Some pages_content, st) in
            match r3 with
            | None => (pdf_failed_message url, st)
            | Some pages_content =>
                (* os.remove(tmp_path) *)
                let st := emit (ERemove tmp_path)
                            (set_disk (delete tmp_path (disk st)) st) in
                if is_empty pages_content
                   || forallb (fun p => len (strip p) <? 20) pages_content
                then (pdf_unextractable_message url, st)
                else (pdf_document url pages_content, st)
            end
        end
  end.

(** ** One page *)

Definition add_pdf_link (link : pystr) (st : State) : State :=
  set_pdf_links (pdf_links st ++ [link]) st.

(** [_extract_file_links(soup, base_url)]: it joins the [href] of every
    anchor to [base_url] before it looks at it, outside any [try]. *)
Definition _extract_file_links (soup : Soup) (base_url : pystr)
    : exn + list pystr :=
  if forallb (fun href => bool_decide (is_Some (urljoin W base_url (strip href))))
       (soup_hrefs soup)
  then inr (soup_file_links soup)
  else inl ValueError.

(** One turn of the loop over the tags that may carry a PDF reference. *)
Definition add_pdf_ref (url : pystr) (file_links : list pystr) (href : pystr)
    : exn + list pystr :=
  if negb (is_empty href) && contains (lit ".pdf") (lower href) then
    match urljoin W url href with
    | None => inl ValueError
    | Some full_url =>
        if bool_decide (full_url ∈ file_links) then inr file_links
        else inr (file_links ++ [full_url])
    end
  else inr file_links.

Definition MAX_PDF_EXTRACT : Z := 3.

(** One turn of the loop over [file_links]; the accumulator is
    [(pdf_contents, pdf_extracted_count, state)]. *)
Definition scan_file_link (extract_pdf_content : bool)
    (acc : list pystr * Z * State) (link : pystr) : list pystr * Z * State :=
  let '(pdf_contents, pdf_extracted_count, st) := acc in
  if endswith (lit ".pdf") (lower link) && negb (bool_decide (link ∈ pdf_links st))
  then
    let st := add_pdf_link link st in
    if extract_pdf_content && (pdf_extracted_count <? MAX_PDF_EXTRACT) then
      let '(pdf_content, st) := _extract_pdf_from_url_advanced link st in
      if negb (is_empty pdf_content) && negb (contains [10060%N] pdf_content)
         && (100 <? len pdf_content)
      then (pdf_contents ++ [pdf_content], pdf_extracted_count + 1, st)
      else (pdf_contents, pdf_extracted_count, st)
    else (pdf_contents, pdf_extracted_count, st)
  else (pdf_contents, pdf_extracted_count, st).

Definition pdf_detected_message (url : pystr) : pystr :=
  lit "[PDF d" ++ [233%N] ++ lit "tect" ++ [233%N] ++ lit " : "
  ++ basename url ++ lit "]".

Definition _extract_single_page (url : pystr) (extract_pdf_content : bool)
    (st : State) : (exn + pystr) * State :=
  if bool_decide (url ∈ visited_urls st) then (inr [], st)
  else
    let st := set_visited ({[url]} ∪ visited_urls st) st in
    let '(resp, st) := session_get PageFetch url st in
    match resp with
    | None => (inr [], st)
    | Some resp =>
        let content_type := lower (resp_content_type resp) in
        if contains (lit "pdf") content_type || endswith (lit ".pdf") (lower url)
        then
          let st := if bool_decide (url ∈ pdf_links st) then st
                    else add_pdf_link url st in
          if extract_pdf_content then
            let '(document, st) := _extract_pdf_from_url_advanced url st in
            (inr document, st)
          else (inr (pdf_detected_message url), st)
        else
          let soup := resp_soup resp in
          let text := soup_text soup in
          match _extract_file_links soup url with
          | inl e => (inl e, st)
          | inr file_links =>
              match for_each (add_pdf_ref url) (soup_refs soup) file_links with
              | inl e => (inl e, st)
              | inr file_links =>
                  let '(pdf_contents, _, st) :=
                    fold_left (scan_file_link extract_pdf_content) file_links
                      ([], 0, st) in
                  if negb (is_empty pdf_contents) then
                    (inr (text ++ [NL; NL] ++ rule60 ++ [NL]
                            ++ [128196%N] ++ lit " CONTENU DES PDFs EXTRAITS" ++ [NL]
                            ++ rule60 ++ [NL; NL]
                            ++ join [NL; NL] pdf_contents), st)
                  else if extract_pdf_content && negb (is_empty (pdf_links st)) then
                    (inr (fold_left (fun text pdf_link =>
                                       text ++ [128206%N; SPACE] ++ pdf_link ++ [NL])
                            (pdf_links st)
                            (text ++ [NL; NL] ++ rule60 ++ [NL]
                               ++ [128206%N]
                               ++ lit " LIENS PDF DISPONIBLES (contenu non extrait)"
                               ++ [NL] ++ rule60 ++ [NL])), st)
                  else (inr text, st)
              end
          end
    end.

(** ** LinkScorer *)

Definition link_query_words (query : pystr) : list pystr :=
  map lower (List.filter (fun w => 2 <? len w) (split_ws query)).

Definition excluded_terms : list pystr :=
  [lit "login"; lit "contact"; lit "privacy"; lit "cookie"; lit "footer"].

Definition important_words : list pystr :=
  [lit "programme"; lit "stage"; lit "internship"; lit "procedure";
   lit "list"; lit "all"; lit "nos-"].

(** One turn of the loop over the query words. *)
Definition link_word_score (combined url_path : pystr) (score : Z)
    (word : pystr) : Z :=
  let score := if contains word combined then score + 30 else score in
  if contains word url_path then score + 20 else score.

(** One turn of the loop over the important words. *)
Definition link_bonus_score (combined : pystr) (score : Z) (iw : pystr) : Z :=
  if contains iw combined then score + 10 else score.

(** The score of a candidate from its anchor text and its URL, both
    lowered. *)
Definition link_score (query_words : list pystr) (link_text url_path : pystr) : Z :=
  let combined := link_text ++ [SPACE] ++ url_path in
  let score := fold_left (link_word_score combined url_path) query_words 0 in
  fold_left (link_bonus_score combined) important_words score.

(** [l[0]] of the result of a split. *)
Definition first_item (l : list pystr) : pystr := List.hd [] l.

(** One turn of the loop over the anchors; the accumulator is
    [(scored_links, seen_urls)]. *)
Definition score_anchor (base_url base_domain : pystr) (query_words : list pystr)
    (acc : list (pystr * Z) * gset pystr) (link : pystr * pystr)
    : exn + list (pystr * Z) * gset pystr :=
  let '(scored_links, seen_urls) := acc in
  let href := strip (fst link) in
  if startswith (lit "#") href || startswith (lit "mailto:") href
     || startswith (lit "javascript:") href
  then inr acc
  else
    match urljoin W base_url href with
    | None => inl ValueError
    | Some full_url =>
        match netloc W full_url with
        | None => inl ValueError
        | Some domain =>
            if negb (bool_decide (domain = base_domain)) then inr acc
            else
              let clean_url :=
                first_item (split_on 63%N (first_item (split_on 35%N full_url))) in
              if bool_decide (clean_url ∈ seen_urls)
                 || bool_decide (clean_url = base_url)
              then inr acc
              else
                let seen_urls := {[clean_url]} ∪ seen_urls in
                let url_lower := lower clean_url in
                if existsb (fun x => contains x url_lower) excluded_terms
                then inr (scored_links, seen_urls)
                else
                  let link_text := lower (strip (snd link)) in
                  let url_path :=
                    if contains (lit "/") url_lower
                    then last_item (split_on 47%N url_lower)
                    else url_lower in
                  let score := link_score query_words link_text url_path in
                  if 0 <? score
                  then inr (scored_links ++ [(clean_url, score)], seen_urls)
                  else inr (scored_links, seen_urls)
        end
    end.

(** [l.sort(key=lambda x: x[1], reverse=True)]: stable, by decreasing
    score. *)
Fixpoint insert_by_score (x : pystr * Z) (l : list (pystr * Z))
    : list (pystr * Z) :=
  match l with
  | [] => [x]
  | y :: r => if snd x <? snd y then y :: insert_by_score x r else x :: l
  end.

Definition sort_by_score (l : list (pystr * Z)) : list (pystr * Z) :=
  fold_right insert_by_score [] l.

Definition _get_scored_internal_links (base_url query : pystr) (st : State)
    : (exn + list (pystr * Z)) * State :=
  let '(resp, st) := session_get LinkDiscovery base_url st in
  match resp with
  | None => (inr [], st)
  | Some resp =>
      match netloc W base_url with
      | None => (inl ValueError, st)
      | Some base_domain =>
          let query_words := link_query_words query in
          match for_each (score_anchor base_url base_domain query_words)
                  (soup_anchors (resp_soup resp)) ([], ∅) with
          | inl e => (inl e, st)
          | inr (scored_links, _) => (inr (sort_by_score scored_links), st)
          end
      end
  end.

(** ** ResultFormatter *)

Definition source_marker : pystr := [128204%N] ++ lit " Source:".

(** One turn of the loop over the lines; the accumulator is
    [(cleaned_lines, seen_lines, last_was_empty)]. *)
Definition clean_line (acc : list pystr * gset pystr * bool) (line : pystr)
    : list pystr * gset pystr * bool :=
  let '(cleaned_lines, seen_lines, last_was_empty) := acc in
  let line_stripped := strip line in
  if startswith source_marker line_stripped then acc
  else if startswith (lit "===") line_stripped then acc
  else if is_empty line_stripped && last_was_empty then acc
  else
    let last_was_empty := is_empty line_stripped in
    if 50 <? len line_stripped then
      let key := lower (slice_to 100 line_stripped) in
      if bool_decide (key ∈ seen_lines)
      then (cleaned_lines, seen_lines, last_was_empty)
      else (cleaned_lines ++ [line], {[key]} ∪ seen_lines, last_was_empty)
    else (cleaned_lines ++ [line], seen_lines, last_was_empty).

(** [while '\n\n\n' in result: result = result.replace('\n\n\n', '\n\n')];
    every turn shortens the string, so its length is enough fuel. *)
Fixpoint squeeze_newlines (fuel : nat) (result : pystr) : pystr :=
  if contains [NL; NL; NL] result then
    match fuel with
    | O => result
    | S f => squeeze_newlines f (replace [NL; NL; NL] [NL; NL] result)
    end
  else result.

Definition _clean_content (content : pystr) : pystr :=
  if is_empty content then []
  else
    let lines := split_on NL content in
    let cleaned_lines := fst (fst (fold_left clean_line lines ([], ∅, false))) in
    let result := join [NL] cleaned_lines in
    strip (squeeze_newlines (length result) result).

Definition no_content_message (url : pystr) : pystr :=
  [10060%N] ++ lit " Aucun contenu trouv" ++ [233%N; NL; 128204%N]
  ++ lit " URL: " ++ url.

Definition truncation_marker : pystr :=
  [NL; NL] ++ lit "[...contenu tronqu" ++ [233%N] ++ lit "]".

Definition _format_result (st : State) (content url : pystr) (score : Z) : pystr :=
  if is_empty content then no_content_message url
  else
    let content := _clean_content content in
    let content :=
      if 6000 <? len content then slice_to 6000 content ++ truncation_marker
      else content in
    let result := content ++ [NL; NL; 128204%N] ++ lit " Source: " ++ url in
    if negb (is_empty (pdf_links st)) then
      let unique_pdfs := firstn 3 (dedup_keep_first [] (pdf_links st)) in
      if negb (is_empty unique_pdfs) then
        result ++ [NL; 128206%N] ++ lit " PDFs: "
        ++ join (lit ", ") (map basename unique_pdfs)
      else result
    else result.

(** ** CrawlController *)

(** The running best of the exploration loop and its page counter. *)
Record Best := {
  best_content : pystr;
  best_score : Z;
  best_url : pystr;
  pages_explored : Z
}.

(** How one turn of the exploration loop ends. *)
Inductive turn :=
  | Next (b : Best) (st : State)        (* go on with the next candidate *)
  | Break (b : Best) (st : State)       (* break *)
  | Return (r : pystr) (st : State)     (* return r *)
  | Raise (e : exn) (st : State).

(** [page_url.split('/')[-1][:30] or page_url.split('/')[-2][:30]], which is
    only printed: [None] when the index [-2] does not exist. *)
Definition page_name (page_url : pystr) : option pystr :=
  let segments := split_on 47%N page_url in
  let name := slice_to 30 (last_item segments) in
  if negb (is_empty name) then Some name
  else
    match rev segments with
    | _ :: before_last :: _ => Some (slice_to 30 before_last)
    | _ => None
    end.

Definition explore_page (search_query : pystr) (extract_pdf_content : bool)
    (candidate : pystr * Z) (b : Best) (st : State) : turn :=
  let '(page_url, title_score) := candidate in
  if bool_decide (page_url ∈ visited_urls st) then Next b st
  else
    let pages_explored := pages_explored b + 1 in
    match page_name page_url with
    | None => Raise IndexError st
    | Some _ =>
        let '(page_content, st) :=
          _extract_single_page page_url extract_pdf_content st in
        let b := {| best_content := best_content b; best_score := best_score b;
                    best_url := best_url b; pages_explored := pages_explored |} in
        match page_content with
        | inl e => Raise e st
        | inr page_content =>
        if is_empty page_content then Next b st
        else
          match _semantic_match_score page_content search_query with
          | inl e => Raise (FloatError e) st
          | inr content_score =>
              let total_score := (title_score + content_score) / 2 in
              let b :=
                if best_score b <? total_score then
                  {| best_content := page_content; best_score := total_score;
                     best_url := page_url; pages_explored := pages_explored |}
                else b in
              if 70 <=? total_score then
                Return (_format_result st (best_content b) (best_url b)
                          (best_score b)) st
              else if (50 <=? best_score b) && (4 <=? pages_explored) then
                Break b st
              else Next b st
          end
        end
    end.

(** The [for] loop over the candidates: [Next] when it runs to its end. *)
Fixpoint explore (search_query : pystr) (extract_pdf_content : bool)
    (candidates : list (pystr * Z)) (b : Best) (st : State) : turn :=
  match candidates with
  | [] => Next b st
  | candidate :: rest =>
      match explore_page search_query extract_pdf_content candidate b st with
      | Next b st => explore search_query extract_pdf_content rest b st
      | stop => stop
      end
  end.

(** [" ".join(priority_keywords) if priority_keywords else ""] *)
Definition build_query (priority_keywords : option (list pystr)) : pystr :=
  match priority_keywords with
  | Some (k :: ks) => join [SPACE] (k :: ks)
  | _ => []
  end.

(** [self.visited_urls.clear(); self.pdf_links.clear()] *)
Definition reset (st : State) : State :=
  set_pdf_links [] (set_visited ∅ st).

Definition extract_site_content (url : pystr) (max_pages : Z) (deep_crawl : bool)
    (extract_pdf_content : bool) (priority_keywords : option (list pystr))
    (st : State) : (exn + pystr) * State :=
  let st := reset st in
  let search_query := build_query priority_keywords in
  let '(main_content, st) := _extract_single_page url extract_pdf_content st in
  match main_content with
  | inl e => (inl e, st)
  | inr main_content =>
  let fast :=
    if negb (is_empty main_content) then
      match _semantic_match_score main_content search_query with
      | inl e => Some (inl e)
      | inr match_score =>
          if 60 <=? match_score
          then Some (inr (_format_result st main_content url match_score))
          else None
      end
    else None in
  match fast with
  | Some (inl e) => (inl (FloatError e), st)
  | Some (inr r) => (inr r, st)
  | None =>
      if negb deep_crawl then (inr (_format_result st main_content url 0), st)
      else
        let '(internal_links, st) := _get_scored_internal_links url search_query st in
        match internal_links with
        | inl e => (inl e, st)
        | inr internal_links =>
        if is_empty internal_links
        then (inr (_format_result st main_content url 0), st)
        else
          match (if negb (is_empty main_content)
                 then _semantic_match_score main_content search_query
                 else inr 0) with
          | inl e => (inl (FloatError e), st)
          | inr score0 =>
              match explore search_query extract_pdf_content
                      (slice_to max_pages internal_links)
                      {| best_content := main_content; best_score := score0;
                         best_url := url; pages_explored := 1 |}
                      st with
              | Next b st | Break b st =>
                  (inr (_format_result st (best_content b) (best_url b)
                          (best_score b)), st)
              | Return r st => (inr r, st)
              | Raise e st => (inl e, st)
              end
          end
        end
  end
  end.

End Extractor.

(** The state a turn of the exploration loop ends in. *)
Definition turn_state (r : turn) : State :=
  match r with
  | Next _ st | Break _ st | Return _ st | Raise _ st => st
  end.

(** ** Counting requests in a log *)

(** Requests for [u] made by [o]. *)
Definition requests_by (o : origin) (u : pystr) (l : list event) : nat :=
  length (List.filter (fun e => bool_decide (e = EGet o u)) l).

(** Requests for [u], whoever makes them. *)
Definition requests_to (u : pystr) (l : list event) : nat :=
  length (List.filter (fun e => match e with
                           | EGet _ u' => bool_decide (u' = u)
                           | _ => false
                           end) l).

(** Calls of strategy [n] on the file [path]. *)
Definition strategy_calls (n : nat) (path : pystr) (l : list event) : nat :=
  length (List.filter (fun e => bool_decide (e = EStrategy n path)) l).

(* ===================================================================== *)
(** * Example worlds *)
(* ===================================================================== *)

Module Examples.

Definition st_init : State :=
  {| visited_urls := ∅; pdf_links := []; disk := ∅; log := [] |}.

Definition empty_soup : Soup :=
  {| soup_text := []; soup_hrefs := []; soup_file_links := []; soup_refs := [];
     soup_anchors := [] |}.

Definition html_page (text : pystr) (anchors : list (pystr * pystr)) : Response :=
  {| resp_content_type := lit "text/html; charset=utf-8";
     resp_soup := {| soup_text := text; soup_hrefs := map fst anchors;
                     soup_file_links := []; soup_refs := [];
                     soup_anchors := anchors |};
     resp_content := [] |}.

Definition no_pdf (data : pystr) : option (list (list (list pystr))) := None.

(** A page of 600 characters with five times Mitacs and twice stage. *)
Definition rich_page : pystr :=
  concat (List.repeat (lit "Mitacs ") 5) ++ concat (List.repeat (lit "stage ") 2)
  ++ repeat_char 120%N 553.

Definition site : pystr := lit "http://a.com".
Definition keywords : option (list pystr) := Some [lit "stage"; lit "mitacs"].

(** A site whose start page answers the query. *)
Definition W_fast : World :=
  {| http_get := fun _ _ => Some (html_page rich_page [(lit "/stage", lit "Stages")]);
     urljoin := fun base href => Some (base ++ href);
     netloc := fun _ => Some (lit "a.com");
     mktemp := fun n => lit "/tmp/tmp" ++ str_of_nat n ++ lit ".pdf";
     pdf_rows := no_pdf;
     pdf_plain_text := fun _ => None;
     pdf_chars := fun _ => None |}.

(** A site whose start page says little and links to three pages: the
    first cannot be reached, the second answers the query. *)
Definition page_A : pystr := lit "http://a.com/stage-mitacs-all".
Definition page_B : pystr := lit "http://a.com/stage-mitacs".
Definition page_C : pystr := lit "http://a.com/stage".

Definition W_deep : World :=
  {| http_get := fun _ u =>
       if bool_decide (u = site) then
         Some (html_page (lit "Bienvenue")
                 [(lit "/stage", lit "Offres");
                  (lit "/stage-mitacs", lit "Mitacs");
                  (lit "/stage-mitacs-all", lit "Tout")])
       else if bool_decide (u = page_B) then Some (html_page rich_page [])
       else None;
     urljoin := fun base href => Some (base ++ href);
     netloc := fun _ => Some (lit "a.com");
     mktemp := fun n => lit "/tmp/tmp" ++ str_of_nat n ++ lit ".pdf";
     pdf_rows := no_pdf;
     pdf_plain_text := fun _ => None;
     pdf_chars := fun _ => None |}.

(** A site that cannot be reached. *)
Definition W_down : World :=
  {| http_get := fun _ _ => None;
     urljoin := fun base href => Some (base ++ href);
     netloc := fun _ => Some (lit "a.com");
     mktemp := fun n => lit "/tmp/tmp" ++ str_of_nat n ++ lit ".pdf";
     pdf_rows := no_pdf;
     pdf_plain_text := fun _ => None;
     pdf_chars := fun _ => None |}.




(** A PDF of three pages whose text boxes hold 50, 80 and 5 characters. *)
Definition pdf_url : pystr := lit "http://a.com/doc.pdf".

Definition pdf_response : Response :=
  {| resp_content_type := lit "application/pdf";
     resp_soup := empty_soup;
     resp_content := lit "%PDF-1.4" |}.

Definition three_pages : list (list (list pystr)) :=
  [[[repeat_char 97%N 50]]; [[repeat_char 98%N 80]]; [[repeat_char 99%N 5]]].

Definition W_pdf3 : World :=
  {| http_get := fun _ _ => Some pdf_response;
     urljoin := fun base href => Some (base ++ href);
     netloc := fun _ => Some (lit "a.com");
     mktemp := fun n => lit "/tmp/tmp" ++ str_of_nat n ++ lit ".pdf";
     pdf_rows := fun _ => Some three_pages;
     pdf_plain_text := fun _ => Some (repeat_char 97%N 50 ++ repeat_char 98%N 80
                                      ++ repeat_char 99%N 5);
     pdf_chars := fun _ => Some [repeat_char 97%N 50; repeat_char 98%N 80;
                                 repeat_char 99%N 5] |}.

(** A download that pdfminer cannot parse. *)
Definition W_broken_pdf : World :=
  {| http_get := fun _ _ => Some pdf_response;
     urljoin := fun base href => Some (base ++ href);
     netloc := fun _ => Some (lit "a.com");
     mktemp := fun n => lit "/tmp/tmp" ++ str_of_nat n ++ lit ".pdf";
     pdf_rows := fun _ => None;
     pdf_plain_text := fun _ => None;
     pdf_chars := fun _ => None |}.

End Examples.

(** The states the crawl of [W_deep] goes through: after the start page,
    after link discovery, after the first candidate, after the second. *)
Module DeepCrawl.
Import Examples.

Definition query : pystr := build_query keywords.

Definition st1 : State :=
  snd (_extract_single_page W_deep site false (reset st_init)).

Definition st2 : State :=
  snd (_get_scored_internal_links W_deep site query st1).

Definition start_best : Best :=
  {| best_content := lit "Bienvenue"; best_score := 0;
     best_url := site; pages_explored := 1 |}.

Definition st3 : State :=
  turn_state (explore W_deep query false [(page_A, 120)] start_best st2).

Definition st4 : State :=
  snd (_extract_single_page W_deep page_B false st3).

End DeepCrawl.

(** A PDF of one page with a short line of text. *)
Module ShortPdf.

Definition one_page : list (list (list pystr)) := [[[lit "Horaire du lundi"]]].

Definition W : World :=
  {| http_get := fun _ _ => Some Examples.pdf_response;
     urljoin := fun base href => Some (base ++ href);
     netloc := fun _ => Some (lit "a.com");
     mktemp := fun n => lit "/tmp/tmp" ++ str_of_nat n ++ lit ".pdf";
     pdf_rows := fun _ => Some one_page;
     pdf_plain_text := fun _ => Some (lit "Horaire du lundi");
     pdf_chars := fun _ => Some [lit "Horaire du lundi"] |}.

End ShortPdf.

(** ** Vocabulary of the properties *)

(** Requests made by the crawl itself: page fetches and link discovery. *)
Definition is_crawl_get (e : event) : bool :=
  match e with
  | EGet PageFetch _ | EGet LinkDiscovery _ => true
  | _ => false
  end.

(** Requests of link discovery. *)
Definition is_link_get (e : event) : bool :=
  match e with EGet LinkDiscovery _ => true | _ => false end.

(** Events that are no request of the crawl itself. *)
Definition quiet (new : list event) : Prop :=
  Forall (fun e => is_crawl_get e = false) new.

(** [st'] is [st] after events that are no request of the crawl, with the
    same visited set. *)
Definition quiet_step (st st' : State) : Prop :=
  visited_urls st' = visited_urls st /\
  exists new, log st' = log st ++ new /\ quiet new.

(** Page requests since the log [l0]: at most one per URL, and only for
    visited URLs. *)
Definition page_inv (l0 : list event) (st : State) : Prop :=
  forall u,
    (requests_by PageFetch u (log st)
     <= requests_by PageFetch u l0
        + (if bool_decide (u ∈ visited_urls st) then 1 else 0))%nat.

(** Same requests of link discovery in both states. *)
Definition same_link_requests (st st' : State) : Prop :=
  forall u, requests_by LinkDiscovery u (log st')
            = requests_by LinkDiscovery u (log st).

(** Decreasing scores: an item has at least the score of those after. *)
Definition by_decreasing_score (a b : pystr * Z) : Prop := snd b <= snd a.

(** [full_url.split("#")[0].split("?")[0]] *)
Definition clean_link (full_url : pystr) : pystr :=
  first_item (split_on 63%N (first_item (split_on 35%N full_url))).

(** What the link scorer checks of a candidate before it keeps it. *)
Definition kept_link (W : World) (base_url : pystr) (anchors : list (pystr * pystr))
    (candidate : pystr * Z) : Prop :=
  0 < snd candidate
  /\ fst candidate <> base_url
  /\ existsb (fun x => contains x (lower (fst candidate))) excluded_terms = false
  /\ exists link full_url domain,
       In link anchors
       /\ urljoin W base_url (strip (fst link)) = Some full_url
       /\ netloc W full_url = Some domain
       /\ netloc W base_url = Some domain
       /\ fst candidate = clean_link full_url.



(** Requests of the page extractor, for any URL. *)
Definition is_page_fetch (e : event) : bool :=
  match e with EGet PageFetch _ => true | _ => false end.

Definition page_fetches (l : list event) : nat :=
  length (List.filter is_page_fetch l).

(** The running best and the page counter a turn ends with, if it neither
    returns nor raises. *)
Definition turn_best (r : turn) : option Best :=
  match r with
  | Next b _ | Break b _ => Some b
  | _ => None
  end.

(** What the loop over the anchors keeps true of its accumulator: only
    checked candidates, each URL once, every kept URL among the seen. *)
Definition anchors_inv (W : World) (base_url : pystr)
    (all_anchors : list (pystr * pystr)) (acc : list (pystr * Z) * gset pystr)
    : Prop :=
  Forall (kept_link W base_url all_anchors) (fst acc)
  /\ NoDup (map fst (fst acc))
  /\ forall c, In c (fst acc) -> fst c ∈ snd acc.

(** ** Vocabulary of the cleaning loop *)

(** The lines the loop of [_clean_content] keeps. *)
Definition kept_lines (content : pystr) : list pystr :=
  fst (fst (fold_left clean_line (split_on NL content) ([], ∅, false))).

(** A source annotation or a divider, which the loop drops. *)
Definition is_annotation (line : pystr) : bool :=
  startswith source_marker (strip line) || startswith (lit "===") (strip line).

(** A line long enough to be compared with the lines seen. *)
Definition is_long (line : pystr) : bool := 50 <? len (strip line).

(** The key under which a long line is remembered. *)
Definition line_key (line : pystr) : pystr :=
  lower (slice_to 100 (strip line)).

(** A short line of text: neither blank, nor long, nor an annotation. *)
Definition is_short_text (line : pystr) : bool :=
  negb (is_annotation line) && negb (is_long line)
  && negb (is_empty (strip line)).

(** What follows the content in a formatted result. *)
Definition result_tail (st : State) (url : pystr) : pystr :=
  [NL; NL; 128204%N] ++ lit " Source: " ++ url
  ++ (if negb (is_empty (pdf_links st))
      then
        if negb (is_empty (firstn 3 (dedup_keep_first [] (pdf_links st))))
        then [NL; 128206%N] ++ lit " PDFs: "
             ++ join (lit ", ")
                  (map basename (firstn 3 (dedup_keep_first [] (pdf_links st))))
        else []
      else []).

(** A character that may stand in a cleaned PDF text: no control
    character, no tab. *)
Definition is_clean_char (c : N) : Prop := is_control c = false /\ c <> 9%N.

(** A text whose only white space is the ordinary space, never twice in a
    row; [after_space] tells whether the previous character was one. *)
Fixpoint single_spaced (after_space : bool) (s : pystr) : bool :=
  match s with
  | [] => true
  | c :: r =>
      if is_space c
      then (c =? SPACE)%N && negb after_space && single_spaced true r
      else single_spaced false r
  end.

(** A text of Latin-1 characters, on which [lower] is [str.lower]. *)
Definition latin1 (s : pystr) : bool := forallb (fun c => (c <? 256)%N) s.



(* ===================================================================== *)
(** * Properties *)
(* ===================================================================== *)

Module FloatFacts.
Import PyFloat.

Lemma digits2_pos_size p : digits2_pos p = Pos.size p.
Proof. induction p; simpl; congruence. Qed.

Lemma Zdigits2_le (m d : Z) : 0 <= m -> 0 <= d -> m < 2 ^ d -> Zdigits2 m <= d.
Proof.
  intros Hm Hd Hlt. destruct m as [|p|p]; simpl; try lia.
  rewrite digits2_pos_size.
  pose proof (Pos.size_le p) as Hs.
  apply Pos2Z.pos_le_pos in Hs. rewrite Pos2Z.inj_pow in Hs.
  change (Z.pos p~0) with (2 * Z.pos p) in Hs.
  assert (2 ^ Z.pos (Pos.size p) < 2 ^ (d + 1)) as Hp.
  { rewrite Z.pow_add_r, Z.pow_1_r by lia. lia. }
  apply Z.pow_lt_mono_r_iff in Hp; lia.
Qed.

Lemma shr_1_m r : 0 <= shr_m r -> shr_m (shr_1 r) = shr_m r / 2.
Proof.
  destruct r as [m rb sb]; simpl. intros Hm.
  destruct m as [|[p|p|]|p]; cbn [shr_m]; try lia; try done.
  - apply Z.div_unique with 1; lia.
  - apply Z.div_unique with 0; lia.
Qed.

Lemma pow2_xI p : 2 ^ Z.pos p~1 = 2 * (2 ^ Z.pos p * 2 ^ Z.pos p).
Proof.
  rewrite <- Z.pow_add_r by lia. rewrite <- (Z.pow_succ_r 2) by lia. f_equal. lia.
Qed.

Lemma pow2_xO p : 2 ^ Z.pos p~0 = 2 ^ Z.pos p * 2 ^ Z.pos p.
Proof.
  rewrite <- Z.pow_add_r by lia. f_equal. lia.
Qed.

Lemma iter_shr_1_m p : forall r, 0 <= shr_m r ->
  shr_m (SpecFloat.iter_pos shr_1 p r) = shr_m r / 2 ^ Z.pos p.
Proof.
  induction p as [p IH|p IH|]; intros r Hr; simpl.
  - assert (0 <= shr_m (shr_1 r)) as H1 by (rewrite shr_1_m by done; apply Z.div_pos; lia).
    assert (0 <= shr_m (SpecFloat.iter_pos shr_1 p (shr_1 r))) as H2
      by (rewrite IH by done; apply Z.div_pos; lia).
    rewrite IH, IH, shr_1_m by done.
    rewrite !Z.div_div by lia. f_equal. symmetry. apply pow2_xI.
  - assert (0 <= shr_m (SpecFloat.iter_pos shr_1 p r)) as H2
      by (rewrite IH by done; apply Z.div_pos; lia).
    rewrite IH, IH by done.
    rewrite !Z.div_div by lia. f_equal. symmetry. apply pow2_xO.
  - rewrite shr_1_m by done. done.
Qed.

(** Shifting by [shr]: the mantissa is divided, the exponent raised. *)
Lemma shr_spec r e n :
  0 <= shr_m r ->
  let '(r', e') := shr r e n in
  e' = e + Z.max n 0 /\ shr_m r' = shr_m r / 2 ^ (Z.max n 0).
Proof.
  intros Hr. destruct n as [|p|p]; simpl.
  - split; [lia | by rewrite Z.div_1_r].
  - split; [lia | by apply iter_shr_1_m].
  - split; [lia | by rewrite Z.div_1_r].
Qed.

Lemma shr_record_of_loc_m m l : shr_m (shr_record_of_loc m l) = m.
Proof. by destruct l as [|[]]. Qed.

Lemma round_nearest_even_bounds m l :
  m <= round_nearest_even m l <= m + 1.
Proof. destruct l as [|[]]; simpl; try lia. destruct (Z.even m); lia. Qed.

Lemma fexp_le k e : e <= k -> fexp prec emax e <= Z.max (k - prec) (emin prec emax).
Proof. unfold fexp. lia. Qed.

(** [shr_fexp] on a mantissa below [2 ^ (k - e)]. *)
Lemma shr_fexp_spec m e l k :
  0 <= m -> e <= k -> m < 2 ^ (k - e) -> emin prec emax <= k ->
  let '(r', e') := shr_fexp prec emax m e l in
  e <= e' /\ e' <= Z.max e (Z.max (k - prec) (emin prec emax)) /\ 0 <= shr_m r' /\ shr_m r' < 2 ^ (k - e').
Proof.
  intros Hm Hek Hlt Hemin. unfold shr_fexp.
  pose proof (shr_spec (shr_record_of_loc m l) e
                (fexp prec emax (Zdigits2 m + e) - e)) as Hs.
  rewrite shr_record_of_loc_m in Hs. specialize (Hs Hm).
  destruct (shr _ _ _) as [r' e']. destruct Hs as [-> ->].
  assert (Zdigits2 m + e <= k) as Hd.
  { pose proof (Zdigits2_le m (k - e) Hm ltac:(lia) Hlt). lia. }
  pose proof (fexp_le k _ Hd) as Hf.
  set (n := Z.max (fexp prec emax (Zdigits2 m + e) - e) 0) in *.
  assert (0 <= n /\ e + n <= k) as [Hn Hk] by (subst n; unfold prec in *; lia).
  assert (e + n <= Z.max e (Z.max (k - prec) (emin prec emax))) by (subst n; lia).
  clearbody n.
  split; [lia|]. split; [lia|]. split; [apply Z.div_pos; lia|].
  apply Z.div_lt_upper_bound; [lia|].
  rewrite <- Z.pow_add_r by lia. by replace (n + (k - (e + n))) with (k - e) by lia.
Qed.

(** Rounding a non-negative mantissa below [2 ^ (k - e)]: the result is a
    zero or a finite float of the same sign, below [2 ^ (k + 1)]. *)
Lemma binary_round_aux_finite sx mx ex lx k :
  0 <= mx -> ex <= k -> mx < 2 ^ (k - ex) ->
  ex <= emax - prec -> emin prec emax <= k -> k + 1 <= emax ->
  binary_round_aux prec emax sx mx ex lx = S754_zero sx \/
  exists m e, binary_round_aux prec emax sx mx ex lx = S754_finite sx m e /\
              e <= k + 1 /\ Z.pos m < 2 ^ (k + 1 - e).
Proof.
  intros Hm Hek Hlt Hex Hemin Hk. unfold binary_round_aux.
  pose proof (shr_fexp_spec mx ex lx k Hm Hek Hlt Hemin) as H1.
  destruct (shr_fexp prec emax mx ex lx) as [r1 e1].
  destruct H1 as (He1 & He1' & Hr1 & Hr1').
  pose proof (round_nearest_even_bounds (shr_m r1) (loc_of_shr_record r1)) as Hrne.
  set (mr := round_nearest_even (shr_m r1) (loc_of_shr_record r1)) in *.
  clearbody mr.
  assert (e1 <= k) as He1k by (unfold prec, emax in *; lia).
  assert (mr < 2 ^ (k + 1 - e1)) as Hmr.
  { replace (k + 1 - e1) with (1 + (k - e1)) by lia.
    rewrite Z.pow_add_r, Z.pow_1_r by lia.
    assert (0 < 2 ^ (k - e1)) by (apply Z.pow_pos_nonneg; lia). lia. }
  pose proof (shr_fexp_spec mr e1 loc_Exact (k + 1) ltac:(lia) ltac:(lia) Hmr ltac:(lia)) as H2.
  destruct (shr_fexp prec emax mr e1 loc_Exact) as [r2 e2].
  destruct H2 as (He2 & He2' & Hr2 & Hr2').
  destruct (shr_m r2) as [|m2|m2] eqn:Em2; [by left| |lia].
  assert (e2 <= k + 1) as He2k.
  { destruct (Z.le_gt_cases e2 (k + 1)) as [|Hgt]; [done|].
    rewrite Z.pow_neg_r in Hr2' by lia. lia. }
  assert ((e2 <=? emax - prec) = true) as ->.
  { apply Z.leb_le. unfold prec, emax, emin in *. lia. }
  right. exists m2, e2. done.
Qed.

(** The quotient computed for [a / b] with [0 < a <= b] is below
    [2 ^ (1 - e)]. *)
Lemma div_core_bounds (a b : positive) :
  (a <= b)%positive ->
  let '(q, e, _) := SFdiv_core_binary prec emax (Z.pos a) 0 (Z.pos b) 0 in
  0 <= q /\ e <= 0 /\ q < 2 ^ (1 - e).
Proof.
  intros Hab. unfold SFdiv_core_binary.
  set (e' := Z.min _ (0 - 0)).
  assert (e' <= 0) as He' by (subst e'; lia). clearbody e'.
  set (m' := match 0 - 0 - e' with 0 => Z.pos a | Z.pos _ => _ | Z.neg _ => 0 end).
  assert (m' = Z.pos a * 2 ^ (- e')) as Hm'.
  { subst m'. replace (0 - 0 - e') with (- e') by lia.
    destruct (- e') as [|s|s] eqn:Es; [lia| |lia].
    by rewrite Z.shiftl_mul_pow2 by lia. }
  clearbody m'.
  pose proof (Z_div_mod m' (Z.pos b) ltac:(lia)) as Hdm.
  destruct (Z.div_eucl m' (Z.pos b)) as [q r]. destruct Hdm as [Hq Hr].
  assert (0 < 2 ^ (- e')) as Hp by (apply Z.pow_pos_nonneg; lia).
  assert (0 <= q) by nia.
  split; [done|]. split; [done|].
  replace (1 - e') with (1 + - e') by lia.
  rewrite Z.pow_add_r, Z.pow_1_r by lia.
  apply Pos2Z.pos_le_pos in Hab. nia.
Qed.

Lemma ratio_bonus_defined (matched n : Z) :
  0 <= matched <= n -> 0 < n ->
  exists bonus, ratio_bonus matched n = inr bonus /\ 0 <= bonus.
Proof.
  intros Hm Hn. unfold ratio_bonus, truediv.
  destruct n as [|b|b]; [lia| |lia].
  destruct matched as [|a|a]; [by exists 0| |lia].
  change (Z.abs (Z.pos a)) with (Z.pos a). change (Z.abs (Z.pos b)) with (Z.pos b).
  change (xorb (Z.pos a <? 0) (Z.pos b <? 0)) with false.
  pose proof (div_core_bounds a b ltac:(lia)) as Hd.
  destruct (SFdiv_core_binary prec emax (Z.pos a) 0 (Z.pos b) 0) as [[q e] l].
  destruct Hd as (Hq & He & Hlt).
  destruct (binary_round_aux_finite false q e l 1) as [-> | (m & e1 & -> & He1 & Hm1)];
    try done; try (unfold prec, emax, emin; lia).
  { by exists 0. }
  change (of_int 30) with (S754_finite false 8444249301319680 (-48)).
  unfold mul, SFmul. cbn [xorb].
  destruct (binary_round_aux_finite false (Z.pos (m * 8444249301319680)) (e1 + -48)
              loc_Exact 7) as [-> | (m2 & e2 & -> & He2 & Hm2)];
    try done; try (unfold prec, emax, emin; lia).
  { rewrite Pos2Z.inj_mul.
    replace (7 - (e1 + -48)) with ((1 + 1 - e1) + 53) by lia.
    rewrite Z.pow_add_r by lia.
    assert (8444249301319680 < 2 ^ 53) by done. nia. }
  { by exists 0. }
  eexists. split; [done|]. cbn [cond_Zopp]. by apply Z.shiftl_nonneg.
Qed.

End FloatFacts.

(* --------------------------------------------------------------------- *)
(** ** ContentScorer *)
(* --------------------------------------------------------------------- *)

Lemma count_nonneg w s : 0 <= count w s.
Proof. unfold count, len. destruct (is_empty w); lia. Qed.

(** The loop over the query words keeps the score non-negative and counts
    at most one match per word. *)
Lemma score_words_bounds content_lower words : forall score matched,
  0 <= score -> 0 <= matched ->
  let '(score', matched') :=
    fold_left (score_word content_lower) words (score, matched) in
  0 <= score' /\ 0 <= matched' <= matched + len words.
Proof.
  induction words as [|w words IH]; intros score matched Hs Hm.
  - simpl. unfold len. simpl. lia.
  - cbn [fold_left]. unfold score_word at 2. cbn [fst snd].
    pose proof (count_nonneg w content_lower) as Hc.
    destruct (0 <? count w content_lower) eqn:E.
    + specialize (IH (score + Z.min (count w content_lower * 8) 25) (matched + 1)
                    ltac:(lia) ltac:(lia)).
      destruct (fold_left _ _ _) as [s' m']. unfold len in *.
      rewrite length_cons. lia.
    + specialize (IH score matched Hs Hm).
      destruct (fold_left _ _ _) as [s' m']. unfold len in *.
      rewrite length_cons. lia.
Qed.

Lemma richness_bonus_nonneg content : 0 <= richness_bonus content.
Proof. unfold richness_bonus. repeat case_match; lia. Qed.

(** The scorer raises no exception and its result is in [0, 100]. *)
Lemma semantic_match_score_bounds content query :
  exists s, _semantic_match_score content query = inr s /\ 0 <= s <= 100.
Proof.
  unfold _semantic_match_score.
  destruct (is_empty content || is_empty query).
  { eexists; split; [done|]. case_match; lia. }
  cbv zeta.
  remember (score_query_words (lower query)) as words eqn:Ew.
  destruct (is_empty words) eqn:Hne.
  { eexists; split; [done|]. case_match; lia. }
  assert (0 < len words) as Hlen.
  { unfold len. destruct words; [done|]. simpl. lia. }
  pose proof (score_words_bounds (lower content) words 0 0 ltac:(lia) ltac:(lia)) as Hb.
  destruct (fold_left _ _ _) as [score matched]. destruct Hb as [Hs Hm].
  destruct (FloatFacts.ratio_bonus_defined matched (len words) ltac:(lia) Hlen)
    as (bonus & -> & Hbonus).
  pose proof (richness_bonus_nonneg content).
  eexists; split; [done|]. lia.
Qed.

(* --------------------------------------------------------------------- *)
(** ** Effects of the methods on the state *)
(* --------------------------------------------------------------------- *)

Lemma quiet_app l1 l2 : quiet l1 -> quiet l2 -> quiet (l1 ++ l2).
Proof. unfold quiet. rewrite Forall_app. tauto. Qed.

Lemma quiet_step_refl st : quiet_step st st.
Proof. split; [done|]. exists []. rewrite app_nil_r. split; [done|constructor]. Qed.

Lemma quiet_step_trans st1 st2 st3 :
  quiet_step st1 st2 -> quiet_step st2 st3 -> quiet_step st1 st3.
Proof.
  intros [Hv1 (n1 & Hl1 & Hq1)] [Hv2 (n2 & Hl2 & Hq2)].
  split; [congruence|]. exists (n1 ++ n2).
  rewrite Hl2, Hl1, app_assoc. split; [done|]. by apply quiet_app.
Qed.

Lemma quiet_step_emit e st :
  is_crawl_get e = false -> quiet_step st (emit e st).
Proof. intros He. split; [done|]. exists [e]. split; [done|]. by constructor. Qed.

Lemma quiet_step_set_disk d st : quiet_step st (set_disk d st).
Proof. split; [done|]. exists []. rewrite app_nil_r. split; [done|constructor]. Qed.

Lemma quiet_step_set_pdf_links l st : quiet_step st (set_pdf_links l st).
Proof. split; [done|]. exists []. rewrite app_nil_r. split; [done|constructor]. Qed.

Section Effects.

Variable W : World.

Lemma strategy1_quiet p st :
  quiet_step st (snd (_extract_pdf_strategy1 W p st)).
Proof.
  unfold _extract_pdf_strategy1.
  assert (quiet_step st (emit (EStrategy 1 p) st)) by by apply quiet_step_emit.
  repeat case_match; done.
Qed.

Lemma strategy2_quiet p st :
  quiet_step st (snd (_extract_pdf_strategy2 W p st)).
Proof.
  unfold _extract_pdf_strategy2.
  assert (quiet_step st (emit (EStrategy 2 p) st)) by by apply quiet_step_emit.
  repeat case_match; done.
Qed.

Lemma strategy3_quiet p st :
  quiet_step st (snd (_extract_pdf_strategy3 W p st)).
Proof.
  unfold _extract_pdf_strategy3.
  assert (quiet_step st (emit (EStrategy 3 p) st)) by by apply quiet_step_emit.
  repeat case_match; done.
Qed.

(** A PDF download makes no request of the crawl and leaves the visited
    set alone. *)
Lemma pdf_quiet url st :
  quiet_step st (snd (_extract_pdf_from_url_advanced W url st)).
Proof.
  unfold _extract_pdf_from_url_advanced, session_get.
  set (st1 := emit (EGet PdfDownload url) st).
  assert (quiet_step st st1) as H1 by by apply quiet_step_emit.
  destruct (http_get W _ url) as [resp|]; [|done].
  case_match; [done|].
  set (p := mktemp W (tmp_count (log st1))).
  set (st2 := emit (ETmpWrite p) _).
  assert (quiet_step st st2) as H2.
  { eapply quiet_step_trans; [exact H1|].
    eapply quiet_step_trans; [apply quiet_step_set_disk|].
    by apply quiet_step_emit. }
  pose proof (strategy1_quiet p st2) as H3.
  destruct (_extract_pdf_strategy1 W p st2) as [r1 st3]. cbn [snd] in H3.
  assert (quiet_step st st3) as H3' by (eapply quiet_step_trans; eauto).
  destruct r1 as [pages1|]; [|done].
  assert (exists pages2 st4,
    (if total_chars pages1 <? 200 then _extract_pdf_strategy2 W p st3
     else (pages1, st3)) = (pages2, st4) /\ quiet_step st st4)
    as (pages2 & st4 & -> & H4).
  { destruct (total_chars pages1 <? 200); [|by eauto].
    pose proof (strategy2_quiet p st3) as Hq.
    destruct (_extract_pdf_strategy2 W p st3) as [x y].
    do 2 eexists. split; [done|]. eapply quiet_step_trans; eauto. }
  assert (exists r3 st5,
    (if total_chars pages2 <? 200 then _extract_pdf_strategy3 W p st4
     else (Some pages2, st4)) = (r3, st5) /\ quiet_step st st5)
    as (r3 & st5 & -> & H5).
  { destruct (total_chars pages2 <? 200); [|by eauto].
    pose proof (strategy3_quiet p st4) as Hq.
    destruct (_extract_pdf_strategy3 W p st4) as [x y].
    do 2 eexists. split; [done|]. eapply quiet_step_trans; eauto. }
  destruct r3 as [pages3|]; [|done].
  assert (quiet_step st (emit (ERemove p) (set_disk (delete p (disk st5)) st5))).
  { eapply quiet_step_trans; [exact H5|].
    eapply quiet_step_trans; [apply quiet_step_set_disk|].
    by apply quiet_step_emit. }
  by case_match.
Qed.

Lemma scan_file_link_quiet epc link acc :
  quiet_step (snd acc) (snd (scan_file_link W epc acc link)).
Proof.
  destruct acc as [[contents n] st]. unfold scan_file_link. cbn [snd].
  case_match; [|apply quiet_step_refl].
  assert (quiet_step st (add_pdf_link link st)) as Ha
    by apply quiet_step_set_pdf_links.
  case_match; [|done].
  pose proof (pdf_quiet link (add_pdf_link link st)) as Hq.
  destruct (_extract_pdf_from_url_advanced W link _) as [c st'].
  cbn [snd] in Hq.
  assert (quiet_step st st') by (eapply quiet_step_trans; [exact Ha|exact Hq]).
  by case_match.
Qed.

Lemma scan_file_links_quiet epc links : forall acc,
  quiet_step (snd acc) (snd (fold_left (scan_file_link W epc) links acc)).
Proof.
  induction links as [|l links IH]; intros acc; cbn [fold_left].
  - apply quiet_step_refl.
  - eapply quiet_step_trans; [apply scan_file_link_quiet|apply IH].
Qed.

(** A page that was visited is not requested again. *)
Lemma single_page_visited url epc st :
  url ∈ visited_urls st -> _extract_single_page W url epc st = (inr [], st).
Proof. intros H. unfold _extract_single_page. by rewrite bool_decide_eq_true_2. Qed.

(** A page that was not visited is marked and requested once; what follows
    is no request of the crawl. *)
Lemma single_page_fresh url epc st :
  url ∉ visited_urls st ->
  let st' := snd (_extract_single_page W url epc st) in
  visited_urls st' = {[url]} ∪ visited_urls st /\
  exists new, log st' = log st ++ EGet PageFetch url :: new /\ quiet new.
Proof.
  intros H. unfold _extract_single_page, session_get.
  rewrite bool_decide_eq_false_2 by done.
  set (st1 := emit (EGet PageFetch url) (set_visited _ st)).
  assert (forall st', quiet_step st1 st' ->
            visited_urls st' = {[url]} ∪ visited_urls st /\
            exists new, log st' = log st ++ EGet PageFetch url :: new /\ quiet new)
    as Hgo.
  { intros st' [Hv (new & Hl & Hq)]. split; [done|]. exists new.
    split; [|done]. rewrite Hl. subst st1. cbn. by rewrite <- app_assoc. }
  destruct (http_get W _ url) as [resp|]; [|apply Hgo, quiet_step_refl].
  case_match.
  - set (st2 := if bool_decide (url ∈ pdf_links st1) then st1 else _).
    assert (quiet_step st1 st2) as H2.
    { subst st2. case_match; [apply quiet_step_refl|apply quiet_step_set_pdf_links]. }
    destruct epc; [|by apply Hgo].
    pose proof (pdf_quiet url st2) as Hq.
    destruct (_extract_pdf_from_url_advanced W url st2) as [document st3].
    apply Hgo. eapply quiet_step_trans; [exact H2|exact Hq].
  - destruct (_extract_file_links W _ url) as [e|links0];
      [apply Hgo, quiet_step_refl|].
    destruct (for_each _ _ links0) as [e|links]; [apply Hgo, quiet_step_refl|].
    pose proof (scan_file_links_quiet epc links ([], 0, st1)) as Hq.
    destruct (fold_left (scan_file_link W epc) _ _) as [[contents n] st2].
    cbn [snd] in Hq.
    repeat case_match; by apply Hgo.
Qed.

End Effects.

(* --------------------------------------------------------------------- *)
(** ** Facts on strings used by the crawl *)
(* --------------------------------------------------------------------- *)

(** Without separator the split is the string itself; otherwise it has at
    least two items. *)
Lemma split_on_aux_shape sep s : forall cur,
  split_on_aux sep cur s = [rev cur ++ s] \/
  (2 <= length (split_on_aux sep cur s))%nat.
Proof.
  induction s as [|c r IH]; intros cur; cbn [split_on_aux].
  - left. by rewrite app_nil_r.
  - destruct (c =? sep)%N.
    + right. cbn [length]. destruct (IH []) as [-> | H]; cbn [length]; lia.
    + destruct (IH (c :: cur)) as [-> | H]; [left|by right].
      cbn [rev]. by rewrite <- app_assoc.
Qed.

Lemma rev_two_items {A} (l : list A) :
  (2 <= length l)%nat -> exists x y r, rev l = x :: y :: r.
Proof.
  intros H. pose proof (length_rev l) as Hl.
  destruct (rev l) as [|x [|y r]]; cbn [length] in Hl; try lia. eauto.
Qed.

(** The name printed for a candidate exists as soon as its URL is not
    empty. *)
Lemma page_name_defined u : u <> [] -> exists name, page_name u = Some name.
Proof.
  intros Hu. unfold page_name, split_on. cbv zeta.
  destruct (split_on_aux_shape 47 u []) as [-> | H].
  - cbn [rev app last_item List.last]. destruct u as [|c r]; [done|].
    unfold slice_to. cbn. eauto.
  - destruct (negb _); [eauto|].
    destruct (rev_two_items _ H) as (x & y & r & ->). eauto.
Qed.

Lemma score_of_empty query : _semantic_match_score [] query = inr 0.
Proof. done. Qed.

Section Crawl.

Variable W : World.

(** ** Link discovery *)

Lemma links_effect base q st :
  let st' := snd (_get_scored_internal_links W base q st) in
  st' = emit (EGet LinkDiscovery base) st.
Proof.
  unfold _get_scored_internal_links, session_get. by repeat case_match.
Qed.


(** ** The fast path *)

Lemma fast_path url max_pages deep_crawl epc kws st c st1 s :
  _extract_single_page W url epc (reset st) = (inr c, st1) ->
  _semantic_match_score c (build_query kws) = inr s ->
  60 <= s ->
  extract_site_content W url max_pages deep_crawl epc kws st
  = (inr (_format_result st1 c url s), st1).
Proof.
  intros Hp Hs H60. unfold extract_site_content. rewrite Hp.
  destruct c as [|x c]; [rewrite score_of_empty in Hs; injection Hs; lia|].
  cbn [is_empty negb]. rewrite Hs.
  by rewrite (proj2 (Z.leb_le 60 s) H60).
Qed.

(** ** The exploration loop *)

Lemma explore_app q epc pre post b st :
  explore W q epc (pre ++ post) b st =
  match explore W q epc pre b st with
  | Next b' st' => explore W q epc post b' st'
  | stop => stop
  end.
Proof.
  revert b st. induction pre as [|x pre IH]; intros b st; [done|].
  cbn [app explore]. destruct (explore_page W q epc x b st); auto.
Qed.

(** A turn that goes on keeps the running best below 70. *)
Lemma explore_page_next q epc cand b st b' st' :
  best_score b < 70 ->
  explore_page W q epc cand b st = Next b' st' -> best_score b' < 70.
Proof.
  intros Hb. unfold explore_page. destruct cand as [u t].
  case_match; [by intros [= <- <-]|].
  destruct (page_name u); [|done].
  destruct (_extract_single_page W u epc st) as [[e|c] st1]; [done|].
  case_match; [by intros [= <- <-]|].
  destruct (_semantic_match_score c q) as [e|s]; [done|].
  cbv zeta. cbn [best_score pages_explored].
  destruct (70 <=? (t + s) / 2) eqn:E70; [done|].
  apply Z.leb_gt in E70.
  destruct (best_score b <? (t + s) / 2) eqn:Elt; cbn [best_score pages_explored];
    case_match; intros [= <- <-]; cbn [best_score]; lia.
Qed.

Lemma explore_next q epc cands : forall b st b' st',
  best_score b < 70 ->
  explore W q epc cands b st = Next b' st' -> best_score b' < 70.
Proof.
  induction cands as [|x cands IH]; intros b st b' st' Hb; cbn [explore].
  - by intros [= <- <-].
  - destruct (explore_page W q epc x b st) as [b1 st1| | |] eqn:E; try done.
    apply IH. eapply explore_page_next; eauto.
Qed.

(** The turn of a candidate that reaches 70: it returns the page itself. *)
Lemma explore_page_sufficient (q : pystr) epc (u : pystr) (t : Z) b st
    (c : pystr) st1 s :
  best_score b < 70 ->
  u ∉ visited_urls st -> u <> [] ->
  _extract_single_page W u epc st = (inr c, st1) -> c <> [] ->
  _semantic_match_score c q = inr s ->
  70 <= (t + s) / 2 ->
  explore_page W q epc (u, t) b st
  = Return (_format_result st1 c u ((t + s) / 2)) st1.
Proof.
  intros Hb Hv Hu Hp Hc Hs H70. unfold explore_page.
  rewrite bool_decide_eq_false_2 by done.
  destruct (page_name_defined u Hu) as [name ->].
  rewrite Hp. destruct c as [|x c]; [done|]. cbn [is_empty]. rewrite Hs.
  cbv zeta. cbn [best_score].
  rewrite (proj2 (Z.ltb_lt (best_score b) ((t + s) / 2))) by lia.
  by rewrite (proj2 (Z.leb_le 70 ((t + s) / 2))) by lia.
Qed.

End Crawl.

(* --------------------------------------------------------------------- *)
(** ** Counting the requests of a crawl *)
(* --------------------------------------------------------------------- *)

Lemma requests_by_app o u l1 l2 :
  requests_by o u (l1 ++ l2) = (requests_by o u l1 + requests_by o u l2)%nat.
Proof. unfold requests_by. by rewrite List.filter_app, length_app. Qed.

Lemma requests_by_quiet o u new :
  quiet new -> o <> PdfDownload -> requests_by o u new = 0%nat.
Proof.
  intros Hq Ho. unfold requests_by.
  induction Hq as [|e new He _ IH]; [done|]. cbn [List.filter].
  rewrite bool_decide_eq_false_2; [done|].
  intros ->. by destruct o.
Qed.

Lemma requests_by_one o u o' u' :
  requests_by o u [EGet o' u']
  = if bool_decide (EGet o' u' = EGet o u) then 1%nat else 0%nat.
Proof. unfold requests_by. cbn [List.filter]. by case_match. Qed.

Lemma quiet_step_page_inv l0 st st' :
  quiet_step st st' -> page_inv l0 st -> page_inv l0 st'.
Proof.
  intros [Hv (new & Hl & Hq)] Hi u. specialize (Hi u).
  rewrite Hl, Hv, requests_by_app, (requests_by_quiet _ _ new) by done. lia.
Qed.

Lemma quiet_step_links st st' : quiet_step st st' -> same_link_requests st st'.
Proof.
  intros [Hv (new & Hl & Hq)] u.
  rewrite Hl, requests_by_app, (requests_by_quiet _ _ new) by done. lia.
Qed.

Lemma same_link_requests_trans st1 st2 st3 :
  same_link_requests st1 st2 -> same_link_requests st2 st3 ->
  same_link_requests st1 st3.
Proof. intros H1 H2 u. by rewrite H2, H1. Qed.

Section Requests.

Variable W : World.

(** The page extractor keeps the invariant: it consults the visited set
    before its request. *)
Lemma single_page_inv l0 url epc st :
  page_inv l0 st ->
  page_inv l0 (snd (_extract_single_page W url epc st)) /\
  same_link_requests st (snd (_extract_single_page W url epc st)).
Proof.
  intros Hi. destruct (decide (url ∈ visited_urls st)) as [Hin|Hnin].
  { rewrite single_page_visited by done. by split. }
  destruct (single_page_fresh W url epc st Hnin) as [Hv (new & Hl & Hq)].
  split.
  - intros u. specialize (Hi u). rewrite Hl, Hv.
    change (EGet PageFetch url :: new) with ([EGet PageFetch url] ++ new).
    rewrite !requests_by_app, requests_by_one, (requests_by_quiet _ _ new) by done.
    destruct (decide (u = url)) as [->|Hne].
    + rewrite (bool_decide_eq_false_2 (url ∈ visited_urls st)) in Hi by done.
      rewrite bool_decide_eq_true_2 by done.
      rewrite (bool_decide_eq_true_2 (url ∈ {[url]} ∪ visited_urls st))
        by (apply elem_of_union; left; by apply elem_of_singleton).
      lia.
    + rewrite (bool_decide_eq_false_2 (EGet PageFetch url = EGet PageFetch u))
        by congruence.
      destruct (decide (u ∈ visited_urls st)) as [Hu|Hu].
      * rewrite (bool_decide_eq_true_2 (u ∈ visited_urls st)) in Hi by done.
        rewrite (bool_decide_eq_true_2 (u ∈ {[url]} ∪ visited_urls st))
          by (apply elem_of_union; by right).
        lia.
      * rewrite (bool_decide_eq_false_2 (u ∈ visited_urls st)) in Hi by done.
        rewrite (bool_decide_eq_false_2 (u ∈ {[url]} ∪ visited_urls st))
          by (rewrite elem_of_union, elem_of_singleton; tauto).
        lia.
  - intros u. rewrite Hl.
    change (EGet PageFetch url :: new) with ([EGet PageFetch url] ++ new).
    rewrite !requests_by_app, requests_by_one, (requests_by_quiet _ _ new) by done.
    rewrite bool_decide_eq_false_2 by done. lia.
Qed.

Lemma explore_page_inv l0 q epc cand b st :
  page_inv l0 st ->
  page_inv l0 (turn_state (explore_page W q epc cand b st)) /\
  same_link_requests st (turn_state (explore_page W q epc cand b st)).
Proof.
  intros Hi. unfold explore_page. destruct cand as [u t].
  case_match; [by split|].
  destruct (page_name u); [|by split].
  pose proof (single_page_inv l0 u epc st Hi) as Hp.
  destruct (_extract_single_page W u epc st) as [c st1]. cbn [snd] in Hp.
  repeat case_match; done.
Qed.

Lemma explore_inv l0 q epc cands : forall b st,
  page_inv l0 st ->
  page_inv l0 (turn_state (explore W q epc cands b st)) /\
  same_link_requests st (turn_state (explore W q epc cands b st)).
Proof.
  induction cands as [|x cands IH]; intros b st Hi; cbn [explore].
  - by split.
  - destruct (explore_page_inv l0 q epc x b st Hi) as [H1 H2].
    destruct (explore_page W q epc x b st) as [b1 st1| | |]; try done.
    cbn [turn_state] in H1, H2. destruct (IH b1 st1 H1) as [H3 H4].
    split; [done|]. eapply same_link_requests_trans; eauto.
Qed.

(** Link discovery asks for the base URL once more and nothing else. *)
Lemma links_inv l0 base q st :
  page_inv l0 st ->
  let st' := snd (_get_scored_internal_links W base q st) in
  page_inv l0 st' /\
  forall u, requests_by LinkDiscovery u (log st')
            = (requests_by LinkDiscovery u (log st)
               + if bool_decide (u = base) then 1 else 0)%nat.
Proof.
  intros Hi. cbv zeta. rewrite links_effect. split.
  - intros u. specialize (Hi u). unfold emit. cbn [log visited_urls].
    rewrite requests_by_app, requests_by_one.
    rewrite bool_decide_eq_false_2 by done. lia.
  - intros u. unfold emit. cbn [log]. rewrite requests_by_app, requests_by_one.
    destruct (decide (u = base)) as [->|Hne].
    + by rewrite !bool_decide_eq_true_2.
    + rewrite (bool_decide_eq_false_2 (u = base)) by done.
      by rewrite bool_decide_eq_false_2 by congruence.
Qed.

(** The requests of a whole call. *)
Lemma crawl_requests url max_pages deep_crawl epc kws st u :
  let st' := snd (extract_site_content W url max_pages deep_crawl epc kws st) in
  (requests_by PageFetch u (log st') <= requests_by PageFetch u (log st) + 1)%nat
  /\ (requests_by LinkDiscovery u (log st')
      <= requests_by LinkDiscovery u (log st)
         + if bool_decide (u = url) then 1 else 0)%nat.
Proof.
  cbv zeta.
  assert (forall st', page_inv (log st) st' ->
            (requests_by PageFetch u (log st')
             <= requests_by PageFetch u (log st) + 1)%nat) as Hfin.
  { intros st' Hi. specialize (Hi u). case_match; lia. }
  assert (page_inv (log st) (reset st)) as H0.
  { intros v. unfold reset, set_pdf_links, set_visited. cbn [log visited_urls].
    rewrite bool_decide_eq_false_2 by apply not_elem_of_empty. lia. }
  unfold extract_site_content.
  destruct (single_page_inv (log st) url epc (reset st) H0) as [H1 L1].
  destruct (_extract_single_page W url epc (reset st)) as [main st1].
  cbn [snd] in H1, L1.
  assert (requests_by LinkDiscovery u (log st1)
          = requests_by LinkDiscovery u (log st)) as L1' by apply L1.
  destruct main as [e|main]; cbn [snd].
  { split; [by apply Hfin|]. rewrite L1'. lia. }
  set (fast := if negb (is_empty main) then _ else None).
  destruct fast as [[e|r]|]; cbn [snd].
  { split; [by apply Hfin|]. rewrite L1'. lia. }
  { split; [by apply Hfin|]. rewrite L1'. lia. }
  destruct (negb deep_crawl); cbn [snd].
  { split; [by apply Hfin|]. rewrite L1'. lia. }
  destruct (links_inv (log st) url (build_query kws) st1 H1) as [H2 L2].
  destruct (_get_scored_internal_links W url (build_query kws) st1)
    as [links st2]. cbn [snd] in H2, L2.
  assert (requests_by LinkDiscovery u (log st2)
          <= requests_by LinkDiscovery u (log st)
             + (if bool_decide (u = url) then 1 else 0))%nat as L2'.
  { rewrite L2, L1'. lia. }
  destruct links as [e|links]; cbn [snd]; [by split; [apply Hfin|]|].
  destruct (is_empty links); cbn [snd]; [by split; [apply Hfin|]|].
  match goal with |- context [match ?x with inl _ => _ | inr _ => _ end] =>
    destruct x as [e|score0] end; cbn [snd]; [by split; [apply Hfin|]|].
  match goal with |- context [explore W ?q ?e ?c ?b ?s] =>
    destruct (explore_inv (log st) q e c b s H2) as [H3 L3];
    destruct (explore W q e c b s) as [b' st3|b' st3|r st3|e' st3] end;
    cbn [turn_state snd] in *;
    (split; [by apply Hfin|]); by rewrite (L3 u).
Qed.

End Requests.

(* ===================================================================== *)
(** * The properties of the specification *)
(* ===================================================================== *)

(** C1. For every content and every query the semantic match score is an
    integer between 0 and 100: the scorer raises no exception, also on an
    empty content or an empty query, and its result is never negative and
    never above 100. *)
Theorem semantic_match_score_in_range (content query : pystr) :
  exists score : Z,
    _semantic_match_score content query = inr score /\ 0 <= score <= 100.
Proof. apply semantic_match_score_bounds. Qed.

(** C10. The string built by [_format_result] does not depend on its score
    argument: for every state of the discovered PDF links, every content and
    every source URL, two scores give the same result. *)
Theorem format_result_ignores_score (st : State) (content url : pystr) (s1 s2 : Z) :
  _format_result st content url s1 = _format_result st content url s2.
Proof. reflexivity. Qed.

(* --------------------------------------------------------------------- *)
(** ** LinkScorer *)
(* --------------------------------------------------------------------- *)

Lemma contains_app_r w a s : contains w s = true -> contains w (a ++ s) = true.
Proof.
  intros H. induction a as [|c a IH]; [done|].
  cbn [app contains]. rewrite IH. apply orb_true_r.
Qed.




(* --------------------------------------------------------------------- *)
(** ** CrawlController *)
(* --------------------------------------------------------------------- *)

Lemma quiet_no_link_get new : quiet new -> List.filter is_link_get new = [].
Proof.
  induction 1 as [|e new He _ IH]; [done|]. cbn [List.filter].
  destruct e as [[]| | |]; done.
Qed.

Lemma single_page_no_link_get W url epc st :
  List.filter is_link_get (log (snd (_extract_single_page W url epc st)))
  = List.filter is_link_get (log st).
Proof.
  destruct (decide (url ∈ visited_urls st)) as [Hin|Hnin].
  { by rewrite single_page_visited. }
  destruct (single_page_fresh W url epc st Hnin) as [_ (new & -> & Hq)].
  rewrite List.filter_app.
  change (List.filter is_link_get (EGet PageFetch url :: new))
    with (List.filter is_link_get new).
  rewrite (quiet_no_link_get new Hq). apply app_nil_r.
Qed.

(** C3. When the start page yields a content that scores 60 or more, the
    call returns the formatted start page with that score and ends in the
    state the extraction of the start page left: the link scorer is not
    invoked, no request of link discovery is made. *)
Theorem fast_path_skips_link_discovery (W : World) (url : pystr) (max_pages : Z)
    (deep_crawl extract_pdf_content : bool) (keywords : option (list pystr))
    (st : State) (main_content : pystr) (st1 : State) (match_score : Z) :
  _extract_single_page W url extract_pdf_content (reset st)
  = (inr main_content, st1) ->
  _semantic_match_score main_content (build_query keywords) = inr match_score ->
  60 <= match_score ->
  extract_site_content W url max_pages deep_crawl extract_pdf_content keywords st
  = (inr (_format_result st1 main_content url match_score), st1)
  /\ List.filter is_link_get (log st1) = List.filter is_link_get (log st).
Proof.
  intros Hp Hs H60. split; [by eapply fast_path|].
  pose proof (single_page_no_link_get W url extract_pdf_content (reset st)) as H.
  by rewrite Hp in H.
Qed.

Lemma fast_path_skips_link_discovery_witness :
  extract_site_content Examples.W_fast Examples.site 10 true false
    Examples.keywords Examples.st_init
  = (inr (_format_result
            (snd (_extract_single_page Examples.W_fast Examples.site false
                    (reset Examples.st_init)))
            Examples.rich_page Examples.site 81),
     snd (_extract_single_page Examples.W_fast Examples.site false
            (reset Examples.st_init)))
  /\ List.filter is_link_get
       (log (snd (_extract_single_page Examples.W_fast Examples.site false
                    (reset Examples.st_init))))
     = List.filter is_link_get (log Examples.st_init).
Proof.
  apply (fast_path_skips_link_discovery Examples.W_fast Examples.site 10 true false
           Examples.keywords Examples.st_init Examples.rich_page _ 81).
  - vm_compute. reflexivity.
  - vm_compute. reflexivity.
  - lia.
Defined.

(** C9. For the query built from the keywords stage and mitacs, and a
    content of 600 characters whose lowered text holds mitacs five times
    and stage twice, the score is 81 (25 + 16 for the keywords, 30 for the
    coverage, 10 for the richness); it is at least 60, so a crawl whose
    start page yields this content returns it at once, in the state the
    extraction of the start page left. *)
Theorem scenario_score_is_81 (content : pystr) :
  len content = 600 ->
  count (lit "mitacs") (lower content) = 5 ->
  count (lit "stage") (lower content) = 2 ->
  _semantic_match_score content (build_query (Some [lit "stage"; lit "mitacs"]))
  = inr 81
  /\ 81 = (Z.min (5 * 8) 25 + Z.min (2 * 8) 25) + 30 + 10
  /\ ratio_bonus 2 2 = inr 30
  /\ richness_bonus content = 10
  /\ 60 <= 81
  /\ forall (W : World) (url : pystr) (max_pages : Z) (deep_crawl epc : bool)
            (st st1 : State),
       _extract_single_page W url epc (reset st) = (inr content, st1) ->
       extract_site_content W url max_pages deep_crawl epc
         (Some [lit "stage"; lit "mitacs"]) st
       = (inr (_format_result st1 content url 81), st1).
Proof.
  intros Hlen Hm Hs.
  assert (_semantic_match_score content
            (build_query (Some [lit "stage"; lit "mitacs"])) = inr 81) as Hscore.
  { unfold _semantic_match_score.
    destruct content as [|c0 content']; [done|].
    change (is_empty (c0 :: content') || is_empty _) with false. cbv iota zeta.
    set (content := c0 :: content') in *.
    assert (score_query_words (lower (build_query (Some [lit "stage"; lit "mitacs"])))
            = [lit "stage"; lit "mitacs"]) as -> by (vm_compute; reflexivity).
    cbn [is_empty fold_left]. unfold score_word. rewrite Hs. cbn [fst snd Z.ltb Z.compare].
    rewrite Hm. cbn [fst snd Z.ltb Z.compare].
    assert (ratio_bonus (0 + 1 + 1) (len [lit "stage"; lit "mitacs"]) = inr 30)
      as -> by (vm_compute; reflexivity).
    unfold richness_bonus. rewrite Hlen. reflexivity. }
  split; [exact Hscore|]. split; [reflexivity|].
  split; [vm_compute; reflexivity|].
  split; [unfold richness_bonus; by rewrite Hlen|]. split; [lia|].
  intros W url max_pages deep_crawl epc st st1 Hp.
  eapply fast_path; [exact Hp|exact Hscore|lia].
Qed.

Lemma scenario_score_is_81_witness :
  _semantic_match_score Examples.rich_page
    (build_query (Some [lit "stage"; lit "mitacs"])) = inr 81.
Proof.
  apply (scenario_score_is_81 Examples.rich_page); vm_compute; reflexivity.
Defined.

(** C4. In the exploration of the internal links, take the first explored
    candidate whose combined score, the floor of half the sum of its title
    score and its content score, reaches 70: the candidates before it let
    the loop go on, it was not visited, its URL is not empty and its page
    has content. The call then returns the content and the URL of this very
    page, with its combined score, and ends in the state the extraction of
    this page left: no later candidate is requested. *)
Theorem first_sufficient_candidate_stops (W : World) (url : pystr)
    (max_pages : Z) (extract_pdf_content : bool) (keywords : option (list pystr))
    (st : State)
    (main_content : pystr) (st1 : State) (score0 : Z)
    (links : list (pystr * Z)) (st2 : State)
    (before after : list (pystr * Z)) (page_url : pystr) (title_score : Z)
    (b : Best) (st3 : State)
    (page_content : pystr) (st4 : State) (content_score : Z) :
  let search_query := build_query keywords in
  (* the start page is not good enough and links to other pages *)
  _extract_single_page W url extract_pdf_content (reset st)
  = (inr main_content, st1) ->
  (if negb (is_empty main_content)
   then _semantic_match_score main_content search_query
   else inr 0) = inr score0 ->
  score0 < 60 ->
  _get_scored_internal_links W url search_query st1 = (inr links, st2) ->
  slice_to max_pages links = before ++ (page_url, title_score) :: after ->
  (* the candidates before this one let the loop go on *)
  explore W search_query extract_pdf_content before
    {| best_content := main_content; best_score := score0;
       best_url := url; pages_explored := 1 |} st2
  = Next b st3 ->
  (* this one is explored and reaches 70 *)
  page_url ∉ visited_urls st3 ->
  page_url <> [] ->
  _extract_single_page W page_url extract_pdf_content st3
  = (inr page_content, st4) ->
  page_content <> [] ->
  _semantic_match_score page_content search_query = inr content_score ->
  70 <= (title_score + content_score) / 2 ->
  extract_site_content W url max_pages true extract_pdf_content keywords st
  = (inr (_format_result st4 page_content page_url
            ((title_score + content_score) / 2)), st4).
Proof.
  cbv zeta. set (q := build_query keywords).
  intros Hmain Hs0 H60 Hlinks Hslice Hbefore Hfresh Hurl Hpage Hcontent Hscore H70.
  assert (best_score b < 70) as Hb.
  { eapply explore_next; [|exact Hbefore]. cbn [best_score]. lia. }
  unfold extract_site_content. fold q. rewrite Hmain.
  assert ((if negb (is_empty main_content)
           then match _semantic_match_score main_content q with
                | inl e => Some (inl e)
                | inr match_score =>
                    if 60 <=? match_score
                    then Some (inr (_format_result st1 main_content url match_score))
                    else None
                end
           else None) = None) as ->.
  { destruct (negb (is_empty main_content)); [|done]. rewrite Hs0.
    by rewrite (proj2 (Z.leb_gt 60 score0)) by lia. }
  cbn [negb]. rewrite Hlinks.
  destruct links as [|l links'].
  { unfold slice_to in Hslice. destruct (0 <=? max_pages);
      rewrite firstn_nil in Hslice; by destruct before. }
  cbn [is_empty]. rewrite Hs0, Hslice, explore_app, Hbefore.
  cbn [explore].
  by rewrite (explore_page_sufficient W q extract_pdf_content page_url title_score
                b st3 page_content st4 content_score Hb Hfresh Hurl Hpage Hcontent
                Hscore H70).
Qed.

Lemma first_sufficient_candidate_stops_witness :
  extract_site_content Examples.W_deep Examples.site 10 true false
    Examples.keywords Examples.st_init
  = (inr (_format_result DeepCrawl.st4 Examples.rich_page Examples.page_B
            ((110 + 81) / 2)),
     DeepCrawl.st4).
Proof.
  apply (first_sufficient_candidate_stops Examples.W_deep Examples.site 10 false
           Examples.keywords Examples.st_init
           (lit "Bienvenue") DeepCrawl.st1 0
           [(Examples.page_A, 120); (Examples.page_B, 110); (Examples.page_C, 60)]
           DeepCrawl.st2
           [(Examples.page_A, 120)] [(Examples.page_C, 60)] Examples.page_B 110
           {| best_content := lit "Bienvenue"; best_score := 0;
              best_url := Examples.site; pages_explored := 2 |} DeepCrawl.st3
           Examples.rich_page DeepCrawl.st4 81).
  - vm_compute. reflexivity.
  - vm_compute. reflexivity.
  - lia.
  - vm_compute. reflexivity.
  - vm_compute. reflexivity.
  - vm_compute. reflexivity.
  - apply (bool_decide_eq_false_1 (Examples.page_B ∈ visited_urls DeepCrawl.st3)).
    vm_compute. reflexivity.
  - discriminate.
  - vm_compute. reflexivity.
  - discriminate.
  - vm_compute. reflexivity.
  - vm_compute. discriminate.
Defined.

(** C2, as the code has it. Within one call the page extractor requests
    each URL at most once, because it consults the visited set before its
    request and answers a visited URL without any request; link discovery
    requests the start URL, and no other, at most once more, without
    consulting the visited set. The downloads of PDF files are outside this
    guarantee. *)
Theorem page_requests_at_most_once (W : World) (url : pystr) (max_pages : Z)
    (deep_crawl extract_pdf_content : bool) (keywords : option (list pystr))
    (st : State) (u : pystr) :
  let st' := snd (extract_site_content W url max_pages deep_crawl
                    extract_pdf_content keywords st) in
  (requests_by PageFetch u (log st') <= requests_by PageFetch u (log st) + 1)%nat
  /\ (requests_by LinkDiscovery u (log st')
      <= requests_by LinkDiscovery u (log st)
         + if bool_decide (u = url) then 1 else 0)%nat
  /\ (forall s : State,
        u ∈ visited_urls s ->
        _extract_single_page W u extract_pdf_content s = (inr [], s)).
Proof.
  cbv zeta.
  destruct (crawl_requests W url max_pages deep_crawl extract_pdf_content
              keywords st u) as [H1 H2].
  split; [exact H1|]. split; [exact H2|].
  intros s Hs. by apply single_page_visited.
Qed.

(** C2 as stated fails: a deep crawl whose start page is not good enough
    requests the start URL twice, once for the page and once for its
    links. *)
Lemma start_url_requested_twice :
  ~ (requests_to Examples.site
       (log (snd (extract_site_content Examples.W_deep Examples.site 10 true false
                    Examples.keywords Examples.st_init))) <= 1)%nat.
Proof.
  assert (requests_to Examples.site
            (log (snd (extract_site_content Examples.W_deep Examples.site 10 true
                         false Examples.keywords Examples.st_init))) = 2%nat) as ->
    by (vm_compute; reflexivity).
  lia.
Qed.

(* --------------------------------------------------------------------- *)
(** ** PdfExtractor *)
(* --------------------------------------------------------------------- *)

Lemma lstrip_length s : (length (lstrip s) <= length s)%nat.
Proof. induction s as [|c s IH]; cbn; [lia|]. destruct (is_space c); cbn; lia. Qed.

Lemma strip_length s : len (strip s) <= len s.
Proof.
  unfold strip, len. rewrite length_rev.
  pose proof (lstrip_length (rev (lstrip s))) as H1.
  pose proof (lstrip_length s) as H2. rewrite length_rev in H1. lia.
Qed.

Lemma digits_aux_length fuel : forall n acc,
  (fuel <> 0 -> length acc < length (digits_aux fuel n acc))%nat.
Proof.
  induction fuel as [|f IH]; intros n acc Hf; [done|].
  cbn [digits_aux]. destruct (n <? 10)%N; [cbn; lia|].
  destruct f as [|f']; [cbn; lia|].
  specialize (IH (n / 10)%N ((48 + n mod 10)%N :: acc) ltac:(lia)).
  cbn [length] in IH. lia.
Qed.

(** Every block of strategy 1 carries its header: at least 143 characters,
    whatever the text of the page. *)
Lemma strategy1_page_length page_num rows :
  143 <= len (strategy1_page page_num rows).
Proof.
  assert (131 <= len (page_header page_num)) as Hh.
  { unfold page_header, len, rule60, repeat_char.
    rewrite !length_app, !repeat_length.
    pose proof (digits_aux_length (S page_num) (N.of_nat page_num) [] ltac:(lia)).
    assert (length (lit " PAGE ") = 6%nat) as -> by done.
    unfold str_of_nat. cbn [length] in *. lia. }
  assert (155 <= len (empty_page_block page_num)) as He.
  { unfold empty_page_block, len in *. rewrite !length_app.
    assert (length (lit " [Page vide ou image]") = 21%nat) as -> by done.
    cbn [length]. lia. }
  unfold strategy1_page. destruct (is_empty rows); [lia|].
  destruct (10 <? len (strip (strategy1_page_text rows))) eqn:E; [|lia].
  apply Z.ltb_lt in E. pose proof (strip_length (strategy1_page_text rows)).
  unfold page_block, len in *. rewrite !length_app. cbn [length]. lia.
Qed.

Lemma strategy1_pages_total pages :
  143 * len pages <= total_chars (strategy1_pages pages).
Proof.
  unfold strategy1_pages. generalize 1%nat.
  induction pages as [|rows pages IH]; intros n; [done|].
  cbn [enumerate map total_chars fold_right].
  specialize (IH (S n)). pose proof (strategy1_page_length n rows).
  unfold total_chars in IH. unfold len in *. rewrite length_cons. lia.
Qed.

(** The fallback to strategy 2 is out of reach of any PDF of two pages or
    more: the blocks of strategy 1 alone pass the threshold. *)
Lemma two_pages_pass_threshold pages :
  2 <= len pages -> (total_chars (strategy1_pages pages) <? 200) = false.
Proof.
  intros H. apply Z.ltb_ge. pose proof (strategy1_pages_total pages). lia.
Qed.

(** C5 at the scenario of the specification. Strategy 1 reconstructs 50,
    80 and 5 characters for the three pages; the blocks it returns count
    182, 212 and 155 characters, 549 in all, so that the threshold of 200 is
    passed: the file is written, read by strategy 1 and removed, and
    strategy 2 is never called on it. *)
Theorem three_page_scenario_skips_strategy2 :
  let path := mktemp Examples.W_pdf3 0 in
  let st' := snd (_extract_pdf_from_url_advanced Examples.W_pdf3 Examples.pdf_url
                    Examples.st_init) in
  map (fun rows => len (strategy1_page_text rows)) Examples.three_pages
  = [50; 80; 5]
  /\ map len (strategy1_pages Examples.three_pages) = [182; 212; 155]
  /\ total_chars (strategy1_pages Examples.three_pages) = 549
  /\ log st' = [EGet PdfDownload Examples.pdf_url; ETmpWrite path;
                EStrategy 1 path; ERemove path]
  /\ strategy_calls 2 path (log st') = 0%nat.
Proof. cbv zeta. repeat split; vm_compute; reflexivity. Qed.

(** C6 at a download that pdfminer cannot parse. Strategy 1 raises, the
    handler returns its message, and the temporary file is still on disk
    when the call returns: no removal was attempted. *)
Theorem unparsable_pdf_leaves_temporary_file :
  let path := mktemp Examples.W_broken_pdf 0 in
  let r := _extract_pdf_from_url_advanced Examples.W_broken_pdf Examples.pdf_url
             Examples.st_init in
  fst r = pdf_failed_message Examples.pdf_url
  /\ disk Examples.st_init !! path = None
  /\ disk (snd r) !! path = Some (resp_content Examples.pdf_response)
  /\ log (snd r) = [EGet PdfDownload Examples.pdf_url; ETmpWrite path;
                    EStrategy 1 path].
Proof. cbv zeta. repeat split; vm_compute; reflexivity. Qed.

(* --------------------------------------------------------------------- *)
(** ** The fuel of the loops is enough *)
(* --------------------------------------------------------------------- *)

Lemma startswith_length a s : startswith a s = true -> (length a <= length s)%nat.
Proof.
  revert s. induction a as [|x a IH]; intros [|y s] H; cbn in *; try lia; try done.
  apply andb_true_iff in H as [_ H]. specialize (IH s H). lia.
Qed.

(** A replacement removes, for every occurrence counted, the difference of
    the lengths. *)
Lemma replace_aux_length a b : (0 < length a)%nat -> (length b <= length a)%nat ->
  forall s skip,
    (length (replace_aux a b skip s) + Nat.min skip (length s)
     + count_aux a skip s * (length a - length b) = length s)%nat.
Proof.
  intros Ha Hab. induction s as [|c r IH]; intros skip; [by destruct skip|].
  cbn [replace_aux count_aux]. destruct skip as [|k].
  - destruct (startswith a (c :: r)) eqn:E.
    + apply startswith_length in E. cbn [length] in E.
      specialize (IH (length a - 1)%nat). rewrite length_app. cbn [length].
      rewrite Nat.min_l in IH by lia. cbn [Nat.min]. lia.
    + specialize (IH 0%nat). cbn [length]. lia.
  - specialize (IH k). cbn [length]. lia.
Qed.

Lemma contains_counted a s :
  a <> [] -> contains a s = true -> (1 <= count_aux a 0 s)%nat.
Proof.
  intros Ha. induction s as [|c r IH]; cbn [contains count_aux].
  - destruct a; [done|]. cbn. discriminate.
  - destruct (startswith a (c :: r)); [lia|]. cbn [orb]. exact IH.
Qed.

(** The loop that squeezes the blank lines ends within its fuel: no run of
    three line breaks is left. *)
Lemma squeeze_newlines_done fuel : forall s,
  (length s <= fuel)%nat ->
  contains [NL; NL; NL] (squeeze_newlines fuel s) = false.
Proof.
  induction fuel as [|f IH]; intros s Hlen.
  - destruct s; [done|cbn in Hlen; lia].
  - cbn [squeeze_newlines].
    destruct (contains [NL; NL; NL] s) eqn:E; [|done].
    apply IH. unfold replace.
    pose proof (replace_aux_length [NL; NL; NL] [NL; NL] ltac:(cbn; lia)
                  ltac:(cbn; lia) s 0%nat) as H.
    pose proof (contains_counted [NL; NL; NL] s ltac:(done) E).
    cbn [length] in H. lia.
Qed.

(** The chunks of strategy 2 cover all the lines. *)
Lemma chunks_cover {A} (n : nat) : (0 < n)%nat ->
  forall fuel (l : list A), (length l <= fuel)%nat -> concat (chunks fuel n l) = l.
Proof.
  intros Hn. induction fuel as [|f IH]; intros l Hlen.
  - destruct l; [done|cbn in Hlen; lia].
  - destruct l as [|x l]; [done|].
    cbn [chunks concat]. rewrite IH; [apply firstn_skipn|].
    rewrite length_skipn. cbn [length] in *. lia.
Qed.

(** The digits of a page number do not depend on more fuel. *)
Lemma digits_aux_fuel fuel : forall n acc,
  (n < N.of_nat fuel)%N -> digits_aux (S fuel) n acc = digits_aux fuel n acc.
Proof.
  induction fuel as [|f IH]; intros n acc Hn; [lia|].
  change (digits_aux (S (S f)) n acc)
    with (let acc' := (48 + n mod 10)%N :: acc in
          if (n <? 10)%N then acc' else digits_aux (S f) (n / 10)%N acc').
  cbn [digits_aux]. cbv zeta. destruct (n <? 10)%N eqn:E; [done|].
  apply N.ltb_ge in E. apply IH.
  assert (n / 10 < n)%N by (apply N.div_lt; lia). lia.
Qed.

(* --------------------------------------------------------------------- *)
(** ** What the PDF pipeline does keep *)
(* --------------------------------------------------------------------- *)

Section Pipeline.

Variable W : World.

Lemma strategy1_disk p st : disk (snd (_extract_pdf_strategy1 W p st)) = disk st.
Proof. unfold _extract_pdf_strategy1. by repeat case_match. Qed.

Lemma strategy2_disk p st : disk (snd (_extract_pdf_strategy2 W p st)) = disk st.
Proof. unfold _extract_pdf_strategy2. by repeat case_match. Qed.

Lemma strategy3_disk p st : disk (snd (_extract_pdf_strategy3 W p st)) = disk st.
Proof. unfold _extract_pdf_strategy3. by repeat case_match. Qed.

Lemma strategy1_result p st data :
  disk st !! p = Some data ->
  _extract_pdf_strategy1 W p st
  = (match pdf_rows W data with
     | Some pages => Some (strategy1_pages pages)
     | None => None
     end, emit (EStrategy 1 p) st).
Proof.
  intros H. unfold _extract_pdf_strategy1.
  change (disk (emit (EStrategy 1 p) st)) with (disk st). rewrite H.
  by destruct (pdf_rows W data).
Qed.


(** The part of C5 the code does have: when the blocks of strategy 1 count
    less than 200 characters, strategy 2 is called on the same file, right
    after strategy 1 and before any removal. *)
Lemma short_blocks_fall_back (url : pystr) (st : State) (resp : Response)
    (pages : list (list (list pystr))) :
  let path := mktemp W (tmp_count (log st ++ [EGet PdfDownload url])) in
  http_get W (request_count (log st)) url = Some resp ->
  contains (lit "pdf") (lower (resp_content_type resp))
  || endswith (lit ".pdf") (lower url) = true ->
  pdf_rows W (resp_content resp) = Some pages ->
  total_chars (strategy1_pages pages) < 200 ->
  exists rest,
    log (snd (_extract_pdf_from_url_advanced W url st))
    = log st ++ [EGet PdfDownload url; ETmpWrite path; EStrategy 1 path;
                 EStrategy 2 path] ++ rest.
Proof.
  cbv zeta. intros Hget Hpdf Hrows Hshort.
  unfold _extract_pdf_from_url_advanced, session_get. rewrite Hget.
  apply orb_true_iff in Hpdf.
  assert (negb (contains (lit "pdf") (lower (resp_content_type resp)))
          && negb (endswith (lit ".pdf") (lower url)) = false) as ->.
  { destruct Hpdf as [-> | ->]; [done|]. apply andb_false_r. }
  change (log (emit (EGet PdfDownload url) st)) with (log st ++ [EGet PdfDownload url]).
  set (path := mktemp W _).
  set (st2 := emit (ETmpWrite path) _).
  assert (disk st2 !! path = Some (resp_content resp)) as Hd
    by apply lookup_insert_eq.
  rewrite (strategy1_result path st2 _ Hd), Hrows.
  rewrite (proj2 (Z.ltb_lt _ 200) Hshort).
  set (st3 := emit (EStrategy 1 path) st2).
  assert (exists pages2,
            _extract_pdf_strategy2 W path st3
            = (pages2, emit (EStrategy 2 path) st3)) as [pages2 ->].
  { unfold _extract_pdf_strategy2. repeat case_match; eauto. }
  set (st4 := emit (EStrategy 2 path) st3).
  assert (log st4 = log st ++ [EGet PdfDownload url; ETmpWrite path;
                               EStrategy 1 path; EStrategy 2 path]) as Hl4.
  { subst st4 st3 st2. cbn [log emit set_disk]. by rewrite <- !app_assoc. }
  assert (forall st5, (exists new, log st5 = log st4 ++ new) ->
            exists rest, log st5 = log st ++ [EGet PdfDownload url; ETmpWrite path;
                                  EStrategy 1 path; EStrategy 2 path] ++ rest)
    as Hgo.
  { intros st5 [new Hn]. exists new. rewrite Hn, Hl4. by rewrite <- !app_assoc. }
  destruct (total_chars pages2 <? 200).
  - pose proof (strategy3_quiet W path st4) as [_ (new & Hn & _)].
    destruct (_extract_pdf_strategy3 W path st4) as [[pages3|] st5];
      cbn [snd] in Hn.
    + case_match; apply Hgo; exists (new ++ [ERemove path]);
        cbn [snd log emit set_disk]; by rewrite Hn, <- app_assoc.
    + apply Hgo. by exists new.
  - case_match; apply Hgo; exists [ERemove path]; done.
Qed.


End Pipeline.

(* ===================================================================== *)
(** * Further properties of the extractor *)
(* ===================================================================== *)

(* --------------------------------------------------------------------- *)
(** ** ContentScorer: the shape of the score *)
(* --------------------------------------------------------------------- *)

Lemma ratio_bonus_none (n : Z) : 0 < n -> ratio_bonus 0 n = inr 0.
Proof. intros H. destruct n; try lia. reflexivity. Qed.

(** [n / n] is 1.0, whatever the size of [n], and [int(1.0 * 30)] is 30. *)
Lemma ratio_bonus_full (n : Z) : 0 < n -> ratio_bonus n n = inr 30.
Proof.
  intros H. destruct n as [|p|p]; try lia.
  unfold ratio_bonus, PyFloat.truediv.
  change (Z.abs (Z.pos p)) with (Z.pos p).
  assert (SFdiv_core_binary PyFloat.prec PyFloat.emax (Z.pos p) 0 (Z.pos p) 0
          = (2 ^ 53, -53, loc_Exact)) as ->.
  { unfold SFdiv_core_binary.
    replace (Zdigits2 (Z.pos p) + 0 - (Zdigits2 (Z.pos p) + 0)) with 0 by lia.
    change (Z.min (fexp PyFloat.prec PyFloat.emax 0) (0 - 0)) with (-53).
    change (0 - 0 - -53) with 53. cbv zeta. cbv iota.
    pose proof (Z_div_mod (Z.shiftl (Z.pos p) 53) (Z.pos p) ltac:(lia)) as Hdm.
    rewrite Z.shiftl_mul_pow2 in * by lia.
    destruct (Z.div_eucl (Z.pos p * 2 ^ 53) (Z.pos p)) as [q r].
    destruct Hdm as [Hq Hr].
    assert (q = 2 ^ 53) as -> by nia. assert (r = 0) as -> by nia.
    unfold new_location, new_location_even, new_location_odd.
    by destruct (Z.even (Z.pos p)). }
  vm_compute. reflexivity.
Qed.

Lemma score_words_unmatched content_lower words : forall acc,
  Forall (fun w => count w content_lower = 0) words ->
  fold_left (score_word content_lower) words acc = acc.
Proof.
  induction words as [|w words IH]; intros acc Hall; [done|].
  inversion Hall as [|? ? Hw Hws]; subst. cbn [fold_left].
  unfold score_word at 2. rewrite Hw. cbn. by apply IH.
Qed.

Lemma score_words_matched content_lower words : forall score matched,
  Forall (fun w => 0 < count w content_lower) words ->
  fold_left (score_word content_lower) words (score, matched)
  = (score + fold_right Z.add 0
               (map (fun w => Z.min (count w content_lower * 8) 25) words),
     matched + len words).
Proof.
  induction words as [|w words IH]; intros score matched Hall.
  - cbn. unfold len. cbn. f_equal; lia.
  - inversion Hall as [|? ? Hw Hws]; subst. cbn [fold_left].
    unfold score_word at 2. rewrite (proj2 (Z.ltb_lt _ _) Hw). cbn [fst snd].
    rewrite IH by done. cbn [map fold_right]. unfold len. rewrite length_cons.
    f_equal; lia.
Qed.

Lemma query_words_of_empty : score_query_words (lower []) = [].
Proof. reflexivity. Qed.

(** X1. For a content and a query in Latin-1: when the query has a word
    longer than two characters and no such word occurs in the content, the
    content scores its richness bonus alone, at most 10, so it never takes
    the fast path. *)
Theorem unmatched_content_scores_richness (content query : pystr) :
  latin1 content = true ->
  latin1 query = true ->
  content <> [] ->
  score_query_words (lower query) <> [] ->
  Forall (fun w => count w (lower content) = 0) (score_query_words (lower query)) ->
  _semantic_match_score content query = inr (richness_bonus content)
  /\ richness_bonus content <= 10.
Proof.
  intros _ _ Hc Hw Hall. split.
  - unfold _semantic_match_score.
    destruct content as [|c0 content']; [done|].
    destruct query as [|q0 query']; [done|].
    cbn [is_empty orb]. cbv zeta.
    destruct (score_query_words (lower (q0 :: query'))) as [|w ws] eqn:E; [done|].
    cbn [is_empty]. rewrite score_words_unmatched by done.
    rewrite ratio_bonus_none by (unfold len; cbn [length]; lia).
    pose proof (richness_bonus_nonneg (c0 :: content')).
    assert (richness_bonus (c0 :: content') <= 10)
      by (unfold richness_bonus; repeat case_match; lia).
    f_equal. lia.
  - unfold richness_bonus. repeat case_match; lia.
Qed.

Lemma unmatched_content_scores_richness_witness :
  _semantic_match_score (lit "Bienvenue sur le site") (lit "stage Mitacs")
  = inr (richness_bonus (lit "Bienvenue sur le site")).
Proof.
  apply (unmatched_content_scores_richness (lit "Bienvenue sur le site")
           (lit "stage Mitacs")).
  - vm_compute. reflexivity.
  - vm_compute. reflexivity.
  - discriminate.
  - vm_compute. discriminate.
  - repeat constructor; vm_compute; reflexivity.
Defined.

(** X2. For a content and a query in Latin-1: when the query has a word
    longer than two characters and every such word occurs in the content,
    the coverage bonus is 30 whatever the number of words, and the score is
    the sum of the keyword contributions, each [min(count * 8, 25)], of 30
    and of the richness bonus, capped at 100. *)
Theorem full_coverage_score (content query : pystr) :
  latin1 content = true ->
  latin1 query = true ->
  content <> [] ->
  score_query_words (lower query) <> [] ->
  Forall (fun w => 0 < count w (lower content)) (score_query_words (lower query)) ->
  _semantic_match_score content query
  = inr (Z.min
           (fold_right Z.add 0
              (map (fun w => Z.min (count w (lower content) * 8) 25)
                 (score_query_words (lower query)))
            + 30 + richness_bonus content) 100).
Proof.
  intros _ _ Hc Hw Hall. unfold _semantic_match_score.
  destruct content as [|c0 content']; [done|].
  destruct query as [|q0 query']; [done|].
  cbn [is_empty orb]. cbv zeta.
  destruct (score_query_words (lower (q0 :: query'))) as [|w ws] eqn:E; [done|].
  cbn [is_empty]. rewrite score_words_matched by done.
  rewrite Z.add_0_l. rewrite ratio_bonus_full by (unfold len; cbn [length]; lia).
  done.
Qed.

Lemma full_coverage_score_witness :
  _semantic_match_score Examples.rich_page (lit "stage mitacs")
  = inr (Z.min
           (fold_right Z.add 0
              (map (fun w => Z.min (count w (lower Examples.rich_page) * 8) 25)
                 (score_query_words (lower (lit "stage mitacs"))))
            + 30 + richness_bonus Examples.rich_page) 100).
Proof.
  apply (full_coverage_score Examples.rich_page (lit "stage mitacs")).
  - vm_compute. reflexivity.
  - vm_compute. reflexivity.
  - discriminate.
  - vm_compute. discriminate.
  - repeat constructor; vm_compute; reflexivity.
Defined.

(** X3. A query in Latin-1 without any word longer than two characters,
    the empty query among them, is scored on the length of the content
    alone: 20 above 200 characters, 0 otherwise. *)
Theorem wordless_query_scores_length (content query : pystr) :
  latin1 query = true ->
  score_query_words (lower query) = [] ->
  _semantic_match_score content query
  = inr (if 200 <? len content then 20 else 0).
Proof.
  intros _ Hw. unfold _semantic_match_score.
  destruct content as [|c0 content']; [done|].
  destruct query as [|q0 query']; [done|].
  cbn [is_empty orb]. cbv zeta. by rewrite Hw.
Qed.

Lemma wordless_query_scores_length_witness :
  _semantic_match_score Examples.rich_page (lit "un de la")
  = inr (if 200 <? len Examples.rich_page then 20 else 0).
Proof.
  apply (wordless_query_scores_length Examples.rich_page (lit "un de la")).
  - vm_compute. reflexivity.
  - vm_compute. reflexivity.
Defined.

(* --------------------------------------------------------------------- *)
(** ** LinkScorer: what the list of candidates guarantees *)
(* --------------------------------------------------------------------- *)

Lemma insert_by_score_perm x l : insert_by_score x l ≡ₚ x :: l.
Proof.
  induction l as [|y r IH]; [done|]. cbn [insert_by_score].
  destruct (snd x <? snd y); [|done].
  rewrite IH. apply Permutation_swap.
Qed.

Lemma sort_by_score_perm l : sort_by_score l ≡ₚ l.
Proof.
  induction l as [|x l IH]; [done|]. cbn [sort_by_score fold_right].
  rewrite insert_by_score_perm. by constructor.
Qed.

Lemma insert_by_score_sorted x l :
  StronglySorted by_decreasing_score l ->
  StronglySorted by_decreasing_score (insert_by_score x l).
Proof.
  induction 1 as [|y r Hr IH Hy]; cbn [insert_by_score].
  - repeat constructor.
  - destruct (snd x <? snd y) eqn:E.
    + apply Z.ltb_lt in E. constructor; [done|].
      rewrite insert_by_score_perm.
      constructor; [unfold by_decreasing_score; lia|done].
    + apply Z.ltb_ge in E. constructor; [by constructor|].
      constructor; [done|].
      eapply Forall_impl; [exact Hy|]. unfold by_decreasing_score. intros; lia.
Qed.

Lemma insert_by_score_stable k x l :
  List.filter (fun y => snd y =? k) (insert_by_score x l)
  = List.filter (fun y => snd y =? k) (x :: l).
Proof.
  induction l as [|y r IH]; [done|]. cbn [insert_by_score].
  destruct (snd x <? snd y) eqn:E; [|done].
  apply Z.ltb_lt in E. cbn [List.filter] in *.
  destruct (snd y =? k) eqn:Ey.
  - apply Z.eqb_eq in Ey. rewrite IH.
    by rewrite (proj2 (Z.eqb_neq (snd x) k)) by lia.
  - rewrite IH. done.
Qed.

(** X4. The sort of the candidates keeps every candidate, puts them by
    decreasing score, and leaves candidates of equal score in their order
    of discovery. *)
Theorem sort_by_score_stable_sort (l : list (pystr * Z)) :
  sort_by_score l ≡ₚ l
  /\ StronglySorted by_decreasing_score (sort_by_score l)
  /\ forall k, List.filter (fun y => snd y =? k) (sort_by_score l)
               = List.filter (fun y => snd y =? k) l.
Proof.
  split; [apply sort_by_score_perm|]. split.
  - induction l as [|x l IH]; [constructor|].
    cbn [sort_by_score fold_right]. by apply insert_by_score_sorted.
  - intros k. induction l as [|x l IH]; [done|].
    cbn [sort_by_score fold_right]. rewrite insert_by_score_stable.
    cbn [List.filter]. fold (sort_by_score l). by rewrite IH.
Qed.

Lemma link_word_score_bounds combined url_path score word :
  score <= link_word_score combined url_path score word <= score + 50.
Proof. unfold link_word_score. repeat case_match; lia. Qed.

Lemma link_bonus_score_bounds combined score iw :
  score <= link_bonus_score combined score iw <= score + 10.
Proof. unfold link_bonus_score. case_match; lia. Qed.

(** X5. The score of a link is never negative and at most 50 for each
    query word plus 10 for each of the seven high-value terms: it is not
    capped at 100. *)
Theorem link_score_bounds (query_words : list pystr) (link_text url_path : pystr) :
  0 <= link_score query_words link_text url_path <= 50 * len query_words + 70.
Proof.
  unfold link_score. cbv zeta.
  set (combined := link_text ++ [SPACE] ++ url_path).
  assert (forall ws s, s <= fold_left (link_word_score combined url_path) ws s
                       <= s + 50 * len ws) as Hw.
  { induction ws as [|w ws IH]; intros s; cbn [fold_left].
    - unfold len. cbn. lia.
    - pose proof (link_word_score_bounds combined url_path s w).
      specialize (IH (link_word_score combined url_path s w)).
      unfold len in *. rewrite length_cons. lia. }
  assert (forall ws s, s <= fold_left (link_bonus_score combined) ws s
                       <= s + 10 * len ws) as Hb.
  { induction ws as [|w ws IH]; intros s; cbn [fold_left].
    - unfold len. cbn. lia.
    - pose proof (link_bonus_score_bounds combined s w).
      specialize (IH (link_bonus_score combined s w)).
      unfold len in *. rewrite length_cons. lia. }
  specialize (Hw query_words 0).
  specialize (Hb important_words
                (fold_left (link_word_score combined url_path) query_words 0)).
  change (len important_words) with 7 in Hb. lia.
Qed.

Lemma sort_by_score_sorted l : StronglySorted by_decreasing_score (sort_by_score l).
Proof.
  induction l as [|x l IH]; [constructor|].
  cbn [sort_by_score fold_right]. by apply insert_by_score_sorted.
Qed.

Lemma score_anchor_inv W base_url base_domain query_words all_anchors acc link acc' :
  netloc W base_url = Some base_domain ->
  In link all_anchors ->
  anchors_inv W base_url all_anchors acc ->
  score_anchor W base_url base_domain query_words acc link = inr acc' ->
  anchors_inv W base_url all_anchors acc'.
Proof.
  intros Hbase Hlink Hacc. destruct acc as [scored seen].
  destruct Hacc as (Hk & Hn & Hs). cbn [fst snd] in *.
  unfold score_anchor. cbv zeta.
  destruct (startswith (lit "#") _ || _ || _); [by intros [= <-]|].
  destruct (urljoin W base_url (strip (fst link))) as [full_url|] eqn:Ejoin;
    [|done].
  destruct (netloc W full_url) as [domain|] eqn:Edom; [|done].
  destruct (bool_decide (domain = base_domain)) eqn:Enet;
    cbn [negb]; [|by intros [= <-]].
  apply bool_decide_eq_true_1 in Enet. subst domain.
  fold (clean_link full_url).
  set (clean_url := clean_link _).
  destruct (bool_decide (clean_url ∈ seen)) eqn:Eseen; cbn [orb];
    [by intros [= <-]|].
  apply bool_decide_eq_false_1 in Eseen.
  destruct (bool_decide (clean_url = base_url)) eqn:Ebase; [by intros [= <-]|].
  apply bool_decide_eq_false_1 in Ebase.
  assert (forall c, In c scored -> fst c ∈ {[clean_url]} ∪ seen) as Hs'.
  { intros c Hc. apply elem_of_union. right. by apply Hs. }
  destruct (existsb _ excluded_terms) eqn:Eex; [by intros [= <-]|].
  set (score := link_score _ _ _).
  destruct (0 <? score) eqn:Epos; [|by intros [= <-]].
  intros [= <-].
  apply Z.ltb_lt in Epos. split; [|split]; cbn [fst snd].
  - apply Forall_app. split; [done|]. constructor; [|constructor].
    unfold kept_link. cbn [fst snd]. repeat split; try done.
    exists link, full_url, base_domain. by repeat split.
  - rewrite map_app. cbn [map fst]. apply NoDup_app. split; [done|].
    split; [|apply NoDup_singleton].
    intros u Hu Hu'. apply list_elem_of_singleton in Hu'. subst u.
    apply list_elem_of_In, in_map_iff in Hu as (c & Hc1 & Hc2).
    apply Eseen. rewrite <- Hc1. by apply Hs.
  - intros c Hc. apply in_app_iff in Hc as [Hc|[<-|[]]].
    + by apply Hs'.
    + cbn [fst]. apply elem_of_union. left. by apply elem_of_singleton.
Qed.

Lemma score_anchors_inv W base_url base_domain query_words all_anchors anchors :
  forall acc acc',
    netloc W base_url = Some base_domain ->
    (forall link, In link anchors -> In link all_anchors) ->
    anchors_inv W base_url all_anchors acc ->
    for_each (score_anchor W base_url base_domain query_words) anchors acc
    = inr acc' ->
    anchors_inv W base_url all_anchors acc'.
Proof.
  induction anchors as [|link anchors IH]; intros acc acc' Hbase Hsub Hacc;
    cbn [for_each]; [by intros [= <-]|].
  destruct (score_anchor W base_url base_domain query_words acc link)
    as [e|acc1] eqn:E1; [done|].
  apply IH; [done| |].
  - intros l Hl. apply Hsub. by right.
  - eapply score_anchor_inv; [exact Hbase| |exact Hacc|exact E1].
    apply Hsub. by left.
Qed.

Lemma anchors_inv_start W base_url all_anchors :
  anchors_inv W base_url all_anchors ([], ∅).
Proof. split; [constructor|]. split; [constructor|]. intros c []. Qed.

(** What link discovery returns when it returns: nothing for a page that
    cannot be fetched, the sorted candidates of its anchors otherwise. *)
Lemma scored_links_cases W base_url query st links :
  fst (_get_scored_internal_links W base_url query st) = inr links ->
  (http_get W (request_count (log st)) base_url = None /\ links = [])
  \/ exists resp base_domain acc,
       http_get W (request_count (log st)) base_url = Some resp
       /\ netloc W base_url = Some base_domain
       /\ for_each (score_anchor W base_url base_domain (link_query_words query))
            (soup_anchors (resp_soup resp)) ([], ∅) = inr acc
       /\ links = sort_by_score (fst acc).
Proof.
  unfold _get_scored_internal_links, session_get.
  destruct (http_get W _ base_url) as [resp|]; [|intros [= <-]; by left].
  destruct (netloc W base_url) as [base_domain|]; [|done]. cbv zeta.
  destruct (for_each _ _ _) as [e|[scored seen]] eqn:E; [done|].
  intros [= <-]. right. by exists resp, base_domain, (scored, seen).
Qed.

Lemma scored_links_inv W base_url query st resp links :
  http_get W (request_count (log st)) base_url = Some resp ->
  fst (_get_scored_internal_links W base_url query st) = inr links ->
  Forall (kept_link W base_url (soup_anchors (resp_soup resp))) links
  /\ NoDup (map fst links).
Proof.
  intros Hget Hlinks.
  destruct (scored_links_cases _ _ _ _ _ Hlinks)
    as [[Hnone _]|(resp' & base_domain & acc & Hget' & Hbase & Hacc & ->)];
    [congruence|].
  assert (resp' = resp) as -> by congruence.
  destruct (score_anchors_inv W base_url base_domain (link_query_words query)
              (soup_anchors (resp_soup resp)) (soup_anchors (resp_soup resp))
              ([], ∅) acc Hbase ltac:(done) (anchors_inv_start _ _ _) Hacc)
    as (Hk & Hn & _).
  split.
  - by rewrite sort_by_score_perm.
  - assert (map fst (sort_by_score (fst acc)) ≡ₚ map fst (fst acc)) as ->
      by apply Permutation_map, sort_by_score_perm.
    exact Hn.
Qed.

(** X6. Every candidate the link scorer returns has a positive score, is
    not the page itself, holds none of the excluded terms, and is the
    cleaned target of an anchor of the page on the domain of the page. *)
Theorem scored_links_are_checked (W : World) (base_url query : pystr) (st : State)
    (resp : Response) (links : list (pystr * Z)) (candidate : pystr * Z) :
  http_get W (request_count (log st)) base_url = Some resp ->
  fst (_get_scored_internal_links W base_url query st) = inr links ->
  In candidate links ->
  kept_link W base_url (soup_anchors (resp_soup resp)) candidate.
Proof.
  intros Hget Hlinks Hin.
  destruct (scored_links_inv _ _ _ _ _ _ Hget Hlinks) as [Hk _].
  rewrite Forall_forall in Hk. apply Hk. by apply list_elem_of_In.
Qed.

Lemma scored_links_are_checked_witness :
  kept_link Examples.W_deep Examples.site
    [(lit "/stage", lit "Offres"); (lit "/stage-mitacs", lit "Mitacs");
     (lit "/stage-mitacs-all", lit "Tout")]
    (Examples.page_B, 110).
Proof.
  apply (scored_links_are_checked Examples.W_deep Examples.site
           (lit "stage mitacs") Examples.st_init
           (Examples.html_page (lit "Bienvenue")
              [(lit "/stage", lit "Offres"); (lit "/stage-mitacs", lit "Mitacs");
               (lit "/stage-mitacs-all", lit "Tout")])
           [(Examples.page_A, 120); (Examples.page_B, 110); (Examples.page_C, 60)]
           (Examples.page_B, 110)).
  - vm_compute. reflexivity.
  - vm_compute. reflexivity.
  - right. left. reflexivity.
Defined.

(** X7. The list the link scorer returns is by decreasing score and holds
    no URL twice; it is empty when the page cannot be fetched. *)
Theorem scored_links_sorted_without_duplicates (W : World) (base_url query : pystr)
    (st : State) :
  (forall links,
     fst (_get_scored_internal_links W base_url query st) = inr links ->
     StronglySorted by_decreasing_score links /\ NoDup (map fst links))
  /\ (http_get W (request_count (log st)) base_url = None ->
      fst (_get_scored_internal_links W base_url query st) = inr []).
Proof.
  split.
  - intros links Hlinks.
    destruct (scored_links_cases _ _ _ _ _ Hlinks)
      as [[_ ->]|(resp & base_domain & acc & Hget & _ & _ & Heq)].
    + split; constructor.
    + split; [subst links; apply sort_by_score_sorted|].
      by destruct (scored_links_inv _ _ _ _ _ _ Hget Hlinks).
  - intros Hnone. unfold _get_scored_internal_links, session_get.
    by rewrite Hnone.
Qed.

Lemma scored_links_sorted_without_duplicates_witness :
  (StronglySorted by_decreasing_score
     [(Examples.page_A, 120); (Examples.page_B, 110); (Examples.page_C, 60)]
   /\ NoDup (map fst [(Examples.page_A, 120); (Examples.page_B, 110);
                     (Examples.page_C, 60)]))
  /\ fst (_get_scored_internal_links Examples.W_down Examples.site
            (lit "stage mitacs") Examples.st_init) = inr [].
Proof.
  split.
  - apply (proj1 (scored_links_sorted_without_duplicates Examples.W_deep
                    Examples.site (lit "stage mitacs") Examples.st_init)).
    vm_compute. reflexivity.
  - apply (proj2 (scored_links_sorted_without_duplicates Examples.W_down
                    Examples.site (lit "stage mitacs") Examples.st_init)).
    reflexivity.
Defined.









(* --------------------------------------------------------------------- *)
(** ** CrawlController: exceptions, budget, running best *)
(* --------------------------------------------------------------------- *)





Section CrawlMore.

Variable W : World.






End CrawlMore.









(* --------------------------------------------------------------------- *)
(** ** CrawlController: the page budget *)
(* --------------------------------------------------------------------- *)

Lemma page_fetches_app l1 l2 :
  page_fetches (l1 ++ l2) = (page_fetches l1 + page_fetches l2)%nat.
Proof. unfold page_fetches. by rewrite List.filter_app, length_app. Qed.

Lemma page_fetches_quiet new : quiet new -> page_fetches new = 0%nat.
Proof.
  unfold page_fetches. induction 1 as [|e new He _ IH]; [done|].
  cbn [List.filter]. destruct e as [[]| | |]; done.
Qed.

Section Budget.

Variable W : World.

Lemma single_page_fetches url epc st :
  (page_fetches (log (snd (_extract_single_page W url epc st)))
   <= page_fetches (log st) + 1)%nat.
Proof.
  destruct (decide (url ∈ visited_urls st)) as [Hin|Hnin].
  { rewrite single_page_visited by done. cbn [snd]. lia. }
  destruct (single_page_fresh W url epc st Hnin) as [_ (new & -> & Hq)].
  change (EGet PageFetch url :: new) with ([EGet PageFetch url] ++ new).
  rewrite !page_fetches_app, (page_fetches_quiet new Hq). cbn. lia.
Qed.

Lemma explore_page_fetches q epc cand b st :
  (page_fetches (log (turn_state (explore_page W q epc cand b st)))
   <= page_fetches (log st) + 1)%nat.
Proof.
  unfold explore_page. destruct cand as [u t].
  case_match; [cbn [turn_state]; lia|].
  destruct (page_name u); [|cbn [turn_state]; lia].
  pose proof (single_page_fetches u epc st) as Hp.
  destruct (_extract_single_page W u epc st) as [c st1]. cbn [snd] in Hp.
  repeat case_match; done.
Qed.

Lemma explore_fetches q epc cands : forall b st,
  (page_fetches (log (turn_state (explore W q epc cands b st)))
   <= page_fetches (log st) + length cands)%nat.
Proof.
  induction cands as [|x cands IH]; intros b st; cbn [explore length].
  - cbn [turn_state]. lia.
  - pose proof (explore_page_fetches q epc x b st) as H1.
    destruct (explore_page W q epc x b st) as [b1 st1| | |];
      cbn [turn_state] in *; try lia.
    specialize (IH b1 st1). lia.
Qed.

Lemma slice_to_length {A} (n : Z) (l : list A) :
  0 <= n -> (length (slice_to n l) <= Z.to_nat n)%nat.
Proof.
  intros Hn. unfold slice_to. rewrite (proj2 (Z.leb_le 0 n) Hn).
  rewrite length_take. lia.
Qed.

End Budget.

(** X9. The page budget: with a non-negative [max_pages], one call makes
    at most [1 + max_pages] requests of pages, the start page among them. *)
Theorem crawl_respects_page_budget (W : World) (url : pystr) (max_pages : Z)
    (deep_crawl extract_pdf_content : bool) (keywords : option (list pystr))
    (st : State) :
  0 <= max_pages ->
  (page_fetches (log (snd (extract_site_content W url max_pages deep_crawl
                             extract_pdf_content keywords st)))
   <= page_fetches (log st) + 1 + Z.to_nat max_pages)%nat.
Proof.
  intros Hmax. unfold extract_site_content.
  pose proof (single_page_fetches W url extract_pdf_content (reset st)) as H1.
  destruct (_extract_single_page W url extract_pdf_content (reset st))
    as [[e|main] st1]; cbn [snd] in H1;
    change (log (reset st)) with (log st) in H1; [cbn [snd]; lia|].
  set (fast := if negb (is_empty main) then _ else None).
  destruct fast as [[e|r]|]; cbn [snd]; try lia.
  destruct (negb deep_crawl); cbn [snd]; [lia|].
  pose proof (links_effect W url (build_query keywords) st1) as H2.
  destruct (_get_scored_internal_links W url (build_query keywords) st1)
    as [links st2]. cbn [snd] in H2. cbv zeta in H2.
  assert (page_fetches (log st2) = page_fetches (log st1)) as H2'.
  { rewrite H2. unfold emit. cbn [log]. rewrite page_fetches_app. cbn. lia. }
  destruct links as [e|links]; cbn [snd]; [lia|].
  destruct (is_empty links); cbn [snd]; [lia|].
  match goal with |- context [match ?x with inl _ => _ | inr _ => _ end] =>
    destruct x as [e|score0] end; cbn [snd]; [lia|].
  pose proof (slice_to_length max_pages links Hmax) as Hlen.
  match goal with |- context [explore W ?q ?e ?c ?b ?s] =>
    pose proof (explore_fetches W q e c b s) as H3;
    destruct (explore W q e c b s) as [b' st3|b' st3|r st3|e' st3] end;
    cbn [turn_state snd] in *; lia.
Qed.

Lemma crawl_respects_page_budget_witness :
  (page_fetches (log (snd (extract_site_content Examples.W_deep Examples.site 1
                             true false Examples.keywords Examples.st_init)))
   <= page_fetches (log Examples.st_init) + 1 + Z.to_nat 1)%nat.
Proof.
  apply (crawl_respects_page_budget Examples.W_deep Examples.site 1 true false
           Examples.keywords Examples.st_init).
  lia.
Defined.

(** X10. Without deep crawl the call makes no request of link discovery:
    it returns the formatted start page, whatever its score, and ends in
    the state the extraction of the start page left; when that extraction
    raises, the call raises the same exception. *)
Theorem shallow_crawl_is_the_start_page (W : World) (url : pystr) (max_pages : Z)
    (extract_pdf_content : bool) (keywords : option (list pystr)) (st : State) :
  let page := _extract_single_page W url extract_pdf_content (reset st) in
  extract_site_content W url max_pages false extract_pdf_content keywords st
  = (match fst page with
     | inr content => inr (_format_result (snd page) content url 0)
     | inl e => inl e
     end, snd page).
Proof.
  cbv zeta. unfold extract_site_content.
  destruct (_extract_single_page W url extract_pdf_content (reset st))
    as [[e|main] st1]; cbn [fst snd]; [done|].
  destruct (semantic_match_score_bounds main (build_query keywords))
    as (s & -> & _).
  destruct (negb (is_empty main)); [|done].
  by destruct (60 <=? s).
Qed.

(* --------------------------------------------------------------------- *)
(** ** CrawlController: the running best, the visited set, the PDF links *)
(* --------------------------------------------------------------------- *)

Section RunningBest.

Variable W : World.

Lemma explore_page_best q epc cand b st :
  match turn_best (explore_page W q epc cand b st) with
  | Some b' =>
      best_score b <= best_score b'
      /\ pages_explored b <= pages_explored b' <= pages_explored b + 1
      /\ (best_url b' = best_url b \/ best_url b' = fst cand)
  | None => True
  end.
Proof.
  unfold explore_page. destruct cand as [u t].
  destruct (bool_decide (u ∈ visited_urls st)).
  { cbn [turn_best]. split; [lia|]. split; [lia|]. by left. }
  destruct (page_name u); [|done].
  destruct (_extract_single_page W u epc st) as [[e|c] st1]; [done|].
  destruct (is_empty c).
  { cbn [turn_best best_score pages_explored best_url].
    split; [lia|]. split; [lia|]. by left. }
  destruct (_semantic_match_score c q) as [e|s]; [done|].
  cbv zeta. cbn [best_score pages_explored].
  destruct (70 <=? (t + s) / 2); [done|].
  destruct (best_score b <? (t + s) / 2) eqn:E;
    [apply Z.ltb_lt in E|apply Z.ltb_ge in E];
    cbn [best_score pages_explored];
    destruct (_ && _); cbn [turn_best best_score pages_explored best_url fst];
    (split; [lia|]); (split; [lia|]); auto.
Qed.

End RunningBest.

(** X11. Across the exploration loop the score of the running best never
    decreases, the page counter grows by at most one for each candidate,
    and the URL of the running best is the one the loop started with or one
    of the candidates. *)
Theorem running_best_never_decreases (W : World) (q : pystr) (epc : bool)
    (candidates : list (pystr * Z)) (b : Best) (st : State) :
  match turn_best (explore W q epc candidates b st) with
  | Some b' =>
      best_score b <= best_score b'
      /\ pages_explored b <= pages_explored b' <= pages_explored b + len candidates
      /\ (best_url b' = best_url b \/ In (best_url b') (map fst candidates))
  | None => True
  end.
Proof.
  revert b st. induction candidates as [|x cands IH]; intros b st; cbn [explore].
  - cbn [turn_best]. unfold len. cbn [length].
    split; [lia|]. split; [lia|]. by left.
  - pose proof (explore_page_best W q epc x b st) as H1.
    destruct (explore_page W q epc x b st) as [b1 st1|b1 st1|r st1|e st1];
      cbn [turn_best] in *; try done.
    + specialize (IH b1 st1).
      destruct (turn_best (explore W q epc cands b1 st1)) as [b'|]; [|done].
      unfold len in *. rewrite length_cons. cbn [map].
      destruct H1 as (? & ? & [Hu|Hu]), IH as (? & ? & [Hu'|Hu']);
        (split; [lia|]); (split; [lia|]).
      * left. congruence.
      * right. by right.
      * right. left. congruence.
      * right. by right.
    + unfold len. rewrite length_cons. cbn [map].
      destruct H1 as (? & ? & [Hu|Hu]); (split; [lia|]); (split; [lia|]).
      * by left.
      * right. by left.
Qed.

(** X12. Whatever the outcome of the request, a URL given to the page
    extractor is marked visited, and giving it again returns the empty
    string with no request and no change of state. *)
Theorem single_page_is_not_retried (W : World) (url : pystr) (epc epc' : bool)
    (st : State) :
  let st' := snd (_extract_single_page W url epc st) in
  url ∈ visited_urls st'
  /\ _extract_single_page W url epc' st' = (inr [], st').
Proof.
  cbv zeta.
  assert (url ∈ visited_urls (snd (_extract_single_page W url epc st))) as Hv.
  { destruct (decide (url ∈ visited_urls st)) as [Hin|Hnin].
    - by rewrite single_page_visited.
    - destruct (single_page_fresh W url epc st Hnin) as [-> _].
      apply elem_of_union. left. by apply elem_of_singleton. }
  split; [done|]. by apply single_page_visited.
Qed.

(** X13. A candidate that cannot be fetched is skipped: it is marked
    visited, it counts as an explored page, and the running best is left as
    it was. *)
Theorem unreachable_candidate_is_skipped (W : World) (q : pystr) (epc : bool)
    (page_url : pystr) (title_score : Z) (b : Best) (st : State) :
  page_url ∉ visited_urls st ->
  page_url <> [] ->
  http_get W (request_count (log st)) page_url = None ->
  exists st',
    explore_page W q epc (page_url, title_score) b st
    = Next {| best_content := best_content b; best_score := best_score b;
              best_url := best_url b; pages_explored := pages_explored b + 1 |}
           st'
    /\ page_url ∈ visited_urls st'
    /\ log st' = log st ++ [EGet PageFetch page_url].
Proof.
  intros Hfresh Hurl Hget. unfold explore_page.
  rewrite bool_decide_eq_false_2 by done.
  destruct (page_name_defined page_url Hurl) as [name ->].
  unfold _extract_single_page, session_get.
  rewrite bool_decide_eq_false_2 by done.
  change (log (set_visited _ st)) with (log st). rewrite Hget. cbn [is_empty].
  eexists. split; [done|]. split; [|done].
  cbn. apply elem_of_union. left. by apply elem_of_singleton.
Qed.

Lemma unreachable_candidate_is_skipped_witness :
  exists st',
    explore_page Examples.W_deep DeepCrawl.query false (Examples.page_A, 120)
      DeepCrawl.start_best DeepCrawl.st2
    = Next {| best_content := best_content DeepCrawl.start_best;
              best_score := best_score DeepCrawl.start_best;
              best_url := best_url DeepCrawl.start_best;
              pages_explored := pages_explored DeepCrawl.start_best + 1 |} st'
    /\ Examples.page_A ∈ visited_urls st'
    /\ log st' = log DeepCrawl.st2 ++ [EGet PageFetch Examples.page_A].
Proof.
  apply (unreachable_candidate_is_skipped Examples.W_deep DeepCrawl.query false
           Examples.page_A 120 DeepCrawl.start_best DeepCrawl.st2).
  - apply (bool_decide_eq_false_1 (Examples.page_A ∈ visited_urls DeepCrawl.st2)).
    vm_compute. reflexivity.
  - discriminate.
  - vm_compute. reflexivity.
Defined.

Section PdfLinks.

Variable W : World.

(** A PDF download leaves the list of PDF links alone. *)
Lemma pdf_keeps_links url st :
  pdf_links (snd (_extract_pdf_from_url_advanced W url st)) = pdf_links st.
Proof.
  unfold _extract_pdf_from_url_advanced, session_get.
  destruct (http_get W _ url) as [resp|]; [|done].
  destruct (_ && _); [done|].
  set (p := mktemp W _). set (st2 := emit (ETmpWrite p) _).
  assert (forall s, pdf_links (snd (_extract_pdf_strategy1 W p s)) = pdf_links s)
    as K1 by (intros s; unfold _extract_pdf_strategy1; by repeat case_match).
  assert (forall s, pdf_links (snd (_extract_pdf_strategy2 W p s)) = pdf_links s)
    as K2 by (intros s; unfold _extract_pdf_strategy2; by repeat case_match).
  assert (forall s, pdf_links (snd (_extract_pdf_strategy3 W p s)) = pdf_links s)
    as K3 by (intros s; unfold _extract_pdf_strategy3; by repeat case_match).
  specialize (K1 st2).
  assert (pdf_links st2 = pdf_links st) as K0 by done.
  destruct (_extract_pdf_strategy1 W p st2) as [[pages1|] st3]; cbn [snd] in K1;
    [|cbn [snd]; congruence].
  assert (pdf_links st3 = pdf_links st) as K1' by congruence.
  assert (exists pages2 st4,
    (if total_chars pages1 <? 200 then _extract_pdf_strategy2 W p st3
     else (pages1, st3)) = (pages2, st4) /\ pdf_links st4 = pdf_links st)
    as (pages2 & st4 & -> & H4).
  { destruct (total_chars pages1 <? 200); [|by eauto].
    specialize (K2 st3).
    destruct (_extract_pdf_strategy2 W p st3) as [x y]. cbn [snd] in K2.
    do 2 eexists. split; [done|]. congruence. }
  assert (exists r3 st5,
    (if total_chars pages2 <? 200 then _extract_pdf_strategy3 W p st4
     else (Some pages2, st4)) = (r3, st5) /\ pdf_links st5 = pdf_links st)
    as (r3 & st5 & -> & H5).
  { destruct (total_chars pages2 <? 200); [|by eauto].
    specialize (K3 st4).
    destruct (_extract_pdf_strategy3 W p st4) as [x y]. cbn [snd] in K3.
    do 2 eexists. split; [done|]. congruence. }
  destruct r3 as [pages3|]; [|done].
  by destruct (_ || _).
Qed.

Lemma scan_file_link_nodup epc link acc :
  NoDup (pdf_links (snd acc)) ->
  NoDup (pdf_links (snd (scan_file_link W epc acc link))).
Proof.
  destruct acc as [[contents n] st]. unfold scan_file_link. cbn [snd].
  intros Hn.
  destruct (endswith (lit ".pdf") (lower link)); cbn [andb]; [|done].
  destruct (bool_decide (link ∈ pdf_links st)) eqn:E; cbn [negb]; [done|].
  apply bool_decide_eq_false_1 in E.
  assert (NoDup (pdf_links (add_pdf_link link st))) as Hn'.
  { unfold add_pdf_link, set_pdf_links. cbn [pdf_links].
    apply NoDup_app. split; [done|]. split; [|apply NoDup_singleton].
    intros x Hx Hx'. apply list_elem_of_singleton in Hx'. by subst x. }
  destruct (epc && _); [|done].
  pose proof (pdf_keeps_links link (add_pdf_link link st)) as Hk.
  destruct (_extract_pdf_from_url_advanced W link _) as [c st']. cbn [snd] in Hk.
  destruct (_ && _); cbn [snd]; by rewrite Hk.
Qed.

Lemma scan_file_links_nodup epc links : forall acc,
  NoDup (pdf_links (snd acc)) ->
  NoDup (pdf_links (snd (fold_left (scan_file_link W epc) links acc))).
Proof.
  induction links as [|l links IH]; intros acc Hn; cbn [fold_left]; [done|].
  by apply IH, scan_file_link_nodup.
Qed.

Lemma single_page_nodup url epc st :
  NoDup (pdf_links st) ->
  NoDup (pdf_links (snd (_extract_single_page W url epc st))).
Proof.
  intros Hn. unfold _extract_single_page, session_get.
  destruct (bool_decide (url ∈ visited_urls st)); [done|].
  set (st1 := emit (EGet PageFetch url) (set_visited _ st)).
  assert (NoDup (pdf_links st1)) as Hn1 by done.
  destruct (http_get W _ url) as [resp|]; [|done].
  destruct (_ || _).
  - set (st2 := if bool_decide (url ∈ pdf_links st1) then st1 else _).
    assert (NoDup (pdf_links st2)) as Hn2.
    { subst st2. destruct (bool_decide (url ∈ pdf_links st1)) eqn:E; [done|].
      apply bool_decide_eq_false_1 in E.
      unfold add_pdf_link, set_pdf_links. cbn [pdf_links].
      apply NoDup_app. split; [done|]. split; [|apply NoDup_singleton].
      intros x Hx Hx'. apply list_elem_of_singleton in Hx'. by subst x. }
    destruct epc; [|done].
    pose proof (pdf_keeps_links url st2) as Hk.
    destruct (_extract_pdf_from_url_advanced W url st2) as [document st3].
    cbn [snd] in *. by rewrite Hk.
  - destruct (_extract_file_links W _ url) as [e|links0]; [done|].
    destruct (for_each _ _ links0) as [e|links]; [done|].
    pose proof (scan_file_links_nodup epc links ([], 0, st1) Hn1) as Hq.
    destruct (fold_left (scan_file_link W epc) _ _) as [[contents n] st2].
    cbn [snd] in Hq. by repeat case_match.
Qed.

Lemma explore_page_nodup q epc cand b st :
  NoDup (pdf_links st) ->
  NoDup (pdf_links (turn_state (explore_page W q epc cand b st))).
Proof.
  intros Hn. unfold explore_page. destruct cand as [u t].
  destruct (bool_decide (u ∈ visited_urls st)); [done|].
  destruct (page_name u); [|done].
  pose proof (single_page_nodup u epc st Hn) as Hp.
  destruct (_extract_single_page W u epc st) as [c st1]. cbn [snd] in Hp.
  by repeat case_match.
Qed.

Lemma explore_nodup q epc cands : forall b st,
  NoDup (pdf_links st) ->
  NoDup (pdf_links (turn_state (explore W q epc cands b st))).
Proof.
  induction cands as [|x cands IH]; intros b st Hn; cbn [explore]; [done|].
  pose proof (explore_page_nodup q epc x b st Hn) as H1.
  destruct (explore_page W q epc x b st) as [b1 st1| | |]; try done.
  by apply IH.
Qed.

End PdfLinks.

Lemma dedup_keep_first_nodup (l : list pystr) : forall seen,
  (forall x, x ∈ l -> x ∉ seen) -> NoDup l -> dedup_keep_first seen l = l.
Proof.
  induction l as [|x l IH]; intros seen Hs Hn; [done|].
  cbn [dedup_keep_first]. apply NoDup_cons in Hn as [Hx Hn].
  rewrite bool_decide_eq_false_2 by (apply Hs; left).
  f_equal. apply IH; [|done].
  intros y Hy Hy'. apply elem_of_cons in Hy' as [->|Hy']; [done|].
  by apply (Hs y); [right|].
Qed.

(** X14. The list of PDF links a call ends with holds no link twice, so
    the removal of duplicates in [_format_result] changes nothing: the PDF
    line names the first three links discovered. *)
Theorem discovered_pdf_links_are_distinct (W : World) (url : pystr) (max_pages : Z)
    (deep_crawl extract_pdf_content : bool) (keywords : option (list pystr))
    (st : State) :
  let st' := snd (extract_site_content W url max_pages deep_crawl
                    extract_pdf_content keywords st) in
  NoDup (pdf_links st')
  /\ dedup_keep_first [] (pdf_links st') = pdf_links st'.
Proof.
  cbv zeta.
  assert (NoDup (pdf_links (snd (extract_site_content W url max_pages deep_crawl
                                   extract_pdf_content keywords st)))) as Hn.
  { unfold extract_site_content.
    pose proof (single_page_nodup W url extract_pdf_content (reset st)
                  ltac:(constructor)) as H1.
    destruct (_extract_single_page W url extract_pdf_content (reset st))
      as [[e|main] st1]; cbn [snd] in H1; [done|].
    set (fast := if negb (is_empty main) then _ else None).
    destruct fast as [[e|r]|]; cbn [snd]; try done.
    destruct (negb deep_crawl); cbn [snd]; [done|].
    pose proof (links_effect W url (build_query keywords) st1) as H2.
    destruct (_get_scored_internal_links W url (build_query keywords) st1)
      as [links st2]. cbn [snd] in H2. cbv zeta in H2.
    assert (NoDup (pdf_links st2)) as Hn2 by by rewrite H2.
    destruct links as [e|links]; cbn [snd]; [done|].
    destruct (is_empty links); cbn [snd]; [done|].
    match goal with |- context [match ?x with inl _ => _ | inr _ => _ end] =>
      destruct x as [e|score0] end; cbn [snd]; [done|].
    match goal with |- context [explore W ?q ?e ?c ?b ?s] =>
      pose proof (explore_nodup W q e c b s Hn2) as H3;
      destruct (explore W q e c b s) as [b' st3|b' st3|r st3|e' st3] end;
      by cbn [turn_state snd] in *. }
  split; [done|]. apply dedup_keep_first_nodup; [|done].
  intros x _ Hx. by apply elem_of_nil in Hx.
Qed.

(* --------------------------------------------------------------------- *)
(** ** ResultFormatter: what cleaning guarantees *)
(* --------------------------------------------------------------------- *)

Lemma lstrip_split s : exists a, s = a ++ lstrip s.
Proof.
  induction s as [|c s [a IH]]; [by exists []|]. cbn [lstrip].
  destruct (is_space c); [|by exists []].
  exists (c :: a). cbn. by rewrite <- IH.
Qed.

(** What is stripped is a part of the string. *)
Lemma strip_split s : exists a b, s = a ++ strip s ++ b.
Proof.
  unfold strip. destruct (lstrip_split s) as [a Ha].
  destruct (lstrip_split (rev (lstrip s))) as [b Hb].
  exists a, (rev b). rewrite <- rev_app_distr, <- Hb, rev_involutive. exact Ha.
Qed.

Lemma startswith_app_l w s b : startswith w s = true -> startswith w (s ++ b) = true.
Proof.
  revert s. induction w as [|x w IH]; intros [|y s] H; cbn in *; try done.
  apply andb_true_iff in H as [-> H]. cbn. by apply IH.
Qed.

Lemma contains_app_l w s b : contains w s = true -> contains w (s ++ b) = true.
Proof.
  induction s as [|c s IH]; cbn [contains app].
  - rewrite orb_false_r. intros H. destruct w; [|done]. by destruct b.
  - intros H. apply orb_true_iff in H as [H|H].
    + change (c :: s ++ b) with ((c :: s) ++ b).
      by rewrite (startswith_app_l w (c :: s) b H).
    + rewrite (IH H). apply orb_true_r.
Qed.

Lemma contains_part w a s b :
  contains w (a ++ s ++ b) = false -> contains w s = false.
Proof.
  intros H. destruct (contains w s) eqn:E; [|done].
  rewrite contains_app_r in H; [done|]. by apply contains_app_l.
Qed.

Lemma lstrip_head s : lstrip s = [] \/ exists c r, lstrip s = c :: r /\ is_space c = false.
Proof.
  induction s as [|c s IH]; [by left|]. cbn [lstrip].
  destruct (is_space c) eqn:E; [done|]. right. eauto.
Qed.

Lemma lstrip_fixed c r : is_space c = false -> lstrip (c :: r) = c :: r.
Proof. intros H. cbn [lstrip]. by rewrite H. Qed.

Lemma lstrip_snoc l c :
  is_space c = false -> exists t, lstrip (l ++ [c]) = t ++ [c].
Proof.
  intros Hc. induction l as [|x l [t IH]]; cbn [app lstrip].
  - rewrite Hc. by exists [].
  - destruct (is_space x); [by exists t|]. by exists (x :: l).
Qed.

Lemma lstrip_idempotent s : lstrip (lstrip s) = lstrip s.
Proof.
  destruct (lstrip_head s) as [->|(c & r & -> & Hc)]; [done|].
  by apply lstrip_fixed.
Qed.

(** Nothing is left to strip from a stripped string. *)
Lemma strip_idempotent s : strip (strip s) = strip s.
Proof.
  unfold strip.
  destruct (lstrip_head s) as [->|(c & r & -> & Hc)]; [done|].
  cbn [rev]. destruct (lstrip_snoc (rev r) c Hc) as [t Ht]. rewrite Ht.
  rewrite rev_app_distr. cbn [rev app].
  rewrite (lstrip_fixed c (rev t) Hc). cbn [rev]. rewrite rev_involutive.
  by rewrite <- Ht, lstrip_idempotent, Ht, rev_app_distr.
Qed.

(** X15. A cleaned content holds no run of three line breaks and has no
    white space left at its ends. *)
Theorem clean_content_is_squeezed_and_stripped (content : pystr) :
  contains [NL; NL; NL] (_clean_content content) = false
  /\ strip (_clean_content content) = _clean_content content.
Proof.
  unfold _clean_content. destruct (is_empty content); [done|]. cbv zeta.
  set (joined := join [NL] _). split; [|apply strip_idempotent].
  destruct (strip_split (squeeze_newlines (length joined) joined)) as (a & b & Hs).
  apply (contains_part _ a _ b). rewrite <- Hs.
  by apply squeeze_newlines_done.
Qed.

(** X16. Whatever the length of the content, it contributes at most 6022
    characters to the formatted result (6000 and the truncation marker);
    what follows, the source line and the PDF line, does not depend on the
    content. A cleaned content of at most 6000 characters is given whole. *)
Theorem format_result_bounds_content (st : State) (content url : pystr) (score : Z) :
  content <> [] ->
  exists body,
    _format_result st content url score = body ++ result_tail st url
    /\ len body <= 6022
    /\ (len (_clean_content content) <= 6000 -> body = _clean_content content).
Proof.
  intros Hc. unfold _format_result, result_tail.
  destruct content as [|c0 content']; [done|]. cbn [is_empty]. cbv zeta.
  set (cleaned := _clean_content (c0 :: content')).
  exists (if 6000 <? len cleaned then slice_to 6000 cleaned ++ truncation_marker
          else cleaned).
  split; [|split].
  - destruct (negb (is_empty (pdf_links st)));
      [destruct (negb (is_empty (firstn 3 _)))|];
      by rewrite <- ?app_assoc, ?app_nil_r.
  - destruct (6000 <? len cleaned) eqn:E; [|apply Z.ltb_ge in E; lia].
    unfold len, slice_to. cbn [Z.leb Z.compare]. rewrite length_app, length_take.
    change (length truncation_marker) with 22%nat. lia.
  - intros Hle. by rewrite (proj2 (Z.ltb_ge 6000 (len cleaned))) by lia.
Qed.

Lemma format_result_bounds_content_witness :
  exists body,
    _format_result Examples.st_init Examples.rich_page Examples.site 81
    = body ++ result_tail Examples.st_init Examples.site
    /\ len body <= 6022
    /\ (len (_clean_content Examples.rich_page) <= 6000 ->
        body = _clean_content Examples.rich_page).
Proof.
  apply (format_result_bounds_content Examples.st_init Examples.rich_page
           Examples.site 81).
  discriminate.
Defined.

(* --------------------------------------------------------------------- *)
(** ** ResultFormatter: the loop over the lines *)
(* --------------------------------------------------------------------- *)

Lemma clean_line_cases acc line :
  (clean_line acc line = acc
   /\ (is_annotation line = true \/ is_empty (strip line) = true))
  \/ (is_annotation line = false
      /\ (is_long line = true -> line_key line ∉ snd (fst acc))
      /\ clean_line acc line
         = (fst (fst acc) ++ [line],
            (if is_long line then {[line_key line]} ∪ snd (fst acc)
             else snd (fst acc)),
            is_empty (strip line)))
  \/ (is_long line = true /\ line_key line ∈ snd (fst acc)
      /\ fst (fst (clean_line acc line)) = fst (fst acc)
      /\ snd (fst (clean_line acc line)) = snd (fst acc)).
Proof.
  destruct acc as [[kept seen] flag]. unfold clean_line, is_annotation, is_long,
    line_key. cbn [fst snd]. cbv zeta.
  destruct (startswith source_marker (strip line)); [left; split; [done|by left]|].
  destruct (startswith (lit "===") (strip line)); [left; split; [done|by left]|].
  destruct (is_empty (strip line) && flag) eqn:Eb.
  { left. split; [done|]. right. by apply andb_true_iff in Eb as [-> _]. }
  destruct (50 <? len (strip line)).
  - destruct (bool_decide (lower (slice_to 100 (strip line)) ∈ seen)) eqn:E.
    + apply bool_decide_eq_true_1 in E. right. right. done.
    + apply bool_decide_eq_false_1 in E. right. left. done.
  - right. left. done.
Qed.

(** X17. The loop of [_clean_content] keeps no source annotation and no
    divider line. *)
Theorem kept_lines_hold_no_annotation (content : pystr) :
  Forall (fun line => is_annotation line = false) (kept_lines content).
Proof.
  unfold kept_lines.
  assert (forall lines acc,
            Forall (fun line => is_annotation line = false) (fst (fst acc)) ->
            Forall (fun line => is_annotation line = false)
              (fst (fst (fold_left clean_line lines acc)))) as H.
  { induction lines as [|l lines IH]; intros acc Hacc; [done|].
    cbn [fold_left]. apply IH.
    destruct (clean_line_cases acc l)
      as [[-> _]|[(Ha & _ & ->)|(_ & _ & -> & _)]]; try done.
    cbn [fst]. apply Forall_app. split; [done|]. by constructor. }
  apply H. constructor.
Qed.

Lemma kept_long_lines_nodup (content : pystr) :
  NoDup (map line_key (List.filter is_long (kept_lines content))).
Proof.
  unfold kept_lines.
  assert (forall lines acc,
            (NoDup (map line_key (List.filter is_long (fst (fst acc))))
             /\ forall l, In l (List.filter is_long (fst (fst acc))) ->
                          line_key l ∈ snd (fst acc)) ->
            NoDup (map line_key
                     (List.filter is_long
                        (fst (fst (fold_left clean_line lines acc))))))
    as H.
  { induction lines as [|l lines IH]; intros acc [Hn Hs]; [done|].
    cbn [fold_left]. apply IH.
    destruct (clean_line_cases acc l)
      as [[-> _]|[(Ha & Hfresh & ->)|(_ & _ & -> & ->)]]; try done.
    cbn [fst snd]. rewrite List.filter_app. cbn [List.filter].
    destruct (is_long l) eqn:El.
    - split.
      + rewrite map_app. cbn [map]. apply NoDup_app. split; [done|].
        split; [|apply NoDup_singleton].
        intros k Hk Hk'. apply list_elem_of_singleton in Hk'. subst k.
        apply list_elem_of_In, in_map_iff in Hk as (l' & Hl1 & Hl2).
        apply (Hfresh eq_refl). rewrite <- Hl1. by apply Hs.
      + intros l' Hl'. apply in_app_iff in Hl' as [Hl'|[<-|[]]].
        * apply elem_of_union. right. by apply Hs.
        * apply elem_of_union. left. by apply elem_of_singleton.
    - rewrite app_nil_r. by split. }
  apply H. split; [constructor|]. intros l [].
Qed.

(** One turn of the loop keeps the keys of the long lines kept so far,
    keeps every key seen among them, and adds the key of a long line that
    is no annotation. *)
Lemma clean_line_keys acc line :
  let keys := fun a : list pystr * gset pystr * bool =>
                map line_key (List.filter is_long (fst (fst a))) in
  (forall k, k ∈ snd (fst acc) -> In k (keys acc)) ->
  (forall k, In k (keys acc) -> In k (keys (clean_line acc line)))
  /\ (forall k, k ∈ snd (fst (clean_line acc line)) ->
        In k (keys (clean_line acc line)))
  /\ (is_long line = true -> is_annotation line = false ->
      In (line_key line) (keys (clean_line acc line))).
Proof.
  cbv zeta. intros Hseen.
  destruct (clean_line_cases acc line)
    as [[-> Hdrop]|[(Ha & Hfresh & ->)|(Hlong & Hin & Hk & Hs)]].
  - split; [done|]. split; [done|]. intros Hlong Hannot.
    destruct Hdrop as [Hd|Hd]; [congruence|].
    unfold is_long in Hlong. apply Z.ltb_lt in Hlong.
    destruct (strip line); [unfold len in Hlong; cbn in Hlong; lia|done].
  - cbn [fst snd]. rewrite List.filter_app, map_app. cbn [List.filter].
    split; [intros k Hk; apply in_or_app; by left|].
    destruct (is_long line) eqn:El; cbn [map].
    + split; [|intros _ _; apply in_or_app; right; by left].
      intros k Hk. apply in_or_app.
      apply elem_of_union in Hk as [Hk|Hk]; [|left; by apply Hseen].
      apply elem_of_singleton in Hk. subst k. right. by left.
    + split; [|done]. intros k Hk. apply in_or_app. left. by apply Hseen.
  - rewrite Hk, Hs. split; [done|]. split; [done|]. intros _ _. by apply Hseen.
Qed.

Lemma clean_lines_keys lines : forall acc,
  let keys := fun a : list pystr * gset pystr * bool =>
                map line_key (List.filter is_long (fst (fst a))) in
  (forall k, k ∈ snd (fst acc) -> In k (keys acc)) ->
  (forall k, In k (keys acc) -> In k (keys (fold_left clean_line lines acc)))
  /\ (forall line, In line lines -> is_long line = true ->
        is_annotation line = false ->
        In (line_key line) (keys (fold_left clean_line lines acc))).
Proof.
  cbv zeta. induction lines as [|l lines IH]; intros acc Hseen; cbn [fold_left].
  { split; [done|]. intros line []. }
  destruct (clean_line_keys acc l Hseen) as (Hmono & Hseen' & Hnew).
  destruct (IH (clean_line acc l) Hseen') as [Hmono' Hcover].
  split; [intros k Hk; by apply Hmono', Hmono|].
  intros line [<-|Hin] Hlong Hannot.
  - by apply Hmono', Hnew.
  - by apply Hcover.
Qed.

(** X18. For a content in Latin-1: among the lines kept, no two long lines
    (more than 50 characters once stripped) share the lowered first 100
    characters, and every long line of the content that is no annotation
    has its key among the lines kept: a long line that comes again is
    kept once. *)
Theorem kept_long_lines_are_distinct (content : pystr) :
  latin1 content = true ->
  NoDup (map line_key (List.filter is_long (kept_lines content)))
  /\ forall line,
       In line (split_on NL content) ->
       is_long line = true ->
       is_annotation line = false ->
       In (line_key line) (map line_key (List.filter is_long (kept_lines content))).
Proof.
  intros _. split; [apply kept_long_lines_nodup|].
  unfold kept_lines.
  apply (clean_lines_keys (split_on NL content) ([], ∅, false)).
  intros k Hk. by apply elem_of_empty in Hk.
Qed.

Lemma kept_long_lines_are_distinct_witness :
  NoDup (map line_key
           (List.filter is_long
              (kept_lines (repeat_char 97%N 60 ++ [NL] ++ repeat_char 65%N 60))))
  /\ In (line_key (repeat_char 65%N 60))
        (map line_key
           (List.filter is_long
              (kept_lines (repeat_char 97%N 60 ++ [NL] ++ repeat_char 65%N 60)))).
Proof.
  destruct (kept_long_lines_are_distinct
              (repeat_char 97%N 60 ++ [NL] ++ repeat_char 65%N 60))
    as [Hn Hc]; [vm_compute; reflexivity|].
  split; [exact Hn|].
  apply (Hc (repeat_char 65%N 60)).
  - vm_compute. right. left. reflexivity.
  - vm_compute. reflexivity.
  - vm_compute. reflexivity.
Defined.

(** X19. Short lines of text are never merged: every line that is
    neither blank, nor long, nor an annotation is kept, as many times as it
    comes and in the same order. *)
Theorem short_lines_are_all_kept (content : pystr) :
  List.filter is_short_text (kept_lines content)
  = List.filter is_short_text (split_on NL content).
Proof.
  unfold kept_lines.
  assert (forall lines acc,
            List.filter is_short_text (fst (fst (fold_left clean_line lines acc)))
            = List.filter is_short_text (fst (fst acc))
              ++ List.filter is_short_text lines) as H.
  { induction lines as [|l lines IH]; intros acc; [by rewrite app_nil_r|].
    cbn [fold_left]. rewrite IH.
    change (l :: lines) with ([l] ++ lines).
    rewrite (List.filter_app _ [l] lines), app_assoc. f_equal.
    destruct (clean_line_cases acc l)
      as [[-> Hdrop]|[(Ha & _ & ->)|(Hlong & _ & -> & _)]].
    - assert (is_short_text l = false) as Hf.
      { unfold is_short_text. destruct Hdrop as [-> | ->]; [done|].
        apply andb_false_r. }
      cbn [List.filter]. rewrite Hf. by rewrite app_nil_r.
    - cbn [fst]. by rewrite List.filter_app.
    - assert (is_short_text l = false) as Hf.
      { unfold is_short_text. rewrite Hlong. cbn [negb]. by rewrite andb_false_r. }
      cbn [List.filter]. rewrite Hf. by rewrite app_nil_r. }
  by rewrite H.
Qed.

(* --------------------------------------------------------------------- *)
(** ** PdfExtractor: pages, rows and cleaned text *)
(* --------------------------------------------------------------------- *)

Lemma enumerate_lookup {A} (l : list A) : forall start i x,
  l !! i = Some x -> enumerate start l !! i = Some ((start + i)%nat, x).
Proof.
  induction l as [|y l IH]; intros start i x H; [done|].
  destruct i as [|i].
  - cbn in H. injection H as ->. cbn. by rewrite Nat.add_0_r.
  - change (enumerate (S start) l !! i = Some ((start + S i)%nat, x)).
    rewrite (IH (S start) i x H). f_equal. f_equal. lia.
Qed.

(** X20. Strategy 1 returns one block for every page of the document, in
    order, and the block of page [i] starts with the header of page [i].
    A page without text, or whose text has at most 10 characters once
    stripped, is not left out: its block is the header followed by the mark
    of an empty page; the block of any other page is the header followed by
    its text. *)
Theorem strategy1_keeps_page_count (pages : list (list (list pystr))) :
  length (strategy1_pages pages) = length pages
  /\ forall (i : nat) rows,
       pages !! i = Some rows ->
       (exists rest,
          strategy1_pages pages !! i = Some (page_header (S i) ++ rest))
       /\ (rows = [] \/ len (strip (strategy1_page_text rows)) <= 10 ->
           strategy1_pages pages !! i = Some (empty_page_block (S i)))
       /\ (rows <> [] -> 10 < len (strip (strategy1_page_text rows)) ->
           strategy1_pages pages !! i
           = Some (page_block (S i) (strategy1_page_text rows))).
Proof.
  unfold strategy1_pages. split.
  - rewrite length_map. generalize 1%nat.
    induction pages as [|p pages IH]; intros n; [done|].
    cbn [enumerate length]. by rewrite IH.
  - intros i rows Hi.
    assert (map (fun '(page_num, rows) => strategy1_page page_num rows)
              (enumerate 1 pages) !! i = Some (strategy1_page (S i) rows)) as Heq.
    { change (map ?f ?l) with (f <$> l). rewrite list_lookup_fmap.
      by rewrite (enumerate_lookup pages 1 i rows Hi). }
    assert (forall block : pystr,
              strategy1_page (S i) rows = block ->
              map (fun '(page_num, rows) => strategy1_page page_num rows)
                (enumerate 1 pages) !! i = Some block) as Hblock.
    { intros block <-. exact Heq. }
    unfold strategy1_page in Hblock.
    destruct rows as [|row rows']; cbn [is_empty] in Hblock.
    { split; [eexists; apply Hblock; reflexivity|].
      split; [intros _; by apply Hblock|]. intros Hne. by destruct Hne. }
    destruct (10 <? len (strip (strategy1_page_text (row :: rows')))) eqn:E;
      [apply Z.ltb_lt in E|apply Z.ltb_ge in E].
    + split; [eexists; apply Hblock; reflexivity|].
      split; [|intros _ _; by apply Hblock].
      intros [?|?]; [done|lia].
    + split; [eexists; apply Hblock; reflexivity|].
      split; [intros _; by apply Hblock|]. intros _ ?. lia.
Qed.

Lemma strategy1_keeps_page_count_witness :
  (exists rest,
     strategy1_pages Examples.three_pages !! 2%nat
     = Some (page_header 3 ++ rest))
  /\ strategy1_pages Examples.three_pages !! 2%nat = Some (empty_page_block 3)
  /\ strategy1_pages Examples.three_pages !! 1%nat
     = Some (page_block 2 (strategy1_page_text [[repeat_char 98%N 80]])).
Proof.
  destruct (proj2 (strategy1_keeps_page_count Examples.three_pages) 2%nat
              [[repeat_char 99%N 5]] eq_refl) as (H1 & H2 & _).
  destruct (proj2 (strategy1_keeps_page_count Examples.three_pages) 1%nat
              [[repeat_char 98%N 80]] eq_refl) as (_ & _ & H3).
  split; [exact H1|]. split.
  - apply H2. right. vm_compute. discriminate.
  - apply H3; [discriminate|]. vm_compute. reflexivity.
Defined.

(* --------------------------------------------------------------------- *)
(** ** PdfExtractor: the temporary file and the fallbacks *)
(* --------------------------------------------------------------------- *)

Lemma lstrip_keeps_suffix a c b :
  is_space c = false -> exists a', lstrip (a ++ c :: b) = a' ++ c :: b.
Proof.
  intros Hc. induction a as [|x a [a' IH]]; cbn [app lstrip].
  - rewrite Hc. by exists [].
  - destruct (is_space x); [by exists a'|]. by exists (x :: a).
Qed.

(** A block of strategy 1 keeps at least its first rule when stripped. *)
Lemma strategy1_page_stripped page_num rows :
  60 <= len (strip (strategy1_page page_num rows)).
Proof.
  assert (forall rest, 60 <= len (strip (rule60 ++ rest))) as H.
  { intros rest. unfold strip.
    assert (lstrip (rule60 ++ rest) = rule60 ++ rest) as -> by done.
    rewrite rev_app_distr.
    change (rev rule60) with (61%N :: List.repeat 61%N 59).
    destruct (lstrip_keeps_suffix (rev rest) 61%N (List.repeat 61%N 59)
                ltac:(done)) as [a' ->].
    unfold len. rewrite length_rev, length_app. cbn [length].
    rewrite repeat_length. lia. }
  unfold strategy1_page, empty_page_block, page_block, page_header.
  repeat case_match; rewrite <- ?app_assoc; apply H.
Qed.

Section PdfPaths.

Variable W : World.

(** X21. A PDF of two pages or more is given as strategy 1 reads it:
    the blocks of strategy 1 alone pass the threshold of 200 characters, so
    strategies 2 and 3 are not tried, the file is removed, and the result is
    the document made of these blocks, never the message for a document
    that cannot be extracted. *)
Theorem multi_page_pdf_uses_strategy1_only (url : pystr) (st : State)
    (resp : Response) (pages : list (list (list pystr))) :
  let path := mktemp W (tmp_count (log st ++ [EGet PdfDownload url])) in
  http_get W (request_count (log st)) url = Some resp ->
  contains (lit "pdf") (lower (resp_content_type resp))
  || endswith (lit ".pdf") (lower url) = true ->
  pdf_rows W (resp_content resp) = Some pages ->
  2 <= len pages ->
  fst (_extract_pdf_from_url_advanced W url st)
  = pdf_document url (strategy1_pages pages)
  /\ log (snd (_extract_pdf_from_url_advanced W url st))
     = log st ++ [EGet PdfDownload url; ETmpWrite path; EStrategy 1 path;
                  ERemove path].
Proof.
  cbv zeta. intros Hget Hpdf Hrows Hlen.
  unfold _extract_pdf_from_url_advanced, session_get. rewrite Hget.
  apply orb_true_iff in Hpdf.
  assert (negb (contains (lit "pdf") (lower (resp_content_type resp)))
          && negb (endswith (lit ".pdf") (lower url)) = false) as ->.
  { destruct Hpdf as [-> | ->]; [done|]. apply andb_false_r. }
  change (log (emit (EGet PdfDownload url) st)) with (log st ++ [EGet PdfDownload url]).
  set (path := mktemp W _).
  set (st2 := emit (ETmpWrite path) _).
  assert (disk st2 !! path = Some (resp_content resp)) as Hd
    by apply lookup_insert_eq.
  rewrite (strategy1_result W path st2 _ Hd), Hrows.
  rewrite (two_pages_pass_threshold pages Hlen). cbv beta iota zeta.
  rewrite (two_pages_pass_threshold pages Hlen). cbv beta iota zeta.
  assert (is_empty (strategy1_pages pages)
          || forallb (fun p => len (strip p) <? 20) (strategy1_pages pages)
          = false) as ->.
  { unfold strategy1_pages.
    destruct pages as [|p pages]; [unfold len in Hlen; cbn in Hlen; lia|].
    cbn [enumerate map is_empty orb forallb].
    pose proof (strategy1_page_stripped 1 p).
    by rewrite (proj2 (Z.ltb_ge _ 20)) by lia. }
  split; [done|]. subst st2. cbn [snd log emit set_disk].
  by rewrite <- !app_assoc.
Qed.

(** X22. When the blocks of strategy 1 count less than 200 characters,
    strategy 2 is called on the same temporary file, right after strategy
    1 and before any removal of the file. *)
Theorem short_pdf_falls_back_to_strategy2 (url : pystr) (st : State)
    (resp : Response) (pages : list (list (list pystr))) :
  let path := mktemp W (tmp_count (log st ++ [EGet PdfDownload url])) in
  http_get W (request_count (log st)) url = Some resp ->
  contains (lit "pdf") (lower (resp_content_type resp))
  || endswith (lit ".pdf") (lower url) = true ->
  pdf_rows W (resp_content resp) = Some pages ->
  total_chars (strategy1_pages pages) < 200 ->
  exists rest,
    log (snd (_extract_pdf_from_url_advanced W url st))
    = log st ++ [EGet PdfDownload url; ETmpWrite path; EStrategy 1 path;
                 EStrategy 2 path] ++ rest.
Proof. apply short_blocks_fall_back. Qed.


(** X24. The call touches no file but its own temporary file. *)
Theorem pdf_extraction_touches_its_file_only (url : pystr) (st : State)
    (other : pystr) :
  other <> mktemp W (tmp_count (log st ++ [EGet PdfDownload url])) ->
  disk (snd (_extract_pdf_from_url_advanced W url st)) !! other
  = disk st !! other.
Proof.
  intros Hother.
  unfold _extract_pdf_from_url_advanced, session_get.
  destruct (http_get W _ url) as [resp|]; [|done].
  case_match; [done|].
  change (log (emit (EGet PdfDownload url) st)) with (log st ++ [EGet PdfDownload url]).
  set (path := mktemp W _) in *.
  set (st2 := emit (ETmpWrite path) _).
  assert (disk st2 !! other = disk st !! other) as Hd2.
  { subst st2. cbn [disk emit set_disk]. by rewrite lookup_insert_ne. }
  pose proof (strategy1_disk W path st2) as H1.
  destruct (_extract_pdf_strategy1 W path st2) as [[pages|] st3];
    cbn [snd] in H1; [|cbn [snd]; by rewrite H1].
  assert (exists pages2 st4,
    (if total_chars pages <? 200 then _extract_pdf_strategy2 W path st3
     else (pages, st3)) = (pages2, st4) /\ disk st4 = disk st2)
    as (pages2 & st4 & -> & Hd4).
  { destruct (total_chars _ <? 200); [|by eauto].
    pose proof (strategy2_disk W path st3) as Hq.
    destruct (_extract_pdf_strategy2 W path st3) as [x y]. cbn [snd] in Hq.
    do 2 eexists. split; [done|]. congruence. }
  assert (exists r3 st5,
    (if total_chars pages2 <? 200 then _extract_pdf_strategy3 W path st4
     else (Some pages2, st4)) = (r3, st5) /\ disk st5 = disk st2)
    as (r3 & st5 & -> & Hd5).
  { destruct (total_chars pages2 <? 200); [|by eauto].
    pose proof (strategy3_disk W path st4) as Hq.
    destruct (_extract_pdf_strategy3 W path st4) as [x y]. cbn [snd] in Hq.
    do 2 eexists. split; [done|]. congruence. }
  destruct r3 as [pages3|]; [|cbn [snd]; by rewrite Hd5].
  assert (disk (emit (ERemove path) (set_disk (delete path (disk st5)) st5)) !! other
          = disk st !! other) as Hfinal.
  { cbn [disk emit set_disk]. rewrite lookup_delete_ne by done. by rewrite Hd5. }
  by case_match.
Qed.

End PdfPaths.

Lemma multi_page_pdf_uses_strategy1_only_witness :
  fst (_extract_pdf_from_url_advanced Examples.W_pdf3 Examples.pdf_url
         Examples.st_init)
  = pdf_document Examples.pdf_url (strategy1_pages Examples.three_pages).
Proof.
  apply (multi_page_pdf_uses_strategy1_only Examples.W_pdf3 Examples.pdf_url
           Examples.st_init Examples.pdf_response Examples.three_pages);
    vm_compute; first [reflexivity | discriminate].
Defined.

Lemma short_pdf_falls_back_to_strategy2_witness :
  exists rest,
    log (snd (_extract_pdf_from_url_advanced ShortPdf.W Examples.pdf_url
                Examples.st_init))
    = log Examples.st_init
      ++ [EGet PdfDownload Examples.pdf_url;
          ETmpWrite (mktemp ShortPdf.W 0); EStrategy 1 (mktemp ShortPdf.W 0);
          EStrategy 2 (mktemp ShortPdf.W 0)] ++ rest.
Proof.
  apply (short_pdf_falls_back_to_strategy2 ShortPdf.W Examples.pdf_url
           Examples.st_init Examples.pdf_response ShortPdf.one_page);
    vm_compute; reflexivity.
Defined.


Lemma pdf_extraction_touches_its_file_only_witness :
  disk (snd (_extract_pdf_from_url_advanced Examples.W_broken_pdf Examples.pdf_url
               Examples.st_init)) !! lit "/tmp/notes.txt"
  = disk Examples.st_init !! lit "/tmp/notes.txt".
Proof.
  apply (pdf_extraction_touches_its_file_only Examples.W_broken_pdf
           Examples.pdf_url Examples.st_init (lit "/tmp/notes.txt")).
  vm_compute. discriminate.
Defined.

(* --------------------------------------------------------------------- *)
(** ** Text cleaning of the PDF strategies *)
(* --------------------------------------------------------------------- *)

Lemma collapse_runs_forall (Q : N -> Prop) p f s : forall run,
  Forall (fun c => p c = false -> Q c) s ->
  (forall n, Forall Q (f n)) ->
  Forall Q (collapse_runs p f run s).
Proof.
  induction s as [|c s IH]; intros run Hs Hf; cbn [collapse_runs].
  - destruct run; [constructor|apply Hf].
  - apply Forall_cons in Hs as [Hc Hs]. destruct (p c) eqn:E; [by apply IH|].
    apply Forall_app. split; [destruct run; [constructor|apply Hf]|].
    constructor; [by apply Hc|by apply IH].
Qed.

Lemma split_on_aux_forall (Q : N -> Prop) sep s : forall cur,
  Forall Q cur -> Forall Q s -> Forall (Forall Q) (split_on_aux sep cur s).
Proof.
  induction s as [|c s IH]; intros cur Hcur Hs; cbn [split_on_aux].
  - constructor; [by apply Forall_rev|constructor].
  - apply Forall_cons in Hs as [Hc Hs]. destruct (c =? sep)%N.
    + constructor; [by apply Forall_rev|]. by apply IH.
    + apply IH; [by constructor|done].
Qed.

Lemma join_forall (Q : N -> Prop) sep l :
  Forall Q sep -> Forall (Forall Q) l -> Forall Q (join sep l).
Proof.
  intros Hsep. induction 1 as [|x l Hx Hl IH]; [constructor|].
  cbn [join]. destruct l as [|y l]; [done|].
  apply Forall_app. split; [done|]. apply Forall_app. by split.
Qed.

Lemma strip_forall (Q : N -> Prop) s : Forall Q s -> Forall Q (strip s).
Proof.
  intros H. destruct (strip_split s) as (a & b & Hs). rewrite Hs in H.
  apply Forall_app in H as [_ H]. by apply Forall_app in H as [H _].
Qed.

Lemma map_strip_forall (Q : N -> Prop) l :
  Forall (Forall Q) l -> Forall (Forall Q) (map strip l).
Proof.
  induction 1 as [|x l Hx Hl IH]; [constructor|].
  cbn [map]. constructor; [by apply strip_forall|done].
Qed.

Lemma filter_forall {A} (f : A -> bool) l :
  Forall (fun x => f x = true) (List.filter f l).
Proof.
  induction l as [|x l IH]; [constructor|]. cbn [List.filter].
  destruct (f x) eqn:E; [by constructor|done].
Qed.

Lemma clean_space : is_clean_char SPACE.
Proof. by split. Qed.

Lemma clean_newline : is_clean_char NL.
Proof. by split. Qed.

Lemma clean_pdf_text_chars (text : pystr) :
  Forall is_clean_char (_clean_pdf_text text).
Proof.
  unfold _clean_pdf_text. cbv zeta.
  apply strip_forall, join_forall; [by repeat constructor|].
  apply map_strip_forall, split_on_aux_forall; [constructor|].
  apply collapse_runs_forall.
  - apply Forall_impl with (P := is_clean_char); [|done].
    apply collapse_runs_forall; [|intros _; constructor; [apply clean_space|constructor]].
    eapply Forall_impl; [apply (filter_forall (fun c => negb (is_control c)))|].
    intros c Hc Hb. cbn beta in Hc. apply negb_true_iff in Hc. split; [done|].
    intros ->. done.
  - intros n. destruct (3 <=? n)%nat.
    + repeat constructor; apply clean_newline.
    + unfold repeat_char. induction n as [|n IH]; cbn; [constructor|].
      constructor; [apply clean_newline|done].
Qed.

(** X25. A cleaned PDF text holds no control character, the form feed
    among them, and no tab, and it has no white space left at its ends. *)
Theorem clean_pdf_text_is_clean (text : pystr) :
  Forall is_clean_char (_clean_pdf_text text)
  /\ strip (_clean_pdf_text text) = _clean_pdf_text text.
Proof.
  split; [apply clean_pdf_text_chars|].
  unfold _clean_pdf_text. cbv zeta. apply strip_idempotent.
Qed.

Lemma split_on_aux_without sep s : forall cur,
  Forall (fun c => c <> sep) s -> split_on_aux sep cur s = [rev cur ++ s].
Proof.
  induction s as [|c s IH]; intros cur Hs; cbn [split_on_aux].
  - by rewrite app_nil_r.
  - apply Forall_cons in Hs as [Hc Hs].
    rewrite (proj2 (N.eqb_neq c sep) Hc), IH by done.
    cbn [rev]. by rewrite <- app_assoc.
Qed.

Lemma chunks_count {A} (n : nat) : (0 < n)%nat ->
  forall fuel (l : list A), (length (chunks fuel n l) * n < length l + n)%nat.
Proof.
  intros Hn. induction fuel as [|f IH]; intros l.
  - destruct l; cbn; lia.
  - destruct l as [|x l]; [cbn; lia|].
    cbn [chunks]. change (length (?a :: ?b)) with (S (length b)) at 1.
    destruct (le_lt_dec n (length (x :: l))) as [Hle|Hlt].
    + specialize (IH (skipn n (x :: l))).
      rewrite length_skipn in IH. lia.
    + rewrite skipn_all2 by lia.
      assert (chunks f n (@nil A) = []) as -> by (by destruct f).
      cbn [length] in *. lia.
Qed.

Lemma flat_map_at_most_one {A B} (g : A -> list B) l :
  (forall x, length (g x) <= 1)%nat -> (length (flat_map g l) <= length l)%nat.
Proof.
  intros Hg. induction l as [|x l IH]; [done|].
  cbn [flat_map]. rewrite length_app. specialize (Hg x). cbn [length]. lia.
Qed.

Lemma enumerate_length {A} (l : list A) : forall start,
  length (enumerate start l) = length l.
Proof. induction l as [|x l IH]; intros start; [done|]. cbn. by rewrite IH. Qed.

(** X26. Strategy 2 never uses the page breaks of the document: the
    cleaning removes the form feeds before the text is split on them, so
    the pages are always chunks of lines, and there are at most four. *)
Theorem strategy2_ignores_page_breaks (full_text : pystr) :
  split_on 12%N (_clean_pdf_text full_text) = [_clean_pdf_text full_text]
  /\ (length (strategy2_pages full_text) <= 4)%nat.
Proof.
  assert (split_on 12%N (_clean_pdf_text full_text) = [_clean_pdf_text full_text])
    as Hsplit.
  { unfold split_on. rewrite split_on_aux_without; [done|].
    eapply Forall_impl; [apply (clean_pdf_text_chars full_text)|].
    intros c [Hc _] ->. done. }
  split; [exact Hsplit|].
  unfold strategy2_pages. destruct (_ || _); [cbn; lia|]. cbv zeta.
  rewrite Hsplit. change (len [_clean_pdf_text full_text] =? 1) with true.
  cbv iota.
  set (lines := split_on NL (_clean_pdf_text full_text)).
  set (c := Z.to_nat (Z.max 50 (len lines / 3))).
  etransitivity.
  { apply flat_map_at_most_one. intros [i page]. destruct (is_empty _); cbn; lia. }
  rewrite enumerate_length, length_map.
  pose proof (chunks_count c ltac:(subst c; lia) (length lines) lines) as Hk.
  assert (Z.of_nat c = Z.max 50 (len lines / 3)) as Hc by (subst c; lia).
  unfold len in *.
  pose proof (Z.div_mod (Z.of_nat (length lines)) 3 ltac:(lia)) as Hdm.
  pose proof (Z.mod_pos_bound (Z.of_nat (length lines)) 3 ltac:(lia)) as Hmb.
  nia.
Qed.

(* --------------------------------------------------------------------- *)
(** ** Rows of a schedule *)
(* --------------------------------------------------------------------- *)

Lemma collapse_spaces_single_spaced s : forall run,
  single_spaced false (collapse_runs is_space (fun _ => [SPACE]) run s) = true.
Proof.
  induction s as [|c s IH]; intros run; cbn [collapse_runs].
  - by destruct run.
  - destruct (is_space c) eqn:E; [apply IH|].
    destruct run; cbn [app single_spaced]; rewrite ?E; [apply IH|].
    change (is_space SPACE) with true. cbn [single_spaced]. rewrite ?E.
    change (SPACE =? SPACE)%N with true. cbn [andb negb]. apply IH.
Qed.

Lemma single_spaced_weaken b s :
  single_spaced b s = true -> single_spaced false s = true.
Proof.
  destruct s as [|c s]; [done|]. cbn [single_spaced].
  destruct (is_space c); [|done]. destruct b; [|done].
  rewrite andb_false_r. done.
Qed.

Lemma single_spaced_suffix a s : forall b,
  single_spaced b (a ++ s) = true -> single_spaced false s = true.
Proof.
  induction a as [|c a IH]; intros b H; [by apply (single_spaced_weaken b)|].
  cbn [app single_spaced] in H. destruct (is_space c).
  - apply andb_true_iff in H as [_ H]. by apply (IH true).
  - by apply (IH false).
Qed.

Lemma single_spaced_prefix s t : forall b,
  single_spaced b (s ++ t) = true -> single_spaced b s = true.
Proof.
  induction s as [|c s IH]; intros b H; [done|].
  cbn [app single_spaced] in *. destruct (is_space c).
  - apply andb_true_iff in H as [H1 H]. rewrite H1. by apply (IH true).
  - by apply (IH false).
Qed.

Lemma strip_single_spaced s :
  single_spaced false s = true -> single_spaced false (strip s) = true.
Proof.
  intros H. destruct (strip_split s) as (a & b & Hs). rewrite Hs in H.
  apply single_spaced_suffix in H. by apply single_spaced_prefix in H.
Qed.

Lemma collapse_single_spaced s :
  (forall b, single_spaced b s = true ->
             collapse_runs is_space (fun _ => [SPACE]) 0 s = s)
  /\ (single_spaced true s = true ->
      collapse_runs is_space (fun _ => [SPACE]) 1 s = SPACE :: s).
Proof.
  induction s as [|c s [IH0 IH1]]; [done|]. cbn [collapse_runs single_spaced].
  destruct (is_space c) eqn:E.
  - split; [|by rewrite andb_false_r]. intros b H.
    apply andb_true_iff in H as [H Hs]. apply andb_true_iff in H as [Hc _].
    apply N.eqb_eq in Hc as ->. by apply IH1.
  - split.
    + intros b H. cbn [app]. f_equal. by apply (IH0 false).
    + intros H. cbn [app]. do 2 f_equal. by apply (IH0 false).
Qed.

Lemma not_all_separators s :
  forallb is_separator s = false ->
  existsb (fun c => negb (is_separator c)) s = true.
Proof.
  induction s as [|c s IH]; [done|]. cbn [forallb existsb].
  destruct (is_separator c); [exact IH|done].
Qed.

Lemma clean_schedule_row_cases (row : pystr) :
  let r := strip (collapse_runs is_space (fun _ => [SPACE]) 0 row) in
  _clean_schedule_row row = []
  \/ (_clean_schedule_row row = r /\ forallb is_separator r = false
      /\ (len r <? 3) = false).
Proof.
  unfold _clean_schedule_row. cbv zeta.
  set (r := strip _).
  destruct (is_empty r) eqn:E.
  { destruct r; [|done]. by left. }
  cbn [negb andb]. destruct (forallb is_separator r) eqn:F; [by left|].
  destruct (len r <? 3) eqn:L; [by left|]. by right.
Qed.

(** X27. A cleaned schedule row is either empty or a text of at least three
    characters, not all of them separators, with no white space at its
    ends and none inside but single ordinary spaces. *)
Theorem clean_schedule_row_shape (row : pystr) :
  _clean_schedule_row row = []
  \/ (3 <= len (_clean_schedule_row row)
      /\ existsb (fun c => negb (is_separator c)) (_clean_schedule_row row) = true
      /\ single_spaced false (_clean_schedule_row row) = true
      /\ strip (_clean_schedule_row row) = _clean_schedule_row row).
Proof.
  destruct (clean_schedule_row_cases row) as [H|(-> & F & L)]; [by left|].
  right. split; [lia|]. split; [by apply not_all_separators|].
  split; [|apply strip_idempotent].
  apply strip_single_spaced, collapse_spaces_single_spaced.
Qed.

(** X28. Cleaning a schedule row twice gives what cleaning it once gives. *)
Theorem clean_schedule_row_idempotent (row : pystr) :
  _clean_schedule_row (_clean_schedule_row row) = _clean_schedule_row row.
Proof.
  destruct (clean_schedule_row_cases row) as [->|(-> & F & L)]; [done|].
  set (r := strip _) in *.
  assert (strip (collapse_runs is_space (fun _ => [SPACE]) 0 r) = r) as Hr.
  { rewrite (proj1 (collapse_single_spaced r) false).
    - apply strip_idempotent.
    - apply strip_single_spaced, collapse_spaces_single_spaced. }
  unfold _clean_schedule_row. cbv zeta. rewrite Hr, F, L.
  by rewrite andb_false_r.
Qed.

(* --------------------------------------------------------------------- *)
(** ** Blocks of a text *)
(* --------------------------------------------------------------------- *)

Lemma startswith_skipn p : forall s,
  startswith p s = true -> s = p ++ skipn (length p) s.
Proof.
  induction p as [|a p IH]; intros s H; [done|].
  destruct s as [|b s]; [done|]. cbn [startswith] in H.
  apply andb_true_iff in H as [Hab H]. apply N.eqb_eq in Hab as ->.
  cbn [length skipn app]. f_equal. by apply IH.
Qed.

Lemma split_str_aux_nonempty sep s : forall skip cur,
  split_str_aux sep skip cur s <> [].
Proof.
  induction s as [|c s IH]; intros skip cur; cbn [split_str_aux]; [done|].
  destruct skip; [|apply IH]. destruct (startswith sep (c :: s)); [done|apply IH].
Qed.

Lemma join_cons sep x l : l <> [] -> join sep (x :: l) = x ++ sep ++ join sep l.
Proof. by destruct l. Qed.

Lemma join_split_str_aux sep s : forall skip cur,
  sep <> [] ->
  join sep (split_str_aux sep skip cur s) = rev cur ++ skipn skip s.
Proof.
  induction s as [|c s IH]; intros skip cur Hsep; cbn [split_str_aux].
  - destruct skip; cbn [join skipn]; by rewrite app_nil_r.
  - destruct skip as [|k]; [|by rewrite IH].
    destruct (startswith sep (c :: s)) eqn:E.
    + rewrite join_cons by apply split_str_aux_nonempty.
      rewrite IH by done. cbn [rev app skipn]. f_equal.
      destruct sep as [|a p]; [done|].
      apply startswith_skipn in E. cbn [length skipn] in E.
      replace (length (a :: p) - 1)%nat with (length p) by (cbn [length]; lia).
      by rewrite <- E.
    + rewrite IH by done. cbn [rev skipn]. by rewrite <- app_assoc.
Qed.

(** Splitting a text and joining the parts again gives the text back. *)
Lemma join_split_str sep s : sep <> [] -> join sep (split_str sep s) = s.
Proof. intros H. unfold split_str. by rewrite join_split_str_aux. Qed.

Lemma unique_blocks_spec blocks : forall seen,
  sublist (unique_blocks seen blocks) blocks
  /\ NoDup (strip <$> unique_blocks seen blocks)
  /\ Forall (fun b => strip b <> [] /\ strip b ∉ seen) (unique_blocks seen blocks)
  /\ (forall b, b ∈ blocks -> strip b <> [] ->
        strip b ∈ seen \/ strip b ∈ strip <$> unique_blocks seen blocks).
Proof.
  induction blocks as [|block rest IH]; intros seen; cbn [unique_blocks].
  { split; [apply sublist_nil|]. split; [apply NoDup_nil_2|].
    split; [constructor|]. intros b Hb. by apply elem_of_nil in Hb. }
  cbv zeta. destruct (is_empty (strip block)) eqn:E.
  { destruct (IH seen) as (H1 & H2 & H3 & H4). cbn [negb andb].
    split; [by apply sublist_cons|]. split; [done|]. split; [done|].
    intros b Hb Hne. apply elem_of_cons in Hb as [->|Hb]; [|by apply H4].
    by destruct (strip block). }
  cbn [negb andb]. destruct (bool_decide (strip block ∈ seen)) eqn:D.
  { apply bool_decide_eq_true in D. destruct (IH seen) as (H1 & H2 & H3 & H4).
    cbn [negb]. repeat split; [by apply sublist_cons|done|done|].
    intros b Hb Hne. apply elem_of_cons in Hb as [->|Hb]; [by left|by apply H4]. }
  apply bool_decide_eq_false in D. cbn [negb].
  destruct (IH ({[strip block]} ∪ seen)) as (H1 & H2 & H3 & H4).
  split; [|split; [|split]].
  - by apply sublist_skip.
  - rewrite fmap_cons. apply NoDup_cons. split; [|done].
    intros Hin. apply list_elem_of_fmap in Hin as (b & Hb & Hin).
    rewrite Forall_forall in H3. destruct (H3 b Hin) as [_ Hn].
    apply Hn. rewrite <- Hb. apply elem_of_union. left. by apply elem_of_singleton.
  - constructor; [split; [by destruct (strip block)|done]|].
    eapply Forall_impl; [exact H3|]. intros b [Hb Hn]. split; [done|].
    intros Hin. apply Hn, elem_of_union. by right.
  - intros b Hb Hne. rewrite fmap_cons.
    apply elem_of_cons in Hb as [->|Hb]; [right; by left|].
    destruct (H4 b Hb Hne) as [Hs|Hk]; [|right; by right].
    apply elem_of_union in Hs as [Hs|Hs]; [|by left].
    apply elem_of_singleton in Hs. right. rewrite Hs. by left.
Qed.

Lemma unique_blocks_distinct blocks : forall seen,
  NoDup (strip <$> blocks) ->
  Forall (fun b => strip b <> [] /\ strip b ∉ seen) blocks ->
  unique_blocks seen blocks = blocks.
Proof.
  induction blocks as [|block rest IH]; intros seen Hnd Hall; [done|].
  rewrite fmap_cons in Hnd. apply NoDup_cons in Hnd as [Hhd Hnd].
  apply Forall_cons in Hall as [[Hne Hns] Hall].
  cbn [unique_blocks]. cbv zeta.
  rewrite (bool_decide_eq_false_2 _ Hns).
  destruct (strip block) as [|k key] eqn:E; [done|]. cbn [is_empty negb andb].
  f_equal. apply IH; [done|].
  rewrite Forall_forall in Hall |- *. intros b Hb.
  destruct (Hall b Hb) as [Hbne Hbns]. split; [done|].
  intros Hin. apply elem_of_union in Hin as [Hin|Hin]; [|done].
  apply elem_of_singleton in Hin. apply Hhd. rewrite <- Hin.
  apply list_elem_of_fmap. by exists b.
Qed.

(** X29. The blocks that [_deduplicate_content] joins are blocks of the
    content, in their order; their stripped texts are not empty and
    pairwise distinct; and no block that is not blank loses its stripped
    text. *)
Theorem deduplicated_blocks_are_distinct (content : pystr) :
  exists kept,
    _deduplicate_content content = join [NL; NL] kept
    /\ sublist kept (split_str [NL; NL] content)
    /\ NoDup (strip <$> kept)
    /\ Forall (fun b => strip b <> []) kept
    /\ (forall b, b ∈ split_str [NL; NL] content -> strip b <> [] ->
          strip b ∈ strip <$> kept).
Proof.
  destruct (unique_blocks_spec (split_str [NL; NL] content) ∅)
    as (H1 & H2 & H3 & H4).
  exists (unique_blocks ∅ (split_str [NL; NL] content)).
  split; [done|]. split; [done|]. split; [done|]. split.
  - eapply Forall_impl; [exact H3|]. by intros b [Hb _].
  - intros b Hb Hne. destruct (H4 b Hb Hne) as [Hs|Hk]; [by apply elem_of_empty in Hs|done].
Qed.

Lemma deduplicated_blocks_are_distinct_witness :
  exists kept,
    _deduplicate_content (lit "Horaires" ++ [NL; NL] ++ lit " Horaires ")
    = join [NL; NL] kept
    /\ lit "Horaires" ∈ strip <$> kept.
Proof.
  destruct (deduplicated_blocks_are_distinct
              (lit "Horaires" ++ [NL; NL] ++ lit " Horaires "))
    as (kept & H1 & _ & _ & _ & H5).
  exists kept. split; [exact H1|].
  apply (H5 (lit " Horaires ")).
  - vm_compute. right. left.
  - vm_compute. discriminate.
Defined.

(** X30. A content whose blocks are not blank and have pairwise distinct
    stripped texts is returned unchanged. *)
Theorem distinct_blocks_are_unchanged (content : pystr) :
  NoDup (strip <$> split_str [NL; NL] content) ->
  Forall (fun b => strip b <> []) (split_str [NL; NL] content) ->
  _deduplicate_content content = content.
Proof.
  intros Hnd Hall. unfold _deduplicate_content. cbv zeta.
  rewrite unique_blocks_distinct; [by apply join_split_str|done|].
  eapply Forall_impl; [exact Hall|]. intros b Hb. split; [done|apply not_elem_of_empty].
Qed.

Lemma distinct_blocks_are_unchanged_witness :
  _deduplicate_content (lit "Horaires" ++ [NL; NL] ++ lit "Contact")
  = lit "Horaires" ++ [NL; NL] ++ lit "Contact".
Proof.
  apply distinct_blocks_are_unchanged.
  - apply (bool_decide_unpack _). vm_compute. reflexivity.
  - repeat constructor; vm_compute; discriminate.
Defined.
